(** * Screen-space contact shadows: the [Main_CS] ray march and its dispatch

    A shallow embedding of the compute shader [Main_CS]
    (ScreenSpaceShadows compute shader) and of the host function
    [FSceneRenderer::RenderScreenSpaceShadows] that dispatches it.

    The shader is written over an interface of HLSL scalar operations
    ([HLSLFloat]); two instances are given: IEEE binary32 (the shader's
    [float], through the Standard Library's [SpecFloat]) and exact
    rationals (used to read the depth comparison as an interval).  The
    stores the shader issues to its two unordered-access textures are
    kept in finite maps from pixel coordinates to two-channel values;
    what the textures then hold, with the extent and the 16-bit format
    the host gives them, is derived from the stores. *)

From Stdlib Require Import ZArith NArith QArith Qabs Lia Lqa Bool List.
From Stdlib Require Import Floats.SpecFloat.
From stdpp Require Import base option gmap.

Close Scope Q_scope.
Local Open Scope Z_scope.

(** ** The scalar interface *)

(** What the shader needs from HLSL's [float]: arithmetic, [abs], the
    two comparisons it uses, literals, and the conversions between
    [uint]/[int] and [float]. *)
Class HLSLFloat (F : Type) := {
  fadd : F -> F -> F;
  fsub : F -> F -> F;
  fmul : F -> F -> F;
  fdiv : F -> F -> F;
  fneg : F -> F;
  fabs : F -> F;
  flt : F -> F -> bool;
  fle : F -> F -> bool;
  flit : Q -> F;
  of_uint : N -> F;
  of_int : Z -> F;
  to_uint : F -> N
}.

Declare Scope hlsl_scope.
Delimit Scope hlsl_scope with hlsl.
Infix "+" := fadd : hlsl_scope.
Infix "-" := fsub : hlsl_scope.
Infix "*" := fmul : hlsl_scope.
Infix "/" := fdiv : hlsl_scope.
Notation "- x" := (fneg x) : hlsl_scope.
Infix "<?" := flt : hlsl_scope.
Infix "<=?" := fle : hlsl_scope.

(** ** Vectors, matrices and the HLSL intrinsics used by the shader *)

Section Vectors.
Context {F : Type} `{HLSLFloat F}.
Local Open Scope hlsl_scope.

Record float2 := mk2 { x2 : F; y2 : F }.
Record float3 := mk3 { x3 : F; y3 : F; z3 : F }.
Record float4 := mk4 { x4 : F; y4 : F; z4 : F; w4 : F }.
(** Row-major, [M[i][j]] is column [j] of row [i]. *)
Record float4x4 := mk4x4 { row0 : float4; row1 : float4; row2 : float4; row3 : float4 }.

Definition xy3 (v : float3) : float2 := mk2 (x3 v) (y3 v).
Definition xy4 (v : float4) : float2 := mk2 (x4 v) (y4 v).
Definition zw4 (v : float4) : float2 := mk2 (z4 v) (w4 v).
Definition wz4 (v : float4) : float2 := mk2 (w4 v) (z4 v).
Definition xyz4 (v : float4) : float3 := mk3 (x4 v) (y4 v) (z4 v).

Definition add2 (a b : float2) : float2 := mk2 (x2 a + x2 b) (y2 a + y2 b).
Definition sub2 (a b : float2) : float2 := mk2 (x2 a - x2 b) (y2 a - y2 b).
Definition mul2 (a b : float2) : float2 := mk2 (x2 a * x2 b) (y2 a * y2 b).
Definition div2 (a b : float2) : float2 := mk2 (x2 a / x2 b) (y2 a / y2 b).
Definition adds2 (a : float2) (s : F) : float2 := mk2 (x2 a + s) (y2 a + s).
Definition subs2 (a : float2) (s : F) : float2 := mk2 (x2 a - s) (y2 a - s).
Definition muls2 (a : float2) (s : F) : float2 := mk2 (x2 a * s) (y2 a * s).

Definition add3 (a b : float3) : float3 := mk3 (x3 a + x3 b) (y3 a + y3 b) (z3 a + z3 b).
Definition sub3 (a b : float3) : float3 := mk3 (x3 a - x3 b) (y3 a - y3 b) (z3 a - z3 b).
Definition neg3 (a : float3) : float3 := mk3 (- x3 a) (- y3 a) (- z3 a).
Definition muls3 (a : float3) (s : F) : float3 := mk3 (x3 a * s) (y3 a * s) (z3 a * s).
Definition divs3 (a : float3) (s : F) : float3 := mk3 (x3 a / s) (y3 a / s) (z3 a / s).

Definition add4 (a b : float4) : float4 :=
    mk4 (x4 a + x4 b) (y4 a + y4 b) (z4 a + z4 b) (w4 a + w4 b).

(** [dot(a, b)] on [float3]. *)
Definition dot (a b : float3) : F := x3 a * x3 b + y3 a * y3 b + z3 a * z3 b.

(** One component of [mul(v, M)]: the row vector [v] times a column. *)
Definition mulcol (v : float4) (M : float4x4) (col : float4 -> F) : F :=
    x4 v * col (row0 M) + y4 v * col (row1 M) + z4 v * col (row2 M) + w4 v * col (row3 M).

(** [mul(v, M)] with a vector first argument: [v] is a row vector. *)
Definition mul (v : float4) (M : float4x4) : float4 :=
    mk4 (mulcol v M x4) (mulcol v M y4) (mulcol v M z4) (mulcol v M w4).

(** [all(0.0 < v && v < 1.0)] on a [float2]. *)
Definition inside01 (v : float2) : bool :=
    ((flit 0 <? x2 v) && (x2 v <? flit 1)) && ((flit 0 <? y2 v) && (y2 v <? flit 1)).
End Vectors.

Arguments float2 F : clear implicits.
Arguments float3 F : clear implicits.
Arguments float4 F : clear implicits.
Arguments float4x4 F : clear implicits.

Record uint2 := mku2 { ux : N; uy : N }.
Record uint3 := mku3 { ux3 : N; uy3 : N; uz3 : N }.
Definition uxy (v : uint3) : uint2 := mku2 (ux3 v) (uy3 v).

#[global] Instance uint2_eq_dec : EqDecision uint2.
Proof. solve_decision. Defined.

#[global] Instance uint2_countable : Countable uint2.
Proof.
  refine (inj_countable' (fun p => (ux p, uy p)) (fun q => mku2 q.1 q.2) _).
  intros []; reflexivity.
Defined.

(** ** What the engine supplies to the shader *)

(** The fields of the [View] uniform buffer that [Main_CS] reads. *)
Record ViewUniform (F : Type) := mkView {
  ViewRectMin : float4 F;
  BufferSizeAndInvSize : float4 F;
  ScreenPositionScaleBias : float4 F;
  ScreenToTranslatedWorld : float4x4 F;
  TranslatedWorldToClip : float4x4 F;
  ViewToClip : float4x4 F;
  StateFrameIndexMod8 : N
}.
Arguments ViewRectMin {F} _.
Arguments BufferSizeAndInvSize {F} _.
Arguments ScreenPositionScaleBias {F} _.
Arguments ScreenToTranslatedWorld {F} _.
Arguments TranslatedWorldToClip {F} _.
Arguments ViewToClip {F} _.
Arguments StateFrameIndexMod8 {F} _.

(** The two fields of [FGBufferData] that [Main_CS] reads. *)
Record FGBufferData (F : Type) := mkGBuffer {
  WorldNormal : float3 F;
  Depth : F
}.
Arguments WorldNormal {F} _.
Arguments Depth {F} _.

(** Everything bound to one dispatch.  The engine's shader library
    ([SceneTextureParameters.ush] and what it includes) is not part of
    the sources at hand, so its functions are taken as they are: the
    G-buffer fetch by UV, the noise function, the field-of-view query
    and the depth conversion are fields of the environment. *)
Record ShaderEnv (F : Type) := mkEnv {
  View : ViewUniform F;
  LightPositionOrDirection : float4 F;
  GetGBufferDataFromSceneTextures : float2 F -> FGBufferData F;
  InterleavedGradientNoise : float2 F -> F -> F;
  GetTanHalfFieldOfView : float2 F;
  ConvertToDeviceZ : F -> F
}.
Arguments View {F} _.
Arguments LightPositionOrDirection {F} _.
Arguments GetGBufferDataFromSceneTextures {F} _ _.
Arguments InterleavedGradientNoise {F} _ _ _.
Arguments GetTanHalfFieldOfView {F} _.
Arguments ConvertToDeviceZ {F} _ _.

(** The two [RWTexture2D<float2>] resources as the shader sees them:
    for each, the stores issued so far, as a finite map from pixel
    coordinates to the two [float] channels of the last store there.
    The shader never reads either resource.  What the texture behind
    [RWShadowFactors] holds after these stores (its extent and its
    format are the host's choice) is [texture_of], below. *)
Record UAVs (F : Type) := mkUAVs {
  RWShadowFactors : gmap uint2 (float2 F);
  testFactors : gmap uint2 (float2 F)
}.
Arguments RWShadowFactors {F} _.
Arguments testFactors {F} _.
Arguments mkUAVs {F} _ _.

(** [RWShadowFactors[p] = v;] as the shader issues it: the coordinate
    and the two [float] values of the store. *)
Definition write_shadow {F} (p : uint2) (v : float2 F) (uav : UAVs F) : UAVs F :=
  mkUAVs (<[p := v]> (RWShadowFactors uav)) (testFactors uav).

(** [testFactors[p] = v;], likewise. *)
Definition write_test {F} (p : uint2) (v : float2 F) (uav : UAVs F) : UAVs F :=
  mkUAVs (RWShadowFactors uav) (<[p := v]> (testFactors uav)).

(** ** The compute shader [Main_CS] *)

Section Shader.
Context {F : Type} `{HLSLFloat F}.
Local Open Scope hlsl_scope.

(** [int NumSteps = 64;] *)
Definition NumSteps : Z := 64.
(** [float CompareTorelanceScale = 2.0;] *)
Definition CompareTorelanceScale : F := flit 2.
(** [#define THREADGROUP_SIZEX 8] *)
Definition THREADGROUP_SIZEX : N := 8.

(** A [uint2] used where a [float2] is expected. *)
Definition float2_of_uint2 (p : uint2) : float2 F := mk2 (of_uint (ux p)) (of_uint (uy p)).

(** [uint] subtraction: the difference modulo [2^32]. *)
Definition uint_sub (a : N) (b : Z) : N := Z.to_N ((Z.of_N a - b) mod 2 ^ 32).

(** [GroupThreadId.y * THREADGROUP_SIZEX + GroupThreadId.x]; computed and
    never used. *)
Definition ThreadIndex (GroupThreadId : uint3) : N :=
  ((uy3 GroupThreadId * THREADGROUP_SIZEX + ux3 GroupThreadId) mod 2 ^ 32)%N.

(** [(DispatchThreadId.xy + View.ViewRectMin.xy + .5f) * View.BufferSizeAndInvSize.zw] *)
Definition ScreenUV (env : ShaderEnv F) (DispatchThreadId : uint3) : float2 F :=
  mul2 (adds2 (add2 (float2_of_uint2 (uxy DispatchThreadId)) (xy4 (ViewRectMin (View env))))
              (flit 0.5))
       (zw4 (BufferSizeAndInvSize (View env))).

(** [(ScreenUV - View.ScreenPositionScaleBias.wz) / View.ScreenPositionScaleBias.xy] *)
Definition ScreenPosition (env : ShaderEnv F) (DispatchThreadId : uint3) : float2 F :=
  div2 (sub2 (ScreenUV env DispatchThreadId) (wz4 (ScreenPositionScaleBias (View env))))
       (xy4 (ScreenPositionScaleBias (View env))).

(** [FGBufferData GBuffer = GetGBufferDataFromSceneTextures(ScreenUV);] *)
Definition GBuffer (env : ShaderEnv F) (DispatchThreadId : uint3) : FGBufferData F :=
  GetGBufferDataFromSceneTextures env (ScreenUV env DispatchThreadId).

(** [const float3 N = GBuffer.WorldNormal;] *)
Definition N_ (env : ShaderEnv F) (DispatchThreadId : uint3) : float3 F :=
  WorldNormal (GBuffer env DispatchThreadId).

(** [const float SceneDepth = GBuffer.Depth;] *)
Definition SceneDepth (env : ShaderEnv F) (DispatchThreadId : uint3) : F :=
  Depth (GBuffer env DispatchThreadId).

(** [mul(float4(ScreenPosition * SceneDepth, SceneDepth, 1), View.ScreenToTranslatedWorld)] *)
Definition PositionTranslatedWorld (env : ShaderEnv F) (DispatchThreadId : uint3) : float4 F :=
  let sp := muls2 (ScreenPosition env DispatchThreadId) (SceneDepth env DispatchThreadId) in
  mul (mk4 (x2 sp) (y2 sp) (SceneDepth env DispatchThreadId) (flit 1))
      (ScreenToTranslatedWorld (View env)).

(** [mul(float4(0, 0, PositionTranslatedWorld.z, 1.0), View.TranslatedWorldToClip)] *)
Definition test (env : ShaderEnv F) (DispatchThreadId : uint3) : float4 F :=
  mul (mk4 (flit 0) (flit 0) (z4 (PositionTranslatedWorld env DispatchThreadId)) (flit 1))
      (TranslatedWorldToClip (View env)).

(** [InterleavedGradientNoise(DispatchThreadId.xy + 0.5f, View.StateFrameIndexMod8)] *)
Definition Dither (env : ShaderEnv F) (DispatchThreadId : uint3) : F :=
  InterleavedGradientNoise env
    (adds2 (float2_of_uint2 (uxy DispatchThreadId)) (flit 0.5))
    (of_uint (StateFrameIndexMod8 (View env))).

(** [const float3 LightDirection = -LightPositionOrDirection.xyz;] *)
Definition LightDirection (env : ShaderEnv F) : float3 F :=
  neg3 (xyz4 (LightPositionOrDirection env)).

(** [float NdotL = dot(N, LightDirection);] *)
Definition NdotL (env : ShaderEnv F) (DispatchThreadId : uint3) : F :=
  dot (N_ env DispatchThreadId) (LightDirection env).

(** [float contactShadowLength = 1.0;] *)
Definition contactShadowLength : F := flit 1.

(** [float2 TanViewFOV = GetTanHalfFieldOfView();] *)
Definition TanViewFOV (env : ShaderEnv F) : float2 F := GetTanHalfFieldOfView env.

(** [(TanViewFOV.y * SceneDepth)] *)
Definition contactShadowLengthScreenScale (env : ShaderEnv F) (DispatchThreadId : uint3) : F :=
  y2 (TanViewFOV env) * SceneDepth env DispatchThreadId.

(** [contactShadowLengthScreenScale * contactShadowLength] *)
Definition RayLength (env : ShaderEnv F) (DispatchThreadId : uint3) : F :=
  contactShadowLengthScreenScale env DispatchThreadId * contactShadowLength.

(** [mul(PositionTranslatedWorld, View.TranslatedWorldToClip)] *)
Definition startClip (env : ShaderEnv F) (DispatchThreadId : uint3) : float4 F :=
  mul (PositionTranslatedWorld env DispatchThreadId) (TranslatedWorldToClip (View env)).

(** [mul(float4(LightDirection * RayLength, 0), View.TranslatedWorldToClip)] *)
Definition dirClip (env : ShaderEnv F) (DispatchThreadId : uint3) : float4 F :=
  let d := muls3 (LightDirection env) (RayLength env DispatchThreadId) in
  mul (mk4 (x3 d) (y3 d) (z3 d) (flit 0)) (TranslatedWorldToClip (View env)).

(** [startClip + dirClip] *)
Definition endClip (env : ShaderEnv F) (DispatchThreadId : uint3) : float4 F :=
  add4 (startClip env DispatchThreadId) (dirClip env DispatchThreadId).

(** [startClip.xyz / startClip.w] *)
Definition startScreen (env : ShaderEnv F) (DispatchThreadId : uint3) : float3 F :=
  divs3 (xyz4 (startClip env DispatchThreadId)) (w4 (startClip env DispatchThreadId)).

(** [endClip.xyz / endClip.w] *)
Definition endScreen (env : ShaderEnv F) (DispatchThreadId : uint3) : float3 F :=
  divs3 (xyz4 (endClip env DispatchThreadId)) (w4 (endClip env DispatchThreadId)).

(** [endScreen - startScreen] *)
Definition stepScreen (env : ShaderEnv F) (DispatchThreadId : uint3) : float3 F :=
  sub3 (endScreen env DispatchThreadId) (startScreen env DispatchThreadId).

(** [float3(startScreen.xy * View.ScreenPositionScaleBias.xy
            + View.ScreenPositionScaleBias.wz, startScreen.z)] *)
Definition startUVZ (env : ShaderEnv F) (DispatchThreadId : uint3) : float3 F :=
  let uv := add2 (mul2 (xy3 (startScreen env DispatchThreadId))
                       (xy4 (ScreenPositionScaleBias (View env))))
                 (wz4 (ScreenPositionScaleBias (View env))) in
  mk3 (x2 uv) (y2 uv) (z3 (startScreen env DispatchThreadId)).

(** [float3(stepScreen.xy * View.ScreenPositionScaleBias.xy, stepScreen.z)] *)
Definition stepUVZ (env : ShaderEnv F) (DispatchThreadId : uint3) : float3 F :=
  let uv := mul2 (xy3 (stepScreen env DispatchThreadId))
                 (xy4 (ScreenPositionScaleBias (View env))) in
  mk3 (x2 uv) (y2 uv) (z3 (stepScreen env DispatchThreadId)).

(** [startClip + mul(float4(0, 0, RayLength, 0), View.ViewToClip)] *)
Definition depthClip (env : ShaderEnv F) (DispatchThreadId : uint3) : float4 F :=
  add4 (startClip env DispatchThreadId)
       (mul (mk4 (flit 0) (flit 0) (RayLength env DispatchThreadId) (flit 0))
            (ViewToClip (View env))).

(** [depthClip.xyz / depthClip.w] *)
Definition depthScreen (env : ShaderEnv F) (DispatchThreadId : uint3) : float3 F :=
  divs3 (xyz4 (depthClip env DispatchThreadId)) (w4 (depthClip env DispatchThreadId)).

(** [const float stepOffset = Dither - 0.5f;] *)
Definition stepOffset (env : ShaderEnv F) (DispatchThreadId : uint3) : F :=
  Dither env DispatchThreadId - flit 0.5.

(** [float step = 1.0 / NumSteps;] *)
Definition step : F := flit 1 / of_int NumSteps.

(** [float sampleTime = stepOffset * step + step;] the value on entry to
    the loop. *)
Definition sampleTime0 (env : ShaderEnv F) (DispatchThreadId : uint3) : F :=
  stepOffset env DispatchThreadId * step + step.

(** [abs(depthScreen.z - startScreen.z) * step * CompareTorelanceScale] *)
Definition CompareTolerance (env : ShaderEnv F) (DispatchThreadId : uint3) : F :=
  fabs (z3 (depthScreen env DispatchThreadId) - z3 (startScreen env DispatchThreadId))
  * step * CompareTorelanceScale.

(** *** One iteration of the march *)

(** [float3 sampleUVZ = startUVZ + stepUVZ * sampleTime;] *)
Definition sampleUVZ (env : ShaderEnv F) (DispatchThreadId : uint3) (sampleTime : F) : float3 F :=
  add3 (startUVZ env DispatchThreadId) (muls3 (stepUVZ env DispatchThreadId) sampleTime).

(** [GetGBufferDataFromSceneTextures(sampleUVZ.xy).Depth] *)
Definition sampleDepthWorld (env : ShaderEnv F) (DispatchThreadId : uint3) (sampleTime : F) : F :=
  Depth (GetGBufferDataFromSceneTextures env (xy3 (sampleUVZ env DispatchThreadId sampleTime))).

(** [float sampleDepth = ConvertToDeviceZ(sampleDepthWorld);] *)
Definition sampleDepth (env : ShaderEnv F) (DispatchThreadId : uint3) (sampleTime : F) : F :=
  ConvertToDeviceZ env (sampleDepthWorld env DispatchThreadId sampleTime).

(** [float depthDiff = sampleUVZ.z - sampleDepth;] *)
Definition depthDiff (env : ShaderEnv F) (DispatchThreadId : uint3) (sampleTime : F) : F :=
  z3 (sampleUVZ env DispatchThreadId sampleTime) - sampleDepth env DispatchThreadId sampleTime.

(** [abs(startZ - sampleDepth) < 1e-5] *)
Definition selfOcclusion_test (startZ sampleDepth : F) : bool :=
  fabs (startZ - sampleDepth) <? flit 1e-5.

(** [abs(depthDiff + CompareTolerance) < CompareTolerance && !selfOcclusion] *)
Definition Hit_test (depthDiff CompareTolerance : F) (selfOcclusion : bool) : bool :=
  (fabs (depthDiff + CompareTolerance) <? CompareTolerance) && negb selfOcclusion.

(** [bool selfOcclusion = abs(startUVZ.z - sampleDepth) < 1e-5;] *)
Definition selfOcclusion (env : ShaderEnv F) (DispatchThreadId : uint3) (sampleTime : F) : bool :=
  selfOcclusion_test (z3 (startUVZ env DispatchThreadId))
                     (sampleDepth env DispatchThreadId sampleTime).

(** [bool Hit = abs(depthDiff + CompareTolerance) < CompareTolerance && !selfOcclusion;] *)
Definition Hit (env : ShaderEnv F) (DispatchThreadId : uint3) (sampleTime : F) : bool :=
  Hit_test (depthDiff env DispatchThreadId sampleTime)
           (CompareTolerance env DispatchThreadId)
           (selfOcclusion env DispatchThreadId sampleTime).

(** [abs(DispatchThreadId.x - 233) < 0.01 && abs(DispatchThreadId.y - 250) < 0.01]:
    the differences are [uint] differences, compared as floats. *)
Definition debugPixel (DispatchThreadId : uint3) : bool :=
  (fabs (of_uint (uint_sub (ux3 DispatchThreadId) 233)) <? flit 0.01)
  && (fabs (of_uint (uint_sub (uy3 DispatchThreadId) 250)) <? flit 0.01).

(** [(sampleUVZ.xy * View.BufferSizeAndInvSize.xy) - 0.5 - View.ViewRectMin.xy] *)
Definition samplePixel (env : ShaderEnv F) (DispatchThreadId : uint3) (sampleTime : F) : float2 F :=
  sub2 (subs2 (mul2 (xy3 (sampleUVZ env DispatchThreadId sampleTime))
                    (xy4 (BufferSizeAndInvSize (View env))))
              (flit 0.5))
       (xy4 (ViewRectMin (View env))).

(** [uint2 samplePixelInt = uint2(samplePixel);] *)
Definition samplePixelInt (env : ShaderEnv F) (DispatchThreadId : uint3) (sampleTime : F) : uint2 :=
  mku2 (to_uint (x2 (samplePixel env DispatchThreadId sampleTime)))
       (to_uint (y2 (samplePixel env DispatchThreadId sampleTime))).

(** The block that records the sample path of pixel (233, 250) in
    [testFactors]. *)
Definition debug_block (env : ShaderEnv F) (DispatchThreadId : uint3) (sampleTime : F)
    (uav : UAVs F) : UAVs F :=
  if debugPixel DispatchThreadId then
    let uav1 := write_test (uxy DispatchThreadId) (mk2 (flit 1) (flit 0)) uav in
    if inside01 (xy3 (sampleUVZ env DispatchThreadId sampleTime)) then
      write_test (samplePixelInt env DispatchThreadId sampleTime) (mk2 (flit 1) (flit 0)) uav1
    else uav1
  else uav.

(** How one execution of the loop body ends: with [return], or by
    falling through to the next iteration with the updated
    [sampleTime]. *)
Inductive StepResult :=
  | Return (uav : UAVs F)
  | Next (sampleTime : F) (uav : UAVs F).

(** The body of [for (int i = 0; i < NumSteps; i++)]. *)
Definition march_body (env : ShaderEnv F) (DispatchThreadId : uint3) (sampleTime : F)
    (uav : UAVs F) : StepResult :=
  let uav1 := debug_block env DispatchThreadId sampleTime uav in
  if Hit env DispatchThreadId sampleTime
     && inside01 (xy3 (sampleUVZ env DispatchThreadId sampleTime))
  then Return (write_shadow (uxy DispatchThreadId)
                            (mk2 (flit 0) (SceneDepth env DispatchThreadId)) uav1)
  else Next (sampleTime + flit 1 / of_int NumSteps) uav1.

(** The loop, from the test of [i < NumSteps] on.  [fuel] bounds the
    number of times the loop test is evaluated; [None] means the fuel
    ran out.  The result carries the value of [i] at which the
    loop was left. *)
Fixpoint march (fuel : nat) (env : ShaderEnv F) (DispatchThreadId : uint3)
    (i : Z) (sampleTime : F) (uav : UAVs F) : option (Z * UAVs F) :=
  match fuel with
  | O => None
  | S fuel' =>
      if (i <? NumSteps)%Z then
        match march_body env DispatchThreadId sampleTime uav with
        | Return uav' => Some (i, uav')
        | Next sampleTime' uav' => march fuel' env DispatchThreadId (i + 1) sampleTime' uav'
        end
      else Some (i, uav)
  end.

(** [Main_CS]: the writes before the backface test, the early return,
    the writes before the loop, and the loop. *)
Definition Main_CS (fuel : nat) (env : ShaderEnv F)
    (GroupId DispatchThreadId GroupThreadId : uint3) (uav : UAVs F) : option (UAVs F) :=
  let px := uxy DispatchThreadId in
  let uav := write_shadow px (mk2 (z4 (test env DispatchThreadId))
                                  (w4 (test env DispatchThreadId))) uav in
  let uav := write_shadow px (mk2 (flit 0) (flit 1)) uav in
  if NdotL env DispatchThreadId <=? flit 0 then
    Some (write_shadow px (mk2 (flit 0) (SceneDepth env DispatchThreadId)) uav)
  else
    let uav := write_shadow px (mk2 (flit 1) (SceneDepth env DispatchThreadId)) uav in
    let uav := write_test px (mk2 (flit 0) (flit 0)) uav in
    snd <$> march fuel env DispatchThreadId 0 (sampleTime0 env DispatchThreadId) uav.

(** *** The march seen step by step *)

(** The value of [sampleTime] on entry to iteration [n], when no earlier
    iteration returned: the initial value advanced [n] times by
    [sampleTime += (1.0 / NumSteps)]. *)
Fixpoint sampleTime_at (env : ShaderEnv F) (DispatchThreadId : uint3) (n : nat) : F :=
  match n with
  | O => sampleTime0 env DispatchThreadId
  | S m => sampleTime_at env DispatchThreadId m + flit 1 / of_int NumSteps
  end.

(** The condition of [if (Hit && all(0.0 < sampleUVZ.xy && sampleUVZ.xy < 1.0))]
    at iteration [n]. *)
Definition stops_at (env : ShaderEnv F) (DispatchThreadId : uint3) (n : nat) : bool :=
  Hit env DispatchThreadId (sampleTime_at env DispatchThreadId n)
  && inside01 (xy3 (sampleUVZ env DispatchThreadId (sampleTime_at env DispatchThreadId n))).

(** The textures as they are on entry to the loop. *)
Definition before_loop (env : ShaderEnv F) (DispatchThreadId : uint3) (uav : UAVs F) : UAVs F :=
  let px := uxy DispatchThreadId in
  write_test px (mk2 (flit 0) (flit 0))
    (write_shadow px (mk2 (flit 1) (SceneDepth env DispatchThreadId))
      (write_shadow px (mk2 (flit 0) (flit 1))
        (write_shadow px (mk2 (z4 (test env DispatchThreadId))
                              (w4 (test env DispatchThreadId))) uav))).

(** The two values [Main_CS] can leave in a pixel's slot. *)
Definition shadowed_value (env : ShaderEnv F) (DispatchThreadId : uint3) : float2 F :=
  mk2 (flit 0) (SceneDepth env DispatchThreadId).
Definition unshadowed_value (env : ShaderEnv F) (DispatchThreadId : uint3) : float2 F :=
  mk2 (flit 1) (SceneDepth env DispatchThreadId).

(** Whether some iteration of the loop meets its return condition. *)
Definition some_step_stops (env : ShaderEnv F) (DispatchThreadId : uint3) : bool :=
  existsb (stops_at env DispatchThreadId) (seq 0 (Z.to_nat NumSteps)).

(** The value [Main_CS] leaves in the pixel's slot of [RWShadowFactors]. *)
Definition final_value (env : ShaderEnv F) (DispatchThreadId : uint3) : float2 F :=
  if (NdotL env DispatchThreadId <=? flit 0) || some_step_stops env DispatchThreadId
  then shadowed_value env DispatchThreadId
  else unshadowed_value env DispatchThreadId.

(** Fuel that covers the [NumSteps] iterations and the last loop test. *)
Definition enough (k : nat) : nat := (S (Z.to_nat NumSteps) + k)%nat.

(** The same dispatch over another G-buffer. *)
Definition with_GBuffer (env : ShaderEnv F) (g : float2 F -> FGBufferData F) : ShaderEnv F :=
  mkEnv F (View env) (LightPositionOrDirection env) g
        (InterleavedGradientNoise env) (GetTanHalfFieldOfView env) (ConvertToDeviceZ env).

(** The same dispatch with another fourth component of
    [LightPositionOrDirection]. *)
Definition with_light_w (env : ShaderEnv F) (w : F) : ShaderEnv F :=
  mkEnv F (View env)
        (mk4 (x4 (LightPositionOrDirection env)) (y4 (LightPositionOrDirection env))
             (z4 (LightPositionOrDirection env)) w)
        (GetGBufferDataFromSceneTextures env)
        (InterleavedGradientNoise env) (GetTanHalfFieldOfView env) (ConvertToDeviceZ env).

(** The hit test as the specification words it: the signed difference
    lies within the tolerance band around zero, [abs(depthDiff) <
    CompareTolerance], and the sample is not a self-intersection. *)
Definition Hit_symmetric (depthDiff CompareTolerance : F) (selfOcclusion : bool) : bool :=
  (fabs depthDiff <? CompareTolerance) && negb selfOcclusion.

End Shader.

Arguments StepResult F : clear implicits.

(** ** IEEE binary32, the shader's [float] *)

Module Binary32.

Definition prec : Z := 24.
Definition emax : Z := 128.

(** Conversion of an integer, rounded to nearest even. *)
Definition of_Z (n : Z) : spec_float := binary_normalize prec emax n 0 false.

(** A literal written as a fraction of two integers. *)
Definition of_Q (q : Q) : spec_float :=
  SFdiv prec emax (of_Z (Qnum q)) (of_Z (Zpos (Qden q))).

(** Conversion to [uint]: truncation toward zero, negative values and
    NaN to 0, values above the range to [2^32 - 1]. *)
Definition to_N (x : spec_float) : N :=
  match x with
  | S754_finite false m e =>
      let v := if (0 <=? e)%Z then Zpos m * 2 ^ e else Zpos m / 2 ^ (- e) in
      N.min (Z.to_N v) (2 ^ 32 - 1)
  | S754_infinity false => (2 ^ 32 - 1)%N
  | _ => 0%N
  end.

(** Zeros and finite numbers, as opposed to infinities and NaN. *)
Definition is_finite (x : spec_float) : bool :=
  match x with
  | S754_zero _ | S754_finite _ _ _ => true
  | _ => false
  end.

#[global] Instance binary32_float : HLSLFloat spec_float := {
  fadd := SFadd prec emax;
  fsub := SFsub prec emax;
  fmul := SFmul prec emax;
  fdiv := SFdiv prec emax;
  fneg := SFopp;
  fabs := SFabs;
  flt := SFltb;
  fle := SFleb;
  flit := of_Q;
  of_uint := fun n => of_Z (Z.of_N n);
  of_int := of_Z;
  to_uint := to_N
}.

End Binary32.

(** ** Exact rational arithmetic *)

Module Exact.

Definition Qltb (a b : Q) : bool := match (a ?= b)%Q with Lt => true | _ => false end.

Definition to_N (q : Q) : N :=
  N.min (Z.to_N (Qnum q ÷ Zpos (Qden q))) (2 ^ 32 - 1).

#[global] Instance exact_float : HLSLFloat Q := {
  fadd := Qplus;
  fsub := Qminus;
  fmul := Qmult;
  fdiv := Qdiv;
  fneg := Qopp;
  fabs := Qabs;
  flt := Qltb;
  fle := Qle_bool;
  flit := fun q => q;
  of_uint := fun n => inject_Z (Z.of_N n);
  of_int := inject_Z;
  to_uint := to_N
}.

End Exact.

(** ** The host side: [FSceneRenderer::RenderScreenSpaceShadows] *)

(** [int32] and [uint32] values are integers with the wrap-around
    written out. *)
Definition to_int32 (z : Z) : Z := (z + 2 ^ 31) mod 2 ^ 32 - 2 ^ 31.
Definition to_uint32 (z : Z) : Z := z mod 2 ^ 32.

(** Modelled from the spec: [FMath::DivideAndRoundUp] is declared in the
    engine's math library, which is not among the sources; it is the
    division "by 8 (rounding up)" of the group counts, computed on
    [int32] as [(Dividend + Divisor - 1) / Divisor] with C++'s truncating
    division. *)
Definition DivideAndRoundUp (Dividend Divisor : Z) : Z :=
  to_int32 (to_int32 (Dividend + Divisor - 1) ÷ Divisor).

(** Modelled from the spec: [FIntRect] is declared in the engine's core
    library, which is not among the sources; a rectangle is its two
    corners, and its width and height are the differences of their
    coordinates. *)
Record FIntRect := mkRect { MinX : Z; MinY : Z; MaxX : Z; MaxY : Z }.
Definition Width (r : FIntRect) : Z := to_int32 (MaxX r - MinX r).
Definition Height (r : FIntRect) : Z := to_int32 (MaxY r - MinY r).

Inductive ELightComponentType :=
  | LightType_Directional
  | LightType_Point
  | LightType_Spot
  | LightType_Rect.

Definition is_directional (t : ELightComponentType) : bool :=
  match t with LightType_Directional => true | _ => false end.

(** What the function reads of a light's proxy. *)
Record FLightSceneProxy (F : Type) := mkProxy {
  GetDirection : float3 F;
  GetPosition : float3 F;
  GetLightType : ELightComponentType
}.
Arguments GetDirection {F} _.
Arguments GetPosition {F} _.
Arguments GetLightType {F} _.

(** What the function reads of a projected shadow. *)
Record FProjectedShadowInfo (F : Type) := mkShadowInfo {
  bRayTracedDistanceField : bool;
  bAllocated : bool;
  Proxy : FLightSceneProxy F
}.
Arguments bRayTracedDistanceField {F} _.
Arguments bAllocated {F} _.
Arguments Proxy {F} _.

(** What the function reads of a view. *)
Record FViewInfo (F : Type) := mkViewInfo {
  ViewRect : FIntRect;
  ViewUniformBuffer : ViewUniform F
}.
Arguments ViewRect {F} _.
Arguments ViewUniformBuffer {F} _.

(** A compute pass handed to [FComputeShaderUtils::AddPass]: the
    parameters bound to the shader, the extent of the two textures it
    writes, and the group count. *)
Record ComputePass (F : Type) := mkPass {
  pass_View : ViewUniform F;
  pass_LightPositionOrDirection : float4 F;
  pass_Extent : Z * Z;
  pass_GroupCount : Z * Z * Z
}.
Arguments pass_View {F} _.
Arguments pass_LightPositionOrDirection {F} _.
Arguments pass_Extent {F} _.
Arguments pass_GroupCount {F} _.
Arguments mkPass {F} _ _ _ _.

Section Host.
Context {F : Type} `{HLSLFloat F}.

(** [FVector4(V, W)] *)
Definition FVector4 (V : float3 F) (W : F) : float4 F := mk4 (x3 V) (y3 V) (z3 V) W.

(** [bIsDirectional ? FVector4(LightDirection, 0) : FVector4(LightPosition, 1)] *)
Definition host_LightPositionOrDirection (ProjectedShadowInfo : FProjectedShadowInfo F)
    : float4 F :=
  let LightDirection := GetDirection (Proxy ProjectedShadowInfo) in
  let LightPosition := GetPosition (Proxy ProjectedShadowInfo) in
  let bIsDirectional := is_directional (GetLightType (Proxy ProjectedShadowInfo)) in
  if bIsDirectional then FVector4 LightDirection (flit 0) else FVector4 LightPosition (flit 1).

(** [FIntRect ShadowsTextureViewRect(0, 0, ScissorRect.Width(), ScissorRect.Height());]
    with [ScissorRect = View.ViewRect]. *)
Definition ShadowsTextureViewRect (View : FViewInfo F) : FIntRect :=
  mkRect 0 0 (Width (ViewRect View)) (Height (ViewRect View)).

(** [uint32 GroupSizeX = FMath::DivideAndRoundUp(ShadowsTextureViewRect.Width(), 8);] *)
Definition GroupSizeX (View : FViewInfo F) : Z :=
  to_uint32 (DivideAndRoundUp (Width (ShadowsTextureViewRect View)) 8).

(** [uint32 GroupSizeY = FMath::DivideAndRoundUp(ShadowsTextureViewRect.Height(), 8);] *)
Definition GroupSizeY (View : FViewInfo F) : Z :=
  to_uint32 (DivideAndRoundUp (Height (ShadowsTextureViewRect View)) 8).

(** How the body of the loop over the shadows ends. *)
Inductive Flow :=
  | ReturnFalse
  | Continue.

(** The body of the loop over [NormalShadows], for one view: the passes
    added (and executed) so far are threaded through. *)
Definition shadow_body (View : FViewInfo F) (ProjectedShadowInfo : FProjectedShadowInfo F)
    (passes : list (ComputePass F)) : Flow * list (ComputePass F) :=
  if bAllocated ProjectedShadowInfo then
    let ScissorRect := ViewRect View in
    if (GroupSizeX View =? 0) || (GroupSizeY View =? 0) then (ReturnFalse, passes)
    else
      (Continue,
       passes ++ [mkPass (ViewUniformBuffer View)
                         (host_LightPositionOrDirection ProjectedShadowInfo)
                         (Width ScissorRect, Height ScissorRect)
                         (to_int32 (GroupSizeX View), to_int32 (GroupSizeY View), 1)])
  else (Continue, passes).

(** The pass that [shadow_body] adds for a view and a shadow. *)
Definition the_pass (View : FViewInfo F) (ProjectedShadowInfo : FProjectedShadowInfo F)
    : ComputePass F :=
  mkPass (ViewUniformBuffer View)
         (host_LightPositionOrDirection ProjectedShadowInfo)
         (Width (ViewRect View), Height (ViewRect View))
         (to_int32 (GroupSizeX View), to_int32 (GroupSizeY View), 1).

(** The shader environment of a pass: its parameters, and the scene
    textures and engine functions in scope when it runs. *)
Definition bind_pass (p : ComputePass F) (g : float2 F -> FGBufferData F)
    (noise : float2 F -> F -> F) (fov : float2 F) (deviceZ : F -> F) : ShaderEnv F :=
  mkEnv F (pass_View p) (pass_LightPositionOrDirection p) g noise fov deviceZ.

(** [for (ShadowIndex = 0; ShadowIndex < NormalShadows.Num(); ShadowIndex++)] *)
Fixpoint shadow_loop (View : FViewInfo F) (NormalShadows : list (FProjectedShadowInfo F))
    (passes : list (ComputePass F)) : Flow * list (ComputePass F) :=
  match NormalShadows with
  | [] => (Continue, passes)
  | ProjectedShadowInfo :: rest =>
      match shadow_body View ProjectedShadowInfo passes with
      | (ReturnFalse, passes') => (ReturnFalse, passes')
      | (Continue, passes') => shadow_loop View rest passes'
      end
  end.

(** [for (ViewIndex = 0; ViewIndex < Views.Num(); ViewIndex++)] *)
Fixpoint view_loop (Views : list (FViewInfo F)) (NormalShadows : list (FProjectedShadowInfo F))
    (passes : list (ComputePass F)) : Flow * list (ComputePass F) :=
  match Views with
  | [] => (Continue, passes)
  | View :: rest =>
      match shadow_loop View NormalShadows passes with
      | (ReturnFalse, passes') => (ReturnFalse, passes')
      | (Continue, passes') => view_loop rest NormalShadows passes'
      end
  end.

(** The shadows that are not ray-traced distance-field shadows, in order. *)
Definition NormalShadows_of (ShadowsToProject : list (FProjectedShadowInfo F))
    : list (FProjectedShadowInfo F) :=
  List.filter (fun s => negb (bRayTracedDistanceField s)) ShadowsToProject.

(** [RenderScreenSpaceShadows]: the value returned and the compute
    passes added to the render graph, in order. *)
Definition RenderScreenSpaceShadows (Views : list (FViewInfo F))
    (ShadowsToProject : list (FProjectedShadowInfo F)) : bool * list (ComputePass F) :=
  let NormalShadows := NormalShadows_of ShadowsToProject in
  if (0 <? Z.of_nat (length NormalShadows)) then
    match view_loop Views NormalShadows [] with
    | (ReturnFalse, passes) => (false, passes)
    | (Continue, passes) => (true, passes)
    end
  else (true, []).

End Host.

(** ** The textures behind the two UAVs *)

(** [PF_G16R16F], the format the host gives both textures: two
    channels, each a 16-bit float. *)
Inductive EPixelFormat :=
  | PF_G16R16F.

(** What [FRDGTextureDesc::Create2DDesc] is given, as far as stores to
    the texture are concerned: the extent and the format. *)
Record FRDGTextureDesc := mkTextureDesc {
  Extent : Z * Z;
  Format : EPixelFormat
}.

Section Textures.
Context {F : Type} `{HLSLFloat F}.

(** [FRDGTextureDesc::Create2DDesc(FIntPoint(ScissorRect.Width(), ScissorRect.Height()), PF_G16R16F, ...)]
    with [ScissorRect = View.ViewRect]: the description of
    [ScreenSpaceShadowTexture], and of the texture behind [testFactors]. *)
Definition ScreenSpaceShadowTextureDesc (View : FViewInfo F) : FRDGTextureDesc :=
  let ScissorRect := ViewRect View in
  mkTextureDesc (Width ScissorRect, Height ScissorRect) PF_G16R16F.

(** Whether a coordinate names a texel of the texture. *)
Definition in_extent (Desc : FRDGTextureDesc) (p : uint2) : bool :=
  (Z.of_N (ux p) <? fst (Extent Desc)) && (Z.of_N (uy p) <? snd (Extent Desc)).

(** The conversion of a stored channel to the texture's format is done
    by the graphics hardware and is taken as it is: [convert fmt x] is
    the value read back after [x] was stored in format [fmt]. *)
Variable convert : EPixelFormat -> F -> F.

Definition to_format (Desc : FRDGTextureDesc) (v : float2 F) : float2 F :=
  mk2 (convert (Format Desc) (x2 v)) (convert (Format Desc) (y2 v)).

(** What a store [Texture[p] = v] does to the texture: nothing outside
    the extent; inside, the texel takes the value in the texture's
    format. *)
Definition store (Desc : FRDGTextureDesc) (p : uint2) (v : float2 F)
    (texture : gmap uint2 (float2 F)) : gmap uint2 (float2 F) :=
  if in_extent Desc p then <[p := to_format Desc v]> texture else texture.

(** The texels of the texture behind a UAV, from the stores issued to
    the UAV (the last one at each coordinate): a texel that was never
    stored to has no defined content, and there is no texel outside the
    extent. *)
Definition texture_of (Desc : FRDGTextureDesc) (stores : gmap uint2 (float2 F))
    : gmap uint2 (float2 F) :=
  map_imap (fun p v => if in_extent Desc p then Some (to_format Desc v) else None) stores.

End Textures.

(** ** IEEE binary16, the channels of [PF_G16R16F] *)

Module Binary16.

Definition prec : Z := 11.
Definition emax : Z := 16.

(** Whether a binary32 value is also a binary16 value: it is in range,
    and a multiple of the unit in the last place that binary16 has
    at its magnitude. *)
Definition is_binary16 (x : spec_float) : bool :=
  match x with
  | S754_finite _ m e =>
      let e16 := fexp prec emax (Zpos (digits2_pos m) + e) in
      (e16 <=? emax - prec) && ((e16 <=? e) || (Zpos m mod 2 ^ (e16 - e) =? 0))
  | _ => true
  end.

(** Conversion by rounding to the nearest binary16 value, ties to even;
    the result is given as a binary32 value again. *)
Definition round_to_nearest (x : spec_float) : spec_float :=
  match x with
  | S754_finite s m e =>
      match binary_round prec emax s m e with
      | S754_finite s' m' e' => binary_round Binary32.prec Binary32.emax s' m' e'
      | y => y
      end
  | _ => x
  end.

Definition convert_nearest (fmt : EPixelFormat) (x : spec_float) : spec_float :=
  match fmt with
  | PF_G16R16F => round_to_nearest x
  end.

End Binary16.

(** ** Concrete scenes, in binary32 *)

Module Scenes.
Import Binary32.

Definition f (q : Q) : spec_float := flit q.

Definition identity : float4x4 spec_float :=
  mk4x4 (mk4 (f 1) (f 0) (f 0) (f 0)) (mk4 (f 0) (f 1) (f 0) (f 0))
        (mk4 (f 0) (f 0) (f 1) (f 0)) (mk4 (f 0) (f 0) (f 0) (f 1)).

(** A 512 x 512 buffer whose view rectangle starts at the origin; screen
    position and world position coincide. *)
Definition view512 : ViewUniform spec_float :=
  mkView spec_float
    (mk4 (f 0) (f 0) (f 0) (f 0))
    (mk4 (f 512) (f 512) (f (1 # 512)) (f (1 # 512)))
    (mk4 (f 0.5) (f (-0.5)) (f 0.5) (f 0.5))
    identity identity identity 0.

(** A G-buffer with the same normal everywhere and depth 1, except
    depth [d] to the right of u = [u0]. *)
Definition wall (u0 d : Q) (uv : float2 spec_float) : FGBufferData spec_float :=
  mkGBuffer spec_float (mk3 (f 1) (f 0) (f 0))
            (if f u0 <? x2 uv then f d else f 1)%hlsl.

(** Light arriving along -x (so the march goes toward +x), constant
    dither 0.5, unit field of view, device depth equal to scene
    depth. *)
Definition scene (u0 d : Q) : ShaderEnv spec_float :=
  mkEnv spec_float view512 (mk4 (f (-1)) (f 0) (f 0) (f 0)) (wall u0 d)
        (fun _ _ => f 0.5) (mk2 (f 1) (f 1)) (fun z => z).

(** No occluder: depth 1 everywhere. *)
Definition flat : ShaderEnv spec_float := scene 0.46 1.
(** A surface within the tolerance band of the ray, right of u = 0.46. *)
Definition occluder : ShaderEnv spec_float := scene 0.46 1.03.
(** The same surface, but only beyond the right edge of the screen. *)
Definition offscreen : ShaderEnv spec_float := scene 1 1.03.
(** The G-buffer of [occluder] lit from the other side. *)
Definition backlit : ShaderEnv spec_float :=
  mkEnv spec_float view512 (mk4 (f 1) (f 0) (f 0) (f 0)) (wall 0.46 1.03)
        (fun _ _ => f 0.5) (mk2 (f 1) (f 1)) (fun z => z).

(** A surface slightly behind the ray, right of u = 0.46. *)
Definition behind : ShaderEnv spec_float := scene 0.46 0.99.

Definition no_group : uint3 := mku3 0 0 0.
Definition pixel (x y : N) : uint3 := mku3 x y 0.
Definition blank : UAVs spec_float := mkUAVs ∅ ∅.

(** One invocation with fuel for the whole loop; the group indices play
    no part. *)
Definition run (env : ShaderEnv spec_float) (DispatchThreadId : uint3)
    (uav : UAVs spec_float) : option (UAVs spec_float) :=
  Main_CS 65 env no_group DispatchThreadId no_group uav.

(** A 512 x 512 view, a view of no width, a point light and a
    directional light. *)
Definition view_full : FViewInfo spec_float :=
  mkViewInfo spec_float (mkRect 0 0 512 512) view512.
Definition view_empty : FViewInfo spec_float :=
  mkViewInfo spec_float (mkRect 100 0 100 512) view512.
Definition point_light : FProjectedShadowInfo spec_float :=
  mkShadowInfo spec_float false true
    (mkProxy spec_float (mk3 (f 0) (f 0) (f (-1))) (mk3 (f 3) (f 4) (f 5)) LightType_Point).
Definition sun_light : FProjectedShadowInfo spec_float :=
  mkShadowInfo spec_float false true
    (mkProxy spec_float (mk3 (f 0) (f 0) (f (-1))) (mk3 (f 3) (f 4) (f 5))
             LightType_Directional).

End Scenes.

(** ** The pixel shader [Main] *)

(** The first variant of the march: a pixel shader that walks the ray
    in translated world space, one fixed step at a time, and projects
    every position back to the screen. *)

Module PS.

Section PixelShader.
Context {F : Type} `{HLSLFloat F}.
Local Open Scope hlsl_scope.

(** What [Main] needs beyond the bindings it shares with [Main_CS]: one
    more field of [View], two more functions of the engine's shader
    library, and the [rcp] intrinsic, all taken as they are. *)
Record PixelEnv := mkPixelEnv {
  shared : ShaderEnv F;
  ViewSizeAndInvSize : float4 F;
  ViewportUVToScreenPos : float2 F -> float2 F;
  ConvertFromDeviceZ : F -> F;
  rcp : F -> F
}.

Definition muls4 (a : float4 F) (s : F) : float4 F :=
  mk4 (x4 a * s) (y4 a * s) (z4 a * s) (w4 a * s).

(** [any(v < 0.0) || any(v > 1.0)] on a [float2]. *)
Definition outside01 (v : float2 F) : bool :=
  ((x2 v <? flit 0) || (y2 v <? flit 0)) || ((flit 1 <? x2 v) || (flit 1 <? y2 v)).

(** [int NumSteps = 100;] *)
Definition NumSteps : Z := 100.
(** [float Thickness = 0.02;] *)
Definition Thickness : F := flit 0.02.
(** [float stepSize = 10;] *)
Definition stepSize : F := flit 10.

(** [SvPosition.xy * View.BufferSizeAndInvSize.zw] *)
Definition UV (env : PixelEnv) (SvPosition : float4 F) : float2 F :=
  mul2 (xy4 SvPosition) (zw4 (BufferSizeAndInvSize (View (shared env)))).

(** [FGBufferData GBuffer = GetGBufferDataFromSceneTextures(UV);] *)
Definition GBuffer (env : PixelEnv) (SvPosition : float4 F) : FGBufferData F :=
  GetGBufferDataFromSceneTextures (shared env) (UV env SvPosition).

(** [const float3 N = GBuffer.WorldNormal;] *)
Definition N_ (env : PixelEnv) (SvPosition : float4 F) : float3 F :=
  WorldNormal (GBuffer env SvPosition).

(** [const float SceneDepth = GBuffer.Depth;] *)
Definition SceneDepth (env : PixelEnv) (SvPosition : float4 F) : F :=
  Depth (GBuffer env SvPosition).

(** [ViewportUVToScreenPos((SvPosition.xy - View.ViewRectMin.xy) * View.ViewSizeAndInvSize.zw)] *)
Definition ScreenPos (env : PixelEnv) (SvPosition : float4 F) : float2 F :=
  ViewportUVToScreenPos env
    (mul2 (sub2 (xy4 SvPosition) (xy4 (ViewRectMin (View (shared env)))))
          (zw4 (ViewSizeAndInvSize env))).

(** [mul(float4(ScreenPos * SceneDepth, SceneDepth, 1), View.ScreenToTranslatedWorld)] *)
Definition PositionTranslatedWorld (env : PixelEnv) (SvPosition : float4 F) : float4 F :=
  let sp := muls2 (ScreenPos env SvPosition) (SceneDepth env SvPosition) in
  mul (mk4 (x2 sp) (y2 sp) (SceneDepth env SvPosition) (flit 1))
      (ScreenToTranslatedWorld (View (shared env))).

(** [const float3 LightDirection = -LightPositionOrDirection.xyz;] *)
Definition LightDirection (env : PixelEnv) : float3 F :=
  neg3 (xyz4 (LightPositionOrDirection (shared env))).

(** [float NdotL = dot(N, LightDirection);] *)
Definition NdotL (env : PixelEnv) (SvPosition : float4 F) : F :=
  dot (N_ env SvPosition) (LightDirection env).

(** [float4 rayStep = float4(LightDirection * stepSize, 0);] *)
Definition rayStep (env : PixelEnv) : float4 F :=
  let d := muls3 (LightDirection env) stepSize in
  mk4 (x3 d) (y3 d) (z3 d) (flit 0).

(** [PositionTranslatedWorld + float4(N, 0) * Thickness], the position the
    loop starts from. *)
Definition startPos (env : PixelEnv) (SvPosition : float4 F) : float4 F :=
  let n := N_ env SvPosition in
  add4 (PositionTranslatedWorld env SvPosition)
       (muls4 (mk4 (x3 n) (y3 n) (z3 n) (flit 0)) Thickness).

(** [mul(currentTranslateWorldPos, View.TranslatedWorldToClip)] *)
Definition currentClipPos (env : PixelEnv) (pos : float4 F) : float4 F :=
  mul pos (TranslatedWorldToClip (View (shared env))).

(** [ConvertFromDeviceZ(currentClipPos.z * rcp(currentClipPos.w))] *)
Definition currentSceneDepth (env : PixelEnv) (pos : float4 F) : F :=
  ConvertFromDeviceZ env
    (z4 (currentClipPos env pos) * rcp env (w4 (currentClipPos env pos))).

(** [(currentClipPos.xy * rcp(currentClipPos.w)) * float2(0.5,-0.5) + 0.5] *)
Definition currentUV (env : PixelEnv) (pos : float4 F) : float2 F :=
  adds2 (mul2 (muls2 (xy4 (currentClipPos env pos)) (rcp env (w4 (currentClipPos env pos))))
              (mk2 (flit 0.5) (flit (-0.5))))
        (flit 0.5).

(** [currentGBuffer.Depth] at [currentUV]. *)
Definition sampleSceneDepth (env : PixelEnv) (pos : float4 F) : F :=
  Depth (GetGBufferDataFromSceneTextures (shared env) (currentUV env pos)).

(** [float depthDiff = currentSceneDepth - sampleSceneDepth;] *)
Definition depthDiff (env : PixelEnv) (pos : float4 F) : F :=
  currentSceneDepth env pos - sampleSceneDepth env pos.

(** [depthDiff > 0.1 && depthDiff < 50] *)
Definition occluded (env : PixelEnv) (pos : float4 F) : bool :=
  (flit 0.1 <? depthDiff env pos) && (depthDiff env pos <? flit 50).

(** How one execution of the loop body ends: with [return] and the
    value of [OutColor], or with the advanced position. *)
Inductive StepResult :=
  | Return (OutColor : float4 F)
  | Next (currentTranslateWorldPos : float4 F).

(** The body of [for (int i = 0; i < NumSteps; i++)]; [pos] is
    [currentTranslateWorldPos] on entry. *)
Definition march_body (env : PixelEnv) (i : Z) (pos : float4 F) (OutColor : float4 F)
    : StepResult :=
  let pos := add4 pos (rayStep env) in
  if outside01 (currentUV env pos) then Return OutColor
  else if occluded env pos then
    let OutColor := mk4 (currentSceneDepth env pos) (sampleSceneDepth env pos)
                        (of_int i) (flit 0.5) in
    let OutColor := mk4 (flit 0) (flit 0) (flit 0) (flit 1) in
    Return OutColor
  else Next pos.

(** The loop, from the test of [i < NumSteps] on; [None] when the fuel
    runs out.  The result carries the value of [i] at which the loop was
    left. *)
Fixpoint march (fuel : nat) (env : PixelEnv) (i : Z) (pos : float4 F)
    (OutColor : float4 F) : option (Z * float4 F) :=
  match fuel with
  | O => None
  | S fuel' =>
      if (i <? NumSteps)%Z then
        match march_body env i pos OutColor with
        | Return OutColor' => Some (i, OutColor')
        | Next pos' => march fuel' env (i + 1) pos' OutColor
        end
      else Some (i, OutColor)
  end.

(** [Main]: [OutColor] is an [out] parameter; [OutColor0] stands for
    whatever it holds on entry. *)
Definition Main (fuel : nat) (env : PixelEnv) (SvPosition : float4 F)
    (OutColor0 : float4 F) : option (float4 F) :=
  if NdotL env SvPosition <=? flit 0 then Some (mk4 (flit 0) (flit 0) (flit 0) (flit 1))
  else
    let OutColor := mk4 (flit 1) (flit 1) (flit 1) (flit 1) in
    snd <$> march fuel env 0 (startPos env SvPosition) OutColor.

(** *** The march seen step by step *)

(** [currentTranslateWorldPos] after its update in iteration [n], when
    no earlier iteration returned. *)
Fixpoint pos_at (env : PixelEnv) (SvPosition : float4 F) (n : nat) : float4 F :=
  match n with
  | O => add4 (startPos env SvPosition) (rayStep env)
  | S m => add4 (pos_at env SvPosition m) (rayStep env)
  end.

(** [currentTranslateWorldPos] on entry to iteration [n]. *)
Definition entry_pos (env : PixelEnv) (SvPosition : float4 F) (n : nat) : float4 F :=
  match n with
  | O => startPos env SvPosition
  | S m => pos_at env SvPosition m
  end.

(** Iteration [n] takes its sample on the screen. *)
Definition onscreen_at (env : PixelEnv) (SvPosition : float4 F) (n : nat) : bool :=
  negb (outside01 (currentUV env (pos_at env SvPosition n))).

(** The depth test of iteration [n] succeeds. *)
Definition occluded_at (env : PixelEnv) (SvPosition : float4 F) (n : nat) : bool :=
  occluded env (pos_at env SvPosition n).

(** Some iteration's depth test succeeds, with every sample up to and
    including it on the screen. *)
Definition reaches_occluder (env : PixelEnv) (SvPosition : float4 F) : bool :=
  existsb (fun n => occluded_at env SvPosition n
                    && forallb (onscreen_at env SvPosition) (seq 0 (S n)))
          (seq 0 (Z.to_nat NumSteps)).

Definition black : float4 F := mk4 (flit 0) (flit 0) (flit 0) (flit 1).
Definition white : float4 F := mk4 (flit 1) (flit 1) (flit 1) (flit 1).

(** Fuel that covers the [NumSteps] iterations and the last loop test. *)
Definition enough (k : nat) : nat := (S (Z.to_nat NumSteps) + k)%nat.

(** The centre of the pixel of a compute thread, as the rasterizer
    gives it to the pixel shader in [SvPosition.xy]. *)
Definition SvPosition_of (env : PixelEnv) (DispatchThreadId : uint3) (z w : F) : float4 F :=
  let c := adds2 (add2 (float2_of_uint2 (uxy DispatchThreadId))
                       (xy4 (ViewRectMin (View (shared env)))))
                 (flit 0.5) in
  mk4 (x2 c) (y2 c) z w.

End PixelShader.

Arguments PixelEnv F : clear implicits.
Arguments StepResult F : clear implicits.

End PS.

(** ** More of the host side *)

(** *** [FSceneRenderer::CheckForProjectedShadows] *)

Module Visibility.

(** The result of [GetLightOcclusionType], a function of the engine. *)
Inductive FLightOcclusionType :=
  | Shadowmap
  | Raytraced.

(** What the function reads of a view: the bit
    [VisibleLightInfos[Id].ProjectedShadowVisibilityMap[ShadowIndex]],
    by light id and shadow index. *)
Definition FViewVisibility : Type := nat -> nat -> bool.

(** What the function reads of a projected shadow: [DependentView], a
    null pointer ([None]) or a pointer to a view.  A pointer to the view
    [Views[i]] is [Some i]; a pointer to any other view is [Some i] with
    [i] beyond the end of [Views]. *)
Definition FDependentView : Type := option nat.

(** [if (DependentView && DependentView != &View) continue;] *)
Definition skips_view (DependentView : FDependentView) (ViewIndex : nat) : bool :=
  match DependentView with
  | Some d => negb (d =? ViewIndex)%nat
  | None => false
  end.

(** [for (ViewIndex = 0; ViewIndex < Views.Num(); ViewIndex++)], from
    [ViewIndex] on, with [bShadowIsVisible] as it is so far. *)
Fixpoint views_loop (Id ShadowIndex : nat) (DependentView : FDependentView)
    (Views : list FViewVisibility) (ViewIndex : nat) (bShadowIsVisible : bool) : bool :=
  match Views with
  | [] => bShadowIsVisible
  | View :: rest =>
      if skips_view DependentView ViewIndex then
        views_loop Id ShadowIndex DependentView rest (S ViewIndex) bShadowIsVisible
      else
        views_loop Id ShadowIndex DependentView rest (S ViewIndex)
                   (bShadowIsVisible || View Id ShadowIndex)
  end.

(** [for (ShadowIndex = 0; ShadowIndex < AllProjectedShadows.Num(); ShadowIndex++)],
    from [ShadowIndex] on. *)
Fixpoint shadows_loop (Id : nat) (AllProjectedShadows : list FDependentView)
    (ShadowIndex : nat) (Views : list FViewVisibility) : bool :=
  match AllProjectedShadows with
  | [] => false
  | DependentView :: rest =>
      if views_loop Id ShadowIndex DependentView Views 0 false then true
      else shadows_loop Id rest (S ShadowIndex) Views
  end.

Definition CheckForProjectedShadows (LightOcclusionType : FLightOcclusionType) (Id : nat)
    (AllProjectedShadows : list FDependentView) (Views : list FViewVisibility) : bool :=
  match LightOcclusionType with
  | Raytraced => true
  | Shadowmap => shadows_loop Id AllProjectedShadows 0 Views
  end.

End Visibility.

(** *** [FProjectedShadowInfo::SetBlendStateForProjection] *)

Module Blend.

Inductive EColorWriteMask :=
  | CW_RED | CW_GREEN | CW_BLUE | CW_ALPHA | CW_RGB | CW_RGBA | CW_RG | CW_BA.

Inductive EBlendOperation := BO_Add | BO_Min.

Inductive EBlendFactor :=
  | BF_Zero | BF_One | BF_SourceColor | BF_SourceAlpha | BF_InverseSourceAlpha.

(** A [TStaticBlendState<...>::GetRHI()], by the template arguments that
    are written out: none, the colour write mask and the colour blend,
    or those and the alpha blend. *)
Inductive FBlendState :=
  | TStaticBlendState0
  | TStaticBlendState4 (Mask : EColorWriteMask)
      (ColorOp : EBlendOperation) (ColorSrc ColorDest : EBlendFactor)
  | TStaticBlendState7 (Mask : EColorWriteMask)
      (ColorOp : EBlendOperation) (ColorSrc ColorDest : EBlendFactor)
      (AlphaOp : EBlendOperation) (AlphaSrc AlphaDest : EBlendFactor).

Inductive Channel := R | G | B | A.

(** The channels a colour write mask names. *)
Definition channels (m : EColorWriteMask) : list Channel :=
  match m with
  | CW_RED => [R] | CW_GREEN => [G] | CW_BLUE => [B] | CW_ALPHA => [A]
  | CW_RGB => [R; G; B] | CW_RGBA => [R; G; B; A]
  | CW_RG => [R; G] | CW_BA => [B; A]
  end.

(** The channels a blend state writes, when its mask is written out. *)
Definition written (s : FBlendState) : option (list Channel) :=
  match s with
  | TStaticBlendState0 => None
  | TStaticBlendState4 m _ _ _ => Some (channels m)
  | TStaticBlendState7 m _ _ _ _ _ _ => Some (channels m)
  end.

(** The colour blend operation, when it is written out. *)
Definition color_op (s : FBlendState) : option EBlendOperation :=
  match s with
  | TStaticBlendState0 => None
  | TStaticBlendState4 _ op _ _ => Some op
  | TStaticBlendState7 _ op _ _ _ _ _ => Some op
  end.

(** The static function: the value it leaves in
    [GraphicsPSOInit.BlendState]; [None] is the null pointer that
    [checkf] rejects.  [bEncodedHDR] is
    [GetMobileHDRMode() == EMobileHDRMode::EnabledRGBE]. *)
Definition SetBlendStateForProjection (ShadowMapChannel : Z)
    (bIsWholeSceneDirectionalShadow bUseFadePlane bProjectingForForwardShading
     bMobileModulatedProjections bEncodedHDR : bool) : option FBlendState :=
  if bProjectingForForwardShading then
    if bUseFadePlane then
      if ShadowMapChannel =? 0 then
        Some (TStaticBlendState4 CW_RED BO_Add BF_SourceAlpha BF_InverseSourceAlpha)
      else if ShadowMapChannel =? 1 then
        Some (TStaticBlendState4 CW_GREEN BO_Add BF_SourceAlpha BF_InverseSourceAlpha)
      else if ShadowMapChannel =? 2 then
        Some (TStaticBlendState4 CW_BLUE BO_Add BF_SourceAlpha BF_InverseSourceAlpha)
      else if ShadowMapChannel =? 3 then
        Some (TStaticBlendState4 CW_ALPHA BO_Add BF_SourceAlpha BF_InverseSourceAlpha)
      else None
    else
      if ShadowMapChannel =? 0 then
        Some (TStaticBlendState7 CW_RED BO_Min BF_One BF_One BO_Min BF_One BF_One)
      else if ShadowMapChannel =? 1 then
        Some (TStaticBlendState7 CW_GREEN BO_Min BF_One BF_One BO_Min BF_One BF_One)
      else if ShadowMapChannel =? 2 then
        Some (TStaticBlendState7 CW_BLUE BO_Min BF_One BF_One BO_Min BF_One BF_One)
      else if ShadowMapChannel =? 3 then
        Some (TStaticBlendState7 CW_ALPHA BO_Min BF_One BF_One BO_Min BF_One BF_One)
      else None
  else
    if bIsWholeSceneDirectionalShadow then
      if bUseFadePlane then
        Some (TStaticBlendState4 CW_RG BO_Add BF_SourceAlpha BF_InverseSourceAlpha)
      else
        Some (TStaticBlendState4 CW_RG BO_Min BF_One BF_One)
    else
      if bMobileModulatedProjections then
        if bEncodedHDR then Some TStaticBlendState0
        else Some (TStaticBlendState7 CW_RGB BO_Add BF_Zero BF_SourceColor
                                      BO_Add BF_Zero BF_One)
      else
        Some (TStaticBlendState7 CW_BA BO_Min BF_One BF_One BO_Min BF_One BF_One).

(** The member function: the arguments it reads off the shadow. *)
Definition SetBlendStateForProjection_of {F : Type} `{HLSLFloat F}
    (DynamicShadowMapChannel : Z) (IsWholeSceneDirectionalShadow : bool)
    (FadePlaneLength : F) (bRayTracedDistanceField : bool)
    (bProjectingForForwardShading bMobileModulatedProjections bEncodedHDR : bool)
    : option FBlendState :=
  SetBlendStateForProjection DynamicShadowMapChannel IsWholeSceneDirectionalShadow
    (flt (flit 0) FadePlaneLength && negb bRayTracedDistanceField)
    bProjectingForForwardShading bMobileModulatedProjections bEncodedHDR.

(** The channel a stationary light's shadow-map channel index names. *)
Definition channel_of (ShadowMapChannel : Z) : option Channel :=
  if ShadowMapChannel =? 0 then Some R
  else if ShadowMapChannel =? 1 then Some G
  else if ShadowMapChannel =? 2 then Some B
  else if ShadowMapChannel =? 3 then Some A
  else None.

End Blend.

(** *** [RenderScreenSpaceShadows], all passes *)

Section AllPasses.
Context {F : Type} `{HLSLFloat F}.

(** The passes of a run that no [return false] cuts short: for every
    view in order, one for every allocated shadow that is not a
    ray-traced distance-field shadow, in order. *)
Definition all_passes (Views : list (FViewInfo F))
    (ShadowsToProject : list (FProjectedShadowInfo F)) : list (ComputePass F) :=
  flat_map (fun View => map (the_pass View)
                            (List.filter bAllocated (NormalShadows_of ShadowsToProject)))
           Views.

(** A view none of whose group counts is zero. *)
Definition dispatchable (View : FViewInfo F) : bool :=
  negb ((GroupSizeX View =? 0) || (GroupSizeY View =? 0)).

End AllPasses.

(** *** [GetShadowQuality] *)

(** Modelled from the spec: [FMath::Clamp] is declared in the engine's
    math library, which is not among the sources; it is the clamp of
    [X] to the range from [Min] to [Max], in the engine's form
    [X < Min ? Min : X < Max ? X : Max]. *)
Definition Clamp (X Min Max : Z) : Z :=
  if X <? Min then Min else if X <? Max then X else Max.

(** [GetShadowQuality]: [Quality] is the value of [r.ShadowQuality],
    [ICVarLimit] the value of [r.LimitRenderingFeatures] when that
    variable exists, [bShippingOrTest] is
    [UE_BUILD_SHIPPING || UE_BUILD_TEST]. *)
Definition GetShadowQuality (bShippingOrTest : bool) (Quality : Z) (ICVarLimit : option Z)
    : Z :=
  let Ret := Quality in
  let Ret :=
    if bShippingOrTest then Ret
    else match ICVarLimit with
         | Some Limit => if 2 <? Limit then 0 else Ret
         | None => Ret
         end in
  to_uint32 (Clamp Ret 0 5).

(** *** [UpdateShaderDepthBias] and [ComputeTransitionSize] *)

Module Bias.

Section BiasDefs.
Context {F : Type} `{HLSLFloat F}.
Local Open Scope hlsl_scope.

(** Modelled from the spec: [FMath::Max], [FMath::Min] and [FMath::Lerp]
    are declared in the engine's math library, which is not among the
    sources; they are the larger and the smaller of two values and the
    linear interpolation, in the engine's forms [(A >= B) ? A : B],
    [(A <= B) ? A : B] and [A + Alpha * (B - A)]. *)
Definition Max (A B : F) : F := if B <=? A then A else B.
Definition Min (A B : F) : F := if A <=? B then A else B.
Definition Lerp (A B Alpha : F) : F := A + Alpha * (B - A).
(** [FMath::Max] on [uint32]. *)
Definition MaxU (A B : N) : N := if (B <=? A)%N then A else B.

(** The console variables the two functions read, by the values
    [GetValueOnRenderThread] returns. *)
Record CVars := mkCVars {
  CVarCSMShadowDepthBias : F;
  CVarCSMShadowSlopeScaleDepthBias : F;
  CVarPerObjectDirectionalShadowDepthBias : F;
  CVarPerObjectDirectionalShadowSlopeScaleDepthBias : F;
  CVarShadowTransitionScale : F;
  CVarPointLightShadowDepthBias : F;
  CVarPointLightShadowSlopeScaleDepthBias : F;
  CVarRectLightShadowDepthBias : F;
  CVarRectLightShadowSlopeScaleDepthBias : F;
  CVarSpotLightShadowDepthBias : F;
  CVarSpotLightShadowSlopeScaleDepthBias : F;
  CVarSpotLightShadowTransitionScale : F;
  CVarShadowMaxSlopeScaleDepthBias : F
}.

(** What the two functions read of the shadow and of its light.  The
    two predicates [IsWholeScenePointLightShadow] and
    [IsWholeSceneDirectionalShadow] are member functions declared with
    the class, taken by their values. *)
Record ShadowSetup := mkShadowSetup {
  IsWholeScenePointLightShadow : bool;
  IsWholeSceneDirectionalShadow : bool;
  bPreShadow : bool;
  bDirectionalLight : bool;
  LightType : ELightComponentType;
  ResolutionX : N;
  ResolutionY : N;
  MaxSubjectZ : F;
  MinSubjectZ : F;
  ShadowBoundsW : F;
  CascadeBiasDistribution : F;
  GetUserShadowBias : F;
  GetUserShadowSlopeBias : F
}.

(** The three members [UpdateShaderDepthBias] assigns. *)
Record ShaderBias := mkShaderBias {
  ShaderDepthBias : F;
  ShaderSlopeDepthBias : F;
  ShaderMaxSlopeDepthBias : F
}.

Definition is_rect (t : ELightComponentType) : bool :=
  match t with LightType_Rect => true | _ => false end.

(** [DepthBias] and [SlopeScaleDepthBias] as they are before the last
    three assignments.  The [check] that a whole-scene directional
    shadow has a cascade index is left out. *)
Definition depth_and_slope_bias (cv : CVars) (s : ShadowSetup) : F * F :=
  if IsWholeScenePointLightShadow s then
    let bIsRectLight := is_rect (LightType s) in
    let DeptBiasConstant :=
      if bIsRectLight then CVarRectLightShadowDepthBias cv
      else CVarPointLightShadowDepthBias cv in
    let SlopeDepthBiasConstant :=
      if bIsRectLight then CVarRectLightShadowSlopeScaleDepthBias cv
      else CVarPointLightShadowSlopeScaleDepthBias cv in
    let DepthBias :=
      DeptBiasConstant * flit 512 / of_uint (MaxU (ResolutionX s) (ResolutionY s)) in
    let DepthBias := DepthBias * (flit 2 * GetUserShadowBias s) in
    let SlopeScaleDepthBias := SlopeDepthBiasConstant in
    let SlopeScaleDepthBias := SlopeScaleDepthBias * GetUserShadowSlopeBias s in
    (DepthBias, SlopeScaleDepthBias)
  else if IsWholeSceneDirectionalShadow s then
    let DepthBias := CVarCSMShadowDepthBias cv / (MaxSubjectZ s - MinSubjectZ s) in
    let WorldSpaceTexelScale := ShadowBoundsW s / of_uint (ResolutionX s) in
    let DepthBias :=
      Lerp DepthBias (DepthBias * WorldSpaceTexelScale) (CascadeBiasDistribution s) in
    let DepthBias := DepthBias * GetUserShadowBias s in
    let SlopeScaleDepthBias := CVarCSMShadowSlopeScaleDepthBias cv in
    let SlopeScaleDepthBias := SlopeScaleDepthBias * GetUserShadowSlopeBias s in
    (DepthBias, SlopeScaleDepthBias)
  else if bPreShadow s then
    (flit 0, flit 0)
  else
    let '(DepthBias, SlopeScaleDepthBias) :=
      if bDirectionalLight s then
        let DepthBias :=
          CVarPerObjectDirectionalShadowDepthBias cv / (MaxSubjectZ s - MinSubjectZ s) in
        let WorldSpaceTexelScale :=
          ShadowBoundsW s / of_uint (MaxU (ResolutionX s) (ResolutionY s)) in
        let DepthBias := DepthBias * WorldSpaceTexelScale in
        let DepthBias := DepthBias * flit 0.5 in
        let SlopeScaleDepthBias := CVarPerObjectDirectionalShadowSlopeScaleDepthBias cv in
        let SlopeScaleDepthBias := SlopeScaleDepthBias * GetUserShadowSlopeBias s in
        (DepthBias, SlopeScaleDepthBias)
      else
        let LightTypeDepthBias := CVarSpotLightShadowDepthBias cv in
        let DepthBias :=
          LightTypeDepthBias * flit 512
          / ((MaxSubjectZ s - MinSubjectZ s)
             * of_uint (MaxU (ResolutionX s) (ResolutionY s))) in
        let DepthBias := DepthBias * (flit 2 * GetUserShadowBias s) in
        let SlopeScaleDepthBias := CVarSpotLightShadowSlopeScaleDepthBias cv in
        let SlopeScaleDepthBias := SlopeScaleDepthBias * GetUserShadowSlopeBias s in
        (DepthBias, SlopeScaleDepthBias) in
    (Min DepthBias (flit 0.1), SlopeScaleDepthBias).

(** [UpdateShaderDepthBias]. *)
Definition UpdateShaderDepthBias (cv : CVars) (s : ShadowSetup) : ShaderBias :=
  let '(DepthBias, SlopeScaleDepthBias) := depth_and_slope_bias cv s in
  mkShaderBias (Max DepthBias (flit 0))
               (Max (DepthBias * SlopeScaleDepthBias) (flit 0))
               (CVarShadowMaxSlopeScaleDepthBias cv).

(** [const float MinTransitionSize = 0.00001f;] *)
Definition MinTransitionSize : F := flit 0.00001.

(** [ComputeTransitionSize]; the same [check] is left out. *)
Definition ComputeTransitionSize (cv : CVars) (s : ShadowSetup) : F :=
  let TransitionSize :=
    if IsWholeScenePointLightShadow s then
      let TransitionSize :=
        if bDirectionalLight s then flit 1 / CVarShadowTransitionScale cv
        else flit 1 / CVarSpotLightShadowTransitionScale cv in
      TransitionSize * (flit 2 * GetUserShadowBias s)
    else if IsWholeSceneDirectionalShadow s then
      let TransitionSize :=
        CVarCSMShadowDepthBias cv / (MaxSubjectZ s - MinSubjectZ s) in
      let WorldSpaceTexelScale := ShadowBoundsW s / of_uint (ResolutionX s) in
      let TransitionSize := TransitionSize * WorldSpaceTexelScale in
      TransitionSize * GetUserShadowBias s
    else if bPreShadow s then flit 0
    else
      let TransitionSize :=
        if bDirectionalLight s then flit 1 / CVarShadowTransitionScale cv
        else flit 1 / CVarSpotLightShadowTransitionScale cv in
      TransitionSize * (flit 2 * GetUserShadowBias s) in
  Max TransitionSize MinTransitionSize.

End BiasDefs.

Arguments CVars F : clear implicits.
Arguments ShadowSetup F : clear implicits.
Arguments ShaderBias F : clear implicits.

End Bias.

(** *** [FSceneRenderer::RenderShadowProjections] *)

(** The function as the sequence of commands it issues on the command
    list, with its [check]s of the render-pass state as entries of the
    sequence.  The profiling scopes ([SCOPED_GPU_MASK],
    [SCOPED_CONDITIONAL_DRAW_EVENTF]) and the [check] that the view's
    uniform buffer is not null are left out. *)

Module Projection.

Section ProjectionDefs.
Context {F : Type} `{HLSLFloat F}.

(** What the function reads of a projected shadow, beyond the fields
    of [FProjectedShadowInfo] above.  [FadeAlphas] is an array indexed
    by view; reading beyond its end is not modelled. *)
Record FShadow := mkShadow {
  info : FProjectedShadowInfo F;
  FadeAlphas : nat -> F;
  bOnePassPointLightShadow : bool
}.

Inductive RenderPassName :=
  | RenderShadowProjection
  | RenderShadowProjectionSubPixel.

Inductive Command :=
  | check_IsInsideRenderPass
  | check_IsOutsideRenderPass
  | SetViewport (MinX MinY MaxX MaxY : Z)
  | LightSetScissorRect (ViewIndex : nat)
  | UpdateViewUniformBuffer (ViewIndex : nat)
  | RenderOnePassPointLightProjection (s : FShadow) (ViewIndex : nat)
      (bProjectingForForwardShading : bool)
  | RenderProjection (s : FShadow) (ViewIndex : nat)
      (bProjectingForForwardShading bMobileModulatedProjections bHairVisibilityData : bool)
  | SetScissorRect_off
  | TransitionRenderPassTargets (pass : RenderPassName)
  | BeginRenderPass (pass : RenderPassName)
  | EndRenderPass
  | RenderRayTracedDistanceFieldProjection (s : FShadow) (ViewIndex : nat)
      (ScissorRect : FIntRect) (bProjectingForForwardShading : bool).

(** Modelled from the spec: [FIntRect::Area] is declared with [FIntRect]
    in the engine's core library, which is not among the sources; it is
    the width times the height. *)
Definition Area (r : FIntRect) : Z := to_int32 (Width r * Height r).

(** The projection of one shadow into one view, in [RenderShadowMask]. *)
Definition project_shadow (bProjectingForForwardShading bMobileModulatedProjections
                           bHairVisibilityViews : bool)
    (ViewIndex : nat) (ProjectedShadowInfo : FShadow) : list Command :=
  if bAllocated (info ProjectedShadowInfo) then
    if flt (fdiv (flit 1) (flit 256)) (FadeAlphas ProjectedShadowInfo ViewIndex) then
      if bOnePassPointLightShadow ProjectedShadowInfo then
        [RenderOnePassPointLightProjection ProjectedShadowInfo ViewIndex
           bProjectingForForwardShading]
      else
        [RenderProjection ProjectedShadowInfo ViewIndex bProjectingForForwardShading
           bMobileModulatedProjections bHairVisibilityViews]
    else []
  else [].

(** The loop over the views in the lambda [RenderShadowMask], from
    [ViewIndex] on. *)
Fixpoint RenderShadowMask_from (bProjectingForForwardShading bMobileModulatedProjections
                                bHairVisibilityViews : bool)
    (NormalShadows : list FShadow) (Views : list (FViewInfo F)) (ViewIndex : nat)
    : list Command :=
  match Views with
  | [] => []
  | View :: rest =>
      [SetViewport (MinX (ViewRect View)) (MinY (ViewRect View))
                   (MaxX (ViewRect View)) (MaxY (ViewRect View));
       LightSetScissorRect ViewIndex;
       UpdateViewUniformBuffer ViewIndex]
      ++ flat_map (project_shadow bProjectingForForwardShading bMobileModulatedProjections
                                  bHairVisibilityViews ViewIndex)
                  NormalShadows
      ++ RenderShadowMask_from bProjectingForForwardShading bMobileModulatedProjections
           bHairVisibilityViews NormalShadows rest (S ViewIndex)
  end.

(** The loop over the views for the distance-field shadows, from
    [ViewIndex] on.  [LightScissor] is the rectangle that the light's
    [SetScissorRect] gives for a view, when it gives one. *)
Fixpoint DistanceField_from (bProjectingForForwardShading : bool)
    (LightScissor : nat -> option FIntRect)
    (DistanceFieldShadows : list FShadow) (Views : list (FViewInfo F)) (ViewIndex : nat)
    : list Command :=
  match Views with
  | [] => []
  | View :: rest =>
      let ScissorRect :=
        match LightScissor ViewIndex with
        | Some r => r
        | None => ViewRect View
        end in
      [SetViewport (MinX (ViewRect View)) (MinY (ViewRect View))
                   (MaxX (ViewRect View)) (MaxY (ViewRect View));
       LightSetScissorRect ViewIndex]
      ++ (if 0 <? Area ScissorRect then
            map (fun s => RenderRayTracedDistanceFieldProjection s ViewIndex ScissorRect
                            bProjectingForForwardShading)
                DistanceFieldShadows
          else [])
      ++ [SetScissorRect_off]
      ++ DistanceField_from bProjectingForForwardShading LightScissor
           DistanceFieldShadows rest (S ViewIndex)
  end.

(** The commands for the shadows that are not distance-field shadows. *)
Definition normal_part (Views : list (FViewInfo F)) (NormalShadows : list FShadow)
    (bScreenShadowMaskSubPixelTexture bProjectingForForwardShading
     bMobileModulatedProjections bInHairVisibilityViews : bool) : list Command :=
  if (0 <? Z.of_nat (length NormalShadows)) then
    (if bMobileModulatedProjections then
       [check_IsInsideRenderPass]
       ++ RenderShadowMask_from bProjectingForForwardShading bMobileModulatedProjections
            false NormalShadows Views 0
       ++ [SetScissorRect_off]
     else
       [check_IsOutsideRenderPass;
        TransitionRenderPassTargets RenderShadowProjection;
        BeginRenderPass RenderShadowProjection]
       ++ RenderShadowMask_from bProjectingForForwardShading bMobileModulatedProjections
            false NormalShadows Views 0
       ++ [SetScissorRect_off; EndRenderPass])
    ++ (if negb bMobileModulatedProjections && bScreenShadowMaskSubPixelTexture
           && bInHairVisibilityViews
        then
          [check_IsOutsideRenderPass;
           TransitionRenderPassTargets RenderShadowProjectionSubPixel;
           BeginRenderPass RenderShadowProjectionSubPixel]
          ++ RenderShadowMask_from bProjectingForForwardShading
               bMobileModulatedProjections true NormalShadows Views 0
          ++ [SetScissorRect_off; EndRenderPass]
        else [])
  else [].

(** The commands for the distance-field shadows. *)
Definition distance_field_part (Views : list (FViewInfo F))
    (DistanceFieldShadows : list FShadow) (LightScissor : nat -> option FIntRect)
    (bProjectingForForwardShading : bool) : list Command :=
  if (0 <? Z.of_nat (length DistanceFieldShadows)) then
    DistanceField_from bProjectingForForwardShading LightScissor
      DistanceFieldShadows Views 0
  else [].

(** [RenderShadowProjections]: the value returned and the commands
    issued, in order.  The two pointer arguments
    [ScreenShadowMaskSubPixelTexture] and [InHairVisibilityViews] enter
    by whether they are non-null. *)
Definition RenderShadowProjections (Views : list (FViewInfo F))
    (ShadowsToProject : list FShadow) (LightScissor : nat -> option FIntRect)
    (bScreenShadowMaskSubPixelTexture bProjectingForForwardShading
     bMobileModulatedProjections bInHairVisibilityViews : bool) : bool * list Command :=
  let DistanceFieldShadows :=
    List.filter (fun s => bRayTracedDistanceField (info s)) ShadowsToProject in
  let NormalShadows :=
    List.filter (fun s => negb (bRayTracedDistanceField (info s))) ShadowsToProject in
  (true,
   normal_part Views NormalShadows bScreenShadowMaskSubPixelTexture
     bProjectingForForwardShading bMobileModulatedProjections bInHairVisibilityViews
   ++ distance_field_part Views DistanceFieldShadows LightScissor
        bProjectingForForwardShading).

(** The render-pass state of the command list along a sequence of
    commands: [Some inside] after it, or [None] when one of the
    function's [check]s fails. *)
Fixpoint run_checks (inside : bool) (cmds : list Command) : option bool :=
  match cmds with
  | [] => Some inside
  | check_IsInsideRenderPass :: rest => if inside then run_checks inside rest else None
  | check_IsOutsideRenderPass :: rest => if inside then None else run_checks inside rest
  | BeginRenderPass _ :: rest => run_checks true rest
  | EndRenderPass :: rest => run_checks false rest
  | _ :: rest => run_checks inside rest
  end.

(** The commands that project a shadow. *)
Definition is_mask_projection (c : Command) : bool :=
  match c with
  | RenderOnePassPointLightProjection _ _ _ | RenderProjection _ _ _ _ _ => true
  | _ => false
  end.

Definition is_distance_field_projection (c : Command) : bool :=
  match c with
  | RenderRayTracedDistanceFieldProjection _ _ _ _ => true
  | _ => false
  end.

Definition is_pass_boundary (c : Command) : bool :=
  match c with
  | BeginRenderPass _ | EndRenderPass => true
  | _ => false
  end.

(** The commands that neither check nor change the render-pass state. *)
Definition is_plain (c : Command) : bool :=
  match c with
  | check_IsInsideRenderPass | check_IsOutsideRenderPass
  | BeginRenderPass _ | EndRenderPass => false
  | _ => true
  end.

(** Every command of the sequence that satisfies [p] is issued inside
    a render pass (for [want = true]) or outside every render pass (for
    [want = false]), when the sequence starts in the state [inside]. *)
Fixpoint issued_where (p : Command -> bool) (want : bool) (inside : bool)
    (cmds : list Command) : bool :=
  match cmds with
  | [] => true
  | c :: rest =>
      (if p c then Bool.eqb inside want else true)
      && issued_where p want
           (match c with
            | BeginRenderPass _ => true
            | EndRenderPass => false
            | _ => inside
            end) rest
  end.

End ProjectionDefs.

Arguments FShadow F : clear implicits.
Arguments Command F : clear implicits.

End Projection.

(** *** [FDeferredShadingSceneRenderer::RenderShadowProjections] *)

(** The two loops that follow the call of [RenderScreenSpaceShadows],
    whose result the function does not look at. *)

Module Translucency.

(** What the loops read of a projected shadow.  [DependentView] is a
    null pointer ([None]) or a pointer to a view: a pointer to
    [Views[i]] is [Some i], a pointer to any other view is [Some i] with
    [i] beyond the end of [Views]. *)
Record FShadow := mkShadow {
  bAllocated : bool;
  bWholeSceneShadow : bool;
  bRayTracedDistanceField : bool;
  IsWholeSceneDirectionalShadow : bool;
  DependentView : option nat
}.

(** The calls the loops make, with the indices they pass. *)
Inductive Call :=
  | InjectTranslucentVolumeLighting (ShadowIndex View : nat) (ViewIndex : Z)
  | ComputeShadowMapShadowing (ViewIndex ShadowIndex : nat).

(** The condition of the first loop. *)
Definition injects (HasStaticShadowing : bool) (s : FShadow) : bool :=
  bAllocated s && bWholeSceneShadow s && negb (bRayTracedDistanceField s)
  && (negb HasStaticShadowing || IsWholeSceneDirectionalShadow s).

(** [int32 ViewIndex = -1; for (i = 0; i < Views.Num(); ++i) if (DependentView == &Views[i]) { ViewIndex = i; break; }],
    from [i] on with [remaining] views left. *)
Fixpoint find_view (remaining i DependentView : nat) : Z :=
  match remaining with
  | O => -1
  | S r => if (DependentView =? i)%nat then Z.of_nat i
           else find_view r (S i) DependentView
  end.

(** [for (ViewIndex = 0; ViewIndex < Views.Num(); ++ViewIndex) InjectTranslucentVolumeLighting(..., View, ViewIndex);] *)
Fixpoint inject_all_views (remaining ViewIndex ShadowIndex : nat) : list Call :=
  match remaining with
  | O => []
  | S r => InjectTranslucentVolumeLighting ShadowIndex ViewIndex (Z.of_nat ViewIndex)
           :: inject_all_views r (S ViewIndex) ShadowIndex
  end.

(** The body of the first loop for a shadow that passes the condition. *)
Definition inject_shadow (NumViews ShadowIndex : nat) (s : FShadow) : list Call :=
  match DependentView s with
  | Some d => [InjectTranslucentVolumeLighting ShadowIndex d (find_view NumViews 0 d)]
  | None => inject_all_views NumViews 0 ShadowIndex
  end.

(** The first loop, from [ShadowIndex] on: the flag
    [bInjectedTranslucentVolume] and the calls made. *)
Fixpoint inject_loop (NumViews : nat) (HasStaticShadowing : bool) (ShadowIndex : nat)
    (ShadowsToProject : list FShadow) (bInjectedTranslucentVolume : bool)
    : bool * list Call :=
  match ShadowsToProject with
  | [] => (bInjectedTranslucentVolume, [])
  | s :: rest =>
      if injects HasStaticShadowing s then
        let '(flag, calls) :=
          inject_loop NumViews HasStaticShadowing (S ShadowIndex) rest true in
        (flag, inject_shadow NumViews ShadowIndex s ++ calls)
      else
        inject_loop NumViews HasStaticShadowing (S ShadowIndex) rest
                    bInjectedTranslucentVolume
  end.

(** The inner loop of the second pair of loops, from [ShadowIndex] on. *)
Fixpoint heightfield_shadows (ViewIndex ShadowIndex : nat)
    (ShadowsToProject : list FShadow) : list Call :=
  match ShadowsToProject with
  | [] => []
  | s :: rest =>
      (if bAllocated s && bWholeSceneShadow s
       then [ComputeShadowMapShadowing ViewIndex ShadowIndex] else [])
      ++ heightfield_shadows ViewIndex (S ShadowIndex) rest
  end.

(** The outer loop, from [ViewIndex] on with [remaining] views left. *)
Fixpoint heightfield_views (remaining ViewIndex : nat)
    (ShadowsToProject : list FShadow) : list Call :=
  match remaining with
  | O => []
  | S r => heightfield_shadows ViewIndex 0 ShadowsToProject
           ++ heightfield_views r (S ViewIndex) ShadowsToProject
  end.

End Translucency.

(** ** Concrete scenes for the pixel shader, in binary32 *)

Module PSScenes.
Import Binary32 Scenes.

(** The pixel shader over a compute-shader scene: the view rectangle is
    the whole 512 x 512 buffer, screen and world positions coincide,
    device depth is scene depth, and [rcp] is the correctly rounded
    reciprocal. *)
Definition pixel_env (base : ShaderEnv spec_float) : PS.PixelEnv spec_float :=
  PS.mkPixelEnv base
    (mk4 (f 512) (f 512) (f (1 # 512)) (f (1 # 512)))
    (fun uv => mk2 (fsub (fmul (f 2) (x2 uv)) (f 1)) (fsub (f 1) (fmul (f 2) (y2 uv))))
    (fun z => z)
    (fun x => fdiv (f 1) x).

(** The scene of [wall], lit along -x by a light vector of length
    [len]: one step of the march moves the position by [10 * len]. *)
Definition lit (len u0 d : Q) : PS.PixelEnv spec_float :=
  pixel_env (mkEnv spec_float view512 (mk4 (f (- len)) (f 0) (f 0) (f 0)) (wall u0 d)
                   (fun _ _ => f 0.5) (mk2 (f 1) (f 1)) (fun z => z)).

(** A surface half a unit nearer than the ray, right of u = 0.46; with a
    light vector of length 0.001 the first sample lands on it, with one
    of length 1 the first sample is already off the screen. *)
Definition near_wall_slow : PS.PixelEnv spec_float := lit 0.001 0.46 0.5.
Definition near_wall_fast : PS.PixelEnv spec_float := lit 1 0.46 0.5.

(** The centre of pixel (233, 250). *)
Definition centre : float4 spec_float := mk4 (f 233.5) (f 250.5) (f 0) (f 1).

(** The G-buffer of [occluder] with another surface in the upper part
    of the screen, above v = 0.3. *)
Definition occluder_below (uv : float2 spec_float) : FGBufferData spec_float :=
  if (y2 uv <? f 0.3)%hlsl then mkGBuffer spec_float (mk3 (f 0) (f 1) (f 0)) (f 5)
  else wall 0.46 1.03 uv.

End PSScenes.

(** ** A view smaller than the buffer, for the texture extent *)

Module TextureScenes.
Import Binary32 Scenes.
(** A view 510 pixels wide and high in the 512 x 512 buffer: the
    dispatch has 64 x 64 groups, so thread indices run up to 511. *)
Definition view_510 : FViewInfo spec_float :=
  mkViewInfo spec_float (mkRect 0 0 510 510) view512.
End TextureScenes.

(** * Properties *)

(** ** How the loop runs *)

Section MarchFacts.
Context {F : Type} `{HLSLFloat F}.

Lemma debug_block_shadow (env : ShaderEnv F) (tid : uint3) (t : F) (uav : UAVs F) :
  RWShadowFactors (debug_block env tid t uav) = RWShadowFactors uav.
Proof.
  unfold debug_block.
  destruct (debugPixel tid); [destruct (inside01 _) |]; reflexivity.
Qed.

Lemma debug_block_quiet (env : ShaderEnv F) (tid : uint3) (t : F) (uav : UAVs F) :
  debugPixel tid = false -> debug_block env tid t uav = uav.
Proof. intros Hd. unfold debug_block. now rewrite Hd. Qed.

(** The body returns exactly when its condition holds, and then it has
    written the shadowed value; otherwise it advances [sampleTime]. *)
Lemma march_body_stop (env : ShaderEnv F) (tid : uint3) (t : F) (uav : UAVs F) :
  Hit env tid t && inside01 (xy3 (sampleUVZ env tid t)) = true ->
  march_body env tid t uav =
  Return (write_shadow (uxy tid) (shadowed_value env tid) (debug_block env tid t uav)).
Proof. intros Hc. unfold march_body. now rewrite Hc. Qed.

Lemma march_body_go (env : ShaderEnv F) (tid : uint3) (t : F) (uav : UAVs F) :
  Hit env tid t && inside01 (xy3 (sampleUVZ env tid t)) = false ->
  march_body env tid t uav =
  Next (fadd t (fdiv (flit 1) (of_int NumSteps))) (debug_block env tid t uav).
Proof. intros Hc. unfold march_body. now rewrite Hc. Qed.

(** With more fuel than iterations left, the loop ends, at an index
    between the one it was entered with and [NumSteps]. *)
Lemma march_total (fuel : nat) :
  forall (env : ShaderEnv F) (tid : uint3) (i : Z) (t : F) (uav : UAVs F),
  Z.max 0 (NumSteps - i) < Z.of_nat fuel ->
  exists j uav', march fuel env tid i t uav = Some (j, uav')
                 /\ i <= j <= Z.max i NumSteps.
Proof.
  induction fuel as [| fuel IH]; intros env tid i t uav Hfuel.
  - exfalso. simpl in Hfuel. lia.
  - simpl. destruct (Z.ltb_spec i NumSteps) as [Hlt | Hge].
    + destruct (march_body env tid t uav) as [uav' | t' uav'].
      * exists i, uav'. split; [reflexivity | lia].
      * destruct (IH env tid (i + 1) t' uav') as (j & uav'' & Hm & Hj); [lia |].
        exists j, uav''. split; [exact Hm | lia].
    + exists i, uav. split; [reflexivity | lia].
Qed.

(** What the loop does to [RWShadowFactors]: nothing when it runs to
    the end, one write of the shadowed value to the pixel's own slot
    when it returns early. *)
Lemma march_shadow (fuel : nat) :
  forall (env : ShaderEnv F) (tid : uint3) (i : Z) (t : F) (uav : UAVs F) j uav',
  march fuel env tid i t uav = Some (j, uav') ->
  RWShadowFactors uav' =
  if j <? NumSteps then <[uxy tid := shadowed_value env tid]> (RWShadowFactors uav)
  else RWShadowFactors uav.
Proof.
  induction fuel as [| fuel IH]; intros env tid i t uav j uav' Hm; [discriminate |].
  simpl in Hm. destruct (Z.ltb_spec i NumSteps) as [Hlt | Hge].
  - unfold march_body in Hm.
    destruct (Hit env tid t && inside01 (xy3 (sampleUVZ env tid t))).
    + injection Hm as <- <-.
      destruct (Z.ltb_spec i NumSteps); [| lia].
      simpl. now rewrite debug_block_shadow.
    + apply IH in Hm. now rewrite debug_block_shadow in Hm.
  - injection Hm as <- <-.
    destruct (Z.ltb_spec i NumSteps); [lia | reflexivity].
Qed.

(** The index at which the loop is left is the first iteration whose
    condition holds, or [NumSteps] when there is none. *)
Lemma march_exit (fuel : nat) :
  forall (env : ShaderEnv F) (tid : uint3) (n : nat) (uav : UAVs F) j uav',
  march fuel env tid (Z.of_nat n) (sampleTime_at env tid n) uav = Some (j, uav') ->
  (forall m : nat, (n <= m)%nat -> Z.of_nat m < j -> Z.of_nat m < NumSteps ->
                   stops_at env tid m = false)
  /\ (j < NumSteps -> exists m : nat, j = Z.of_nat m /\ (n <= m)%nat
                                      /\ stops_at env tid m = true).
Proof.
  induction fuel as [| fuel IH]; intros env tid n uav j uav' Hm; [discriminate |].
  simpl in Hm. destruct (Z.ltb_spec (Z.of_nat n) NumSteps) as [Hlt | Hge].
  - unfold march_body in Hm.
    destruct (Hit env tid (sampleTime_at env tid n)
              && inside01 (xy3 (sampleUVZ env tid (sampleTime_at env tid n)))) eqn:Hc.
    + injection Hm as <- <-. split.
      * intros m Hnm Hmj _. lia.
      * intros _. exists n. split; [reflexivity | split; [lia | exact Hc]].
    + replace (Z.of_nat n + 1) with (Z.of_nat (S n)) in Hm by lia.
      change (fadd (sampleTime_at env tid n) (fdiv (flit 1) (of_int NumSteps)))
        with (sampleTime_at env tid (S n)) in Hm.
      apply IH in Hm. destruct Hm as [Hnone Hsome]. split.
      * intros m Hnm Hmj Hm64.
        destruct (Nat.eq_dec m n) as [-> | Hne]; [exact Hc |].
        apply Hnone; lia.
      * intros Hj. destruct (Hsome Hj) as (m & -> & Hnm & Hs).
        exists m. split; [reflexivity | split; [lia | exact Hs]].
  - injection Hm as <- <-. split.
    + intros m Hnm Hmj Hm64. lia.
    + intros Hj. lia.
Qed.

(** The textural prelude of [Main_CS], in one piece. *)
Lemma Main_CS_unfold (fuel : nat) (env : ShaderEnv F) (gid tid gtid : uint3) (uav : UAVs F) :
  Main_CS fuel env gid tid gtid uav =
  if fle (NdotL env tid) (flit 0) then
    Some (write_shadow (uxy tid) (shadowed_value env tid)
            (write_shadow (uxy tid) (mk2 (flit 0) (flit 1))
               (write_shadow (uxy tid) (mk2 (z4 (test env tid)) (w4 (test env tid))) uav)))
  else snd <$> march fuel env tid 0 (sampleTime0 env tid) (before_loop env tid uav).
Proof. reflexivity. Qed.

End MarchFacts.

(** ** What an invocation leaves in [RWShadowFactors] *)

Section Result.
Context {F : Type} `{HLSLFloat F}.

Lemma before_loop_shadow (env : ShaderEnv F) (tid : uint3) (uav : UAVs F) :
  RWShadowFactors (before_loop env tid uav)
  = <[uxy tid := unshadowed_value env tid]> (RWShadowFactors uav).
Proof.
  unfold before_loop, write_test, write_shadow, unshadowed_value; simpl.
  now rewrite !insert_insert_eq.
Qed.

Lemma some_step_stops_true (env : ShaderEnv F) (tid : uint3) (m : nat) :
  Z.of_nat m < NumSteps -> stops_at env tid m = true -> some_step_stops env tid = true.
Proof.
  intros Hm Hs. unfold some_step_stops. apply existsb_exists.
  exists m. split; [| exact Hs]. apply in_seq. unfold NumSteps in *. lia.
Qed.

Lemma some_step_stops_false (env : ShaderEnv F) (tid : uint3) :
  (forall m : nat, Z.of_nat m < NumSteps -> stops_at env tid m = false) ->
  some_step_stops env tid = false.
Proof.
  intros Hall. unfold some_step_stops.
  destruct (existsb _ _) eqn:He; [| reflexivity].
  apply existsb_exists in He. destruct He as (m & Hin & Hs).
  apply in_seq in Hin. rewrite Hall in Hs; [discriminate |].
  unfold NumSteps in *. lia.
Qed.

(** The loop entered at its start: it ends, and it is left before
    [NumSteps] exactly when some iteration meets the return condition. *)
Lemma march_from_start (env : ShaderEnv F) (tid : uint3) (uav : UAVs F) (k : nat) :
  exists j uav', march (enough k) env tid 0 (sampleTime0 env tid) uav = Some (j, uav')
    /\ 0 <= j <= NumSteps
    /\ (j <? NumSteps) = some_step_stops env tid.
Proof.
  destruct (march_total (enough k) env tid 0 (sampleTime0 env tid) uav)
    as (j & uav' & Hm & Hj).
  { unfold enough, NumSteps. lia. }
  exists j, uav'. split; [exact Hm |]. split; [unfold NumSteps in *; lia |].
  destruct (march_exit (enough k) env tid 0 uav j uav' Hm) as [Hnone Hsome].
  destruct (Z.ltb_spec j NumSteps) as [Hlt | Hge].
  - destruct (Hsome Hlt) as (m & -> & _ & Hs).
    symmetry. now apply some_step_stops_true with m.
  - symmetry. apply some_step_stops_false. intros m Hm64.
    apply Hnone; lia.
Qed.

(** An invocation returns, and its whole effect on [RWShadowFactors] is
    one update of the pixel's own slot, with a value that does not
    depend on the textures it started from. *)
Lemma Main_CS_result (env : ShaderEnv F) (gid tid gtid : uint3) (uav : UAVs F) (k : nat) :
  exists uav', Main_CS (enough k) env gid tid gtid uav = Some uav'
    /\ RWShadowFactors uav' = <[uxy tid := final_value env tid]> (RWShadowFactors uav).
Proof.
  rewrite Main_CS_unfold. unfold final_value.
  destruct (fle (NdotL env tid) (flit 0)) eqn:Hback.
  - eexists. split; [reflexivity |].
    unfold write_shadow; simpl. now rewrite !insert_insert_eq.
  - destruct (march_from_start env tid (before_loop env tid uav) k)
      as (j & uav' & Hm & Hj & Hstop).
    exists uav'. rewrite Hm. split; [reflexivity |].
    rewrite (march_shadow _ _ _ _ _ _ _ _ Hm), before_loop_shadow.
    simpl. rewrite <- Hstop.
    destruct (j <? NumSteps); [now rewrite insert_insert_eq | reflexivity].
Qed.

End Result.

(** ** The claims about [Main_CS] that hold for every scalar model *)

Section ShaderClaims.
Context {F : Type} `{HLSLFloat F}.

(** C9.  Every invocation of [Main_CS] returns: with fuel for
    [NumSteps = 64] iterations and the final loop test, whatever is left
    over, the invocation produces its result, and the fuel is spent in
    the one loop only, which a back-facing pixel does not reach.  The
    loop is left at an index between 0 and 64, so its body runs at most
    64 times.  An execution of the body returns only on a hit (whose
    sample is on screen); otherwise it advances [sampleTime] by
    [1.0 / NumSteps].  So the loop is left at the first iteration that
    is such a hit, after every earlier iteration advanced, and at 64
    when there is none. *)
Theorem Main_CS_terminates (env : ShaderEnv F) (gid tid gtid : uint3) (uav : UAVs F) (k : nat) :
  (exists uav', Main_CS (enough k) env gid tid gtid uav = Some uav')
  /\ (forall fuel : nat,
        Main_CS fuel env gid tid gtid uav
        = if fle (NdotL env tid) (flit 0)
          then Main_CS 0 env gid tid gtid uav
          else snd <$> march fuel env tid 0 (sampleTime0 env tid) (before_loop env tid uav))
  /\ (forall (t : F) (uav0 : UAVs F),
        exists j uav', march (enough k) env tid 0 t uav0 = Some (j, uav')
                       /\ 0 <= j <= 64)
  /\ (forall (t : F) (uav0 : UAVs F),
        match march_body env tid t uav0 with
        | Return _ =>
            Hit env tid t = true /\ inside01 (xy3 (sampleUVZ env tid t)) = true
        | Next t' _ =>
            Hit env tid t && inside01 (xy3 (sampleUVZ env tid t)) = false
            /\ t' = fadd t (fdiv (flit 1) (of_int 64))
        end)
  /\ (forall uav0 : UAVs F,
        exists j uav',
          march (enough k) env tid 0 (sampleTime0 env tid) uav0 = Some (j, uav')
          /\ 0 <= j <= 64
          /\ (forall n : nat, Z.of_nat n < j ->
                stops_at env tid n = false
                /\ sampleTime_at env tid (S n)
                   = fadd (sampleTime_at env tid n) (fdiv (flit 1) (of_int 64)))
          /\ (j < 64 ->
                Hit env tid (sampleTime_at env tid (Z.to_nat j)) = true
                /\ inside01 (xy3 (sampleUVZ env tid (sampleTime_at env tid (Z.to_nat j))))
                   = true)
          /\ (j = 64 <-> some_step_stops env tid = false)).
Proof.
  split; [| split; [| split; [| split]]].
  - destruct (Main_CS_result env gid tid gtid uav k) as (uav' & Hm & _).
    now exists uav'.
  - intros fuel. rewrite !Main_CS_unfold.
    destruct (fle (NdotL env tid) (flit 0)); reflexivity.
  - intros t uav0.
    destruct (march_total (enough k) env tid 0 t uav0) as (j & uav' & Hm & Hj).
    { unfold enough, NumSteps. lia. }
    exists j, uav'. split; [exact Hm | unfold NumSteps in Hj; lia].
  - intros t uav0. unfold march_body.
    destruct (Hit env tid t && inside01 (xy3 (sampleUVZ env tid t))) eqn:Hc.
    + apply andb_true_iff in Hc. exact Hc.
    + split; reflexivity.
  - intros uav0.
    destruct (march_from_start env tid uav0 k) as (j & uav' & Hm & Hj & Hstop).
    destruct (march_exit (enough k) env tid 0 uav0 j uav' Hm) as [Hnone Hsome].
    exists j, uav'. split; [exact Hm |]. split; [unfold NumSteps in Hj; lia |].
    split; [| split].
    + intros n Hn. split; [| reflexivity].
      apply Hnone; unfold NumSteps in *; lia.
    + intros Hlt. destruct (Hsome Hlt) as (m & -> & _ & Hs).
      rewrite Nat2Z.id. apply andb_true_iff in Hs. exact Hs.
    + rewrite <- Hstop. unfold NumSteps in *.
      destruct (Z.ltb_spec j 64); split; intros; (lia || discriminate || reflexivity).
Qed.

(** C2.  When [dot(N, LightDirection) <= 0], [Main_CS] returns before
    the loop (no fuel is needed), leaves [(0.0, SceneDepth)] in the
    pixel's slot, and produces the same textures over any other
    G-buffer that agrees with this one at the pixel's own UV. *)
Theorem backface_early_return (env : ShaderEnv F) (gid tid gtid : uint3) (uav : UAVs F)
    (fuel : nat) (g' : float2 F -> FGBufferData F) :
  fle (NdotL env tid) (flit 0) = true ->
  g' (ScreenUV env tid) = GetGBufferDataFromSceneTextures env (ScreenUV env tid) ->
  exists uav', Main_CS 0 env gid tid gtid uav = Some uav'
    /\ Main_CS fuel env gid tid gtid uav = Some uav'
    /\ Main_CS fuel (with_GBuffer env g') gid tid gtid uav = Some uav'
    /\ RWShadowFactors uav' !! uxy tid = Some (mk2 (flit 0) (SceneDepth env tid))
    /\ testFactors uav' = testFactors uav.
Proof.
  intros Hback Hsame.
  assert (HG : GBuffer (with_GBuffer env g') tid = GBuffer env tid).
  { unfold GBuffer. exact Hsame. }
  assert (HN : NdotL (with_GBuffer env g') tid = NdotL env tid).
  { unfold NdotL, N_. now rewrite HG. }
  assert (HD : SceneDepth (with_GBuffer env g') tid = SceneDepth env tid).
  { unfold SceneDepth. now rewrite HG. }
  assert (HT : test (with_GBuffer env g') tid = test env tid).
  { unfold test, PositionTranslatedWorld. rewrite HD. reflexivity. }
  eexists. rewrite !Main_CS_unfold, HN, Hback.
  unfold shadowed_value. rewrite HD, HT.
  split; [reflexivity |]. split; [reflexivity |]. split; [reflexivity |].
  split; [| reflexivity].
  unfold write_shadow; simpl. now rewrite lookup_insert_eq.
Qed.

(** C4.  A step whose sample UV is not strictly inside (0,1) in both
    axes does not return and does not touch [RWShadowFactors], whatever
    the depth comparison says; and the loop is never left early at such
    a step. *)
Theorem offscreen_step_never_shadows (env : ShaderEnv F) (tid : uint3) (n : nat) :
  inside01 (xy3 (sampleUVZ env tid (sampleTime_at env tid n))) = false ->
  (forall uav : UAVs F,
      exists uav', march_body env tid (sampleTime_at env tid n) uav
                   = Next (sampleTime_at env tid (S n)) uav'
                   /\ RWShadowFactors uav' = RWShadowFactors uav)
  /\ (forall (fuel : nat) (uav : UAVs F) j uav',
        march fuel env tid 0 (sampleTime0 env tid) uav = Some (j, uav') ->
        j < NumSteps -> j <> Z.of_nat n).
Proof.
  intros Hout. split.
  - intros uav. eexists. split.
    + rewrite march_body_go; [reflexivity |].
      rewrite Hout. apply andb_false_r.
    + apply debug_block_shadow.
  - intros fuel uav j uav' Hm Hj ->.
    destruct (march_exit fuel env tid 0 uav _ uav' Hm) as [_ Hsome].
    destruct (Hsome Hj) as (m & Heq & _ & Hs).
    apply Nat2Z.inj in Heq. subst m.
    unfold stops_at in Hs. rewrite Hout, andb_false_r in Hs. discriminate.
Qed.

(** C5.  A sample whose device depth is within [1e-5] of the ray's
    starting depth [startUVZ.z] is never a hit, for every tolerance and
    every depth difference: the step does not return and leaves
    [RWShadowFactors] as it was. *)
Theorem self_intersection_never_hits (env : ShaderEnv F) (tid : uint3) (t : F) :
  flt (fabs (fsub (z3 (startUVZ env tid)) (sampleDepth env tid t))) (flit 1e-5) = true ->
  Hit env tid t = false
  /\ (forall depthDiff CompareTolerance : F,
        Hit_test depthDiff CompareTolerance
                 (selfOcclusion_test (z3 (startUVZ env tid)) (sampleDepth env tid t)) = false)
  /\ (forall uav : UAVs F,
        exists uav', march_body env tid t uav
                     = Next (fadd t (fdiv (flit 1) (of_int NumSteps))) uav'
                     /\ RWShadowFactors uav' = RWShadowFactors uav).
Proof.
  intros Hself.
  assert (Hall : forall d T : F,
             Hit_test d T (selfOcclusion_test (z3 (startUVZ env tid))
                                              (sampleDepth env tid t)) = false).
  { intros d T. unfold Hit_test, selfOcclusion_test. rewrite Hself. apply andb_false_r. }
  assert (HHit : Hit env tid t = false) by apply Hall.
  split; [exact HHit |]. split; [exact Hall |].
  intros uav. eexists. split.
  - apply march_body_go. now rewrite HHit.
  - apply debug_block_shadow.
Qed.

(** C6.  The tolerance is [abs(depthScreen.z - startScreen.z)], the
    depth range between the start of the ray and the point one
    [RayLength] further along view Z, times [1.0 / NumSteps], times
    [CompareTorelanceScale = 2.0].  It is a value of the invocation: the
    loop is left at the first step whose test against that one value
    succeeds on screen, after every earlier step failed the test
    against the same value. *)
Theorem tolerance_formula (env : ShaderEnv F) (tid : uint3) (uav : UAVs F) (k : nat) :
  let T := fmul (fmul (fabs (fsub (z3 (depthScreen env tid)) (z3 (startScreen env tid))))
                      (fdiv (flit 1) (of_int 64)))
                (flit 2) in
  let test_at (n : nat) :=
    Hit_test (depthDiff env tid (sampleTime_at env tid n)) T
             (selfOcclusion env tid (sampleTime_at env tid n))
    && inside01 (xy3 (sampleUVZ env tid (sampleTime_at env tid n))) in
  CompareTolerance env tid = T
  /\ depthScreen env tid
     = (let depthClip :=
          add4 (startClip env tid)
               (mul (mk4 (flit 0) (flit 0) (RayLength env tid) (flit 0))
                    (ViewToClip (View env))) in
        divs3 (xyz4 depthClip) (w4 depthClip))
  /\ exists j uav',
       march (enough k) env tid 0 (sampleTime0 env tid) uav = Some (j, uav')
       /\ 0 <= j <= NumSteps
       /\ (forall n : nat, Z.of_nat n < j -> test_at n = false)
       /\ (j < NumSteps -> test_at (Z.to_nat j) = true).
Proof.
  intros T test_at.
  split; [reflexivity |]. split; [reflexivity |].
  destruct (march_from_start env tid uav k) as (j & uav' & Hm & Hj & _).
  destruct (march_exit (enough k) env tid 0 uav j uav' Hm) as [Hnone Hsome].
  exists j, uav'. split; [exact Hm |]. split; [exact Hj |]. split.
  - intros n Hn. apply (Hnone n); lia.
  - intros Hlt. destruct (Hsome Hlt) as (m & -> & _ & Hs).
    rewrite Nat2Z.id. exact Hs.
Qed.

End ShaderClaims.

(** ** What the texture behind [RWShadowFactors] holds *)

Section TextureFacts.
Context {F : Type} `{HLSLFloat F}.
Variable convert : EPixelFormat -> F -> F.

Lemma texture_of_lookup (Desc : FRDGTextureDesc) (stores : gmap uint2 (float2 F))
    (q : uint2) :
  texture_of convert Desc stores !! q
  = if in_extent Desc q then to_format convert Desc <$> stores !! q else None.
Proof.
  unfold texture_of. rewrite map_lookup_imap.
  destruct (stores !! q) as [v |]; cbn; destruct (in_extent Desc q); reflexivity.
Qed.

(** The texture after one more store is the texture after the earlier
    stores, with that store done to it. *)
Lemma texture_of_insert (Desc : FRDGTextureDesc) (stores : gmap uint2 (float2 F))
    (p : uint2) (v : float2 F) :
  texture_of convert Desc (<[p := v]> stores)
  = store convert Desc p v (texture_of convert Desc stores).
Proof.
  apply map_eq. intros q. unfold store. rewrite texture_of_lookup.
  destruct (decide (q = p)) as [-> | Hne].
  - rewrite lookup_insert_eq.
    destruct (in_extent Desc p) eqn:Hp.
    + now rewrite lookup_insert_eq.
    + now rewrite texture_of_lookup, Hp.
  - rewrite lookup_insert_ne by congruence.
    destruct (in_extent Desc p).
    + rewrite lookup_insert_ne by congruence. now rewrite texture_of_lookup.
    + now rewrite texture_of_lookup.
Qed.

(** A stored channel is a value of the format: a value that is not one
    is not what the texel holds. *)
Lemma converted_channel_differs (is_format : F -> bool) (Desc : FRDGTextureDesc)
    (stores : gmap uint2 (float2 F)) (q : uint2) (v0 d c0 c1 : F) :
  in_extent Desc q = true ->
  stores !! q = Some (mk2 v0 d) ->
  is_format d = false ->
  is_format (convert (Format Desc) d) = true ->
  texture_of convert Desc stores !! q = Some (mk2 c0 c1) ->
  c1 <> d.
Proof.
  intros Hin Hs Hnot Hfmt Htex Heq.
  rewrite texture_of_lookup, Hin, Hs in Htex.
  cbn [fmap option_fmap option_map] in Htex. unfold to_format in Htex.
  cbn [x2 y2] in Htex. injection Htex as _ Hc1.
  congruence.
Qed.

(** C3, as the code has it.  The host gives the texture behind
    [RWShadowFactors] the extent of the view rectangle and the format
    [PF_G16R16F].  After any invocation of [Main_CS] the texture is as
    it was, but for one store to the pixel's own texel, of a value that
    does not depend on the earlier writes of [(test.z, test.w)] and
    [(0, 1)].  For a pixel inside the extent, channel 0 of the texel is
    0.0 when the surface faces away from the light or some step met the
    hit condition, and 1.0 when all 64 steps passed without one (the
    format is taken to hold 0.0 and 1.0 as they are); channel 1 is the
    pixel's scene depth converted to the format.  An invocation for a
    pixel outside the extent has no texel of its own and leaves the
    texture as it was. *)
Theorem Main_CS_final_value (View : FViewInfo F) (env : ShaderEnv F)
    (gid tid gtid : uint3) (uav : UAVs F) (k : nat) :
  convert PF_G16R16F (flit 0) = flit 0 ->
  convert PF_G16R16F (flit 1) = flit 1 ->
  let Desc := ScreenSpaceShadowTextureDesc View in
  let channel0 :=
    if fle (NdotL env tid) (flit 0) || some_step_stops env tid then flit 0 else flit 1 in
  Extent Desc = (Width (ViewRect View), Height (ViewRect View))
  /\ Format Desc = PF_G16R16F
  /\ exists uav', Main_CS (enough k) env gid tid gtid uav = Some uav'
       /\ texture_of convert Desc (RWShadowFactors uav')
          = store convert Desc (uxy tid) (mk2 channel0 (SceneDepth env tid))
                  (texture_of convert Desc (RWShadowFactors uav))
       /\ (in_extent Desc (uxy tid) = true ->
           texture_of convert Desc (RWShadowFactors uav') !! uxy tid
           = Some (mk2 channel0 (convert PF_G16R16F (SceneDepth env tid))))
       /\ (in_extent Desc (uxy tid) = false ->
           texture_of convert Desc (RWShadowFactors uav') !! uxy tid = None
           /\ texture_of convert Desc (RWShadowFactors uav')
              = texture_of convert Desc (RWShadowFactors uav)).
Proof.
  intros H0 H1 Desc channel0.
  split; [reflexivity |]. split; [reflexivity |].
  destruct (Main_CS_result env gid tid gtid uav k) as (uav' & Hm & Hrw).
  assert (Hv : final_value env tid = mk2 channel0 (SceneDepth env tid)).
  { unfold final_value, shadowed_value, unshadowed_value, channel0.
    destruct (fle (NdotL env tid) (flit 0) || some_step_stops env tid); reflexivity. }
  exists uav'. split; [exact Hm |].
  rewrite Hrw, texture_of_insert, Hv. split; [reflexivity |].
  unfold store. split.
  - intros Hin. rewrite Hin, lookup_insert_eq. unfold to_format; cbn [x2 y2].
    change (Format Desc) with PF_G16R16F. f_equal. f_equal.
    unfold channel0.
    destruct (fle (NdotL env tid) (flit 0) || some_step_stops env tid); assumption.
  - intros Hout. rewrite Hout. split; [| reflexivity].
    now rewrite texture_of_lookup, Hout.
Qed.

End TextureFacts.

(** ** The depth comparison read as an interval *)

Module ExactFacts.
Import Exact.

Lemma Qltb_lt (a b : Q) : Qltb a b = true <-> (a < b)%Q.
Proof.
  unfold Qltb. rewrite Qlt_alt.
  destruct (a ?= b)%Q; split; intros Hc; (reflexivity || discriminate).
Qed.

(** In exact arithmetic [abs(d + T) < T] says that [d] lies strictly
    between [-2T] and [0]. *)
Lemma Hit_test_band (d T : Q) (s : bool) :
  Hit_test d T s = true <-> ((- (2 * T) < d)%Q /\ (d < 0)%Q) /\ s = false.
Proof.
  unfold Hit_test.
  change (fabs (fadd d T)) with (Qabs (d + T)).
  change (flt (Qabs (d + T)) T) with (Qltb (Qabs (d + T)) T).
  rewrite andb_true_iff, negb_true_iff, Qltb_lt, Qabs_Qlt_condition.
  split; intros [[H1 H2] H3]; (split; [split; lra | exact H3]).
Qed.

(** C1, as the code has it.  At every step the hit test is
    [abs(depthDiff + CompareTolerance) < CompareTolerance] and not
    [selfOcclusion]; in exact arithmetic that is: the signed difference
    lies strictly between [-2 * CompareTolerance] and [0], and the
    sample is not a self-intersection.  The band is centred on
    [-CompareTolerance], not on zero. *)
Theorem hit_band (env : ShaderEnv Q) (tid : uint3) (t : Q) :
  Hit env tid t = true
  <-> ((- (2 * CompareTolerance env tid) < depthDiff env tid t)%Q
       /\ (depthDiff env tid t < 0)%Q)
      /\ selfOcclusion env tid t = false.
Proof.
  unfold Hit.
  set (d := depthDiff env tid t). set (T := CompareTolerance env tid).
  set (s := selfOcclusion env tid t).
  unfold Hit_test.
  change (flt (fabs (fadd d T)) T) with (Qltb (Qabs (d + T)) T).
  rewrite andb_true_iff, negb_true_iff, Qltb_lt, Qabs_Qlt_condition.
  split.
  - intros [[Hlo Hhi] Hs]. split; [split; lra | exact Hs].
  - intros [[Hlo Hhi] Hs]. split; [split; lra | exact Hs].
Qed.

(** In exact arithmetic a sample at the ray's own starting depth is a
    self-intersection. *)
Lemma own_depth_self_occludes_exact (z : Q) : selfOcclusion_test z z = true.
Proof.
  unfold selfOcclusion_test.
  change (flt (fabs (fsub z z)) (flit 1e-5)) with (Qltb (Qabs (z - z)) 1e-5).
  apply Qltb_lt. apply Qabs_Qlt_condition.
  change (1e-5)%Q with (1 # 100000)%Q. split; lra.
Qed.

End ExactFacts.

(** ** Which texture slots an invocation writes *)

Section Frame.
Context {F : Type} `{HLSLFloat F}.

(** Away from pixel (233, 250) the loop leaves [testFactors] alone. *)
Lemma march_test_quiet (fuel : nat) :
  forall (env : ShaderEnv F) (tid : uint3) (i : Z) (t : F) (uav : UAVs F) j uav',
  debugPixel tid = false ->
  march fuel env tid i t uav = Some (j, uav') ->
  testFactors uav' = testFactors uav.
Proof.
  induction fuel as [| fuel IH]; intros env tid i t uav j uav' Hd Hm; [discriminate |].
  simpl in Hm. destruct (i <? NumSteps).
  - unfold march_body in Hm. rewrite (debug_block_quiet _ _ _ _ Hd) in Hm.
    destruct (Hit env tid t && inside01 (xy3 (sampleUVZ env tid t))).
    + injection Hm as <- <-. reflexivity.
    + now apply IH in Hm.
  - injection Hm as <- <-. reflexivity.
Qed.

Lemma Main_CS_test_quiet (fuel : nat) (env : ShaderEnv F) (gid tid gtid : uint3)
    (uav uav' : UAVs F) :
  debugPixel tid = false ->
  Main_CS fuel env gid tid gtid uav = Some uav' ->
  forall q : uint2, q <> uxy tid -> testFactors uav' !! q = testFactors uav !! q.
Proof.
  intros Hd Hm q Hq. rewrite Main_CS_unfold in Hm.
  destruct (fle (NdotL env tid) (flit 0)).
  - injection Hm as <-. reflexivity.
  - destruct (march fuel env tid 0 (sampleTime0 env tid) (before_loop env tid uav))
      as [[j u] |] eqn:Hmarch; [| discriminate].
    injection Hm as <-. simpl.
    rewrite (march_test_quiet _ _ _ _ _ _ _ _ Hd Hmarch).
    unfold before_loop, write_test; simpl. now rewrite lookup_insert_ne.
Qed.

(** For pixel (233, 250) the debug block leaves [(1.0, 0.0)] in the
    pixel's own slot of [testFactors]. *)
Lemma debug_block_own (env : ShaderEnv F) (tid : uint3) (t : F) (uav : UAVs F) :
  debugPixel tid = true ->
  testFactors (debug_block env tid t uav) !! uxy tid = Some (mk2 (flit 1) (flit 0)).
Proof.
  intros Hd. unfold debug_block. rewrite Hd.
  destruct (inside01 _); unfold write_test; cbn [testFactors].
  - destruct (decide (samplePixelInt env tid t = uxy tid)) as [-> | Hne].
    + apply lookup_insert_eq.
    + rewrite lookup_insert_ne by exact Hne. apply lookup_insert_eq.
  - apply lookup_insert_eq.
Qed.

(** For that pixel, one execution of the loop body is enough to leave
    [(1.0, 0.0)] there. *)
Lemma march_test_own (fuel : nat) :
  forall (env : ShaderEnv F) (tid : uint3) (i : Z) (t : F) (uav : UAVs F) j uav',
  debugPixel tid = true ->
  march fuel env tid i t uav = Some (j, uav') ->
  testFactors uav' !! uxy tid
  = if i <? NumSteps then Some (mk2 (flit 1) (flit 0)) else testFactors uav !! uxy tid.
Proof.
  induction fuel as [| fuel IH]; intros env tid i t uav j uav' Hd Hm; [discriminate |].
  cbn [march] in Hm. destruct (i <? NumSteps).
  - unfold march_body in Hm.
    destruct (Hit env tid t && inside01 (xy3 (sampleUVZ env tid t))).
    + injection Hm as <- <-. unfold write_shadow; cbn [testFactors].
      now apply debug_block_own.
    + apply IH in Hm; [| exact Hd]. rewrite Hm.
      destruct (i + 1 <? NumSteps); [reflexivity | now apply debug_block_own].
  - injection Hm as <- <-. reflexivity.
Qed.

(** What an invocation leaves in its own slot of [testFactors]. *)
Lemma Main_CS_test_own (fuel : nat) (env : ShaderEnv F) (gid tid gtid : uint3)
    (uav uav' : UAVs F) :
  Main_CS fuel env gid tid gtid uav = Some uav' ->
  if fle (NdotL env tid) (flit 0) then testFactors uav' = testFactors uav
  else testFactors uav' !! uxy tid
       = Some (mk2 (if debugPixel tid then flit 1 else flit 0) (flit 0)).
Proof.
  intros Hm. rewrite Main_CS_unfold in Hm.
  destruct (fle (NdotL env tid) (flit 0)).
  - injection Hm as <-. reflexivity.
  - destruct (march fuel env tid 0 (sampleTime0 env tid) (before_loop env tid uav))
      as [[j u] |] eqn:Hmarch; [| discriminate].
    injection Hm as <-. cbn [snd].
    destruct (debugPixel tid) eqn:Hd.
    + rewrite (march_test_own _ _ _ _ _ _ _ _ Hd Hmarch). reflexivity.
    + rewrite (march_test_quiet _ _ _ _ _ _ _ _ Hd Hmarch).
      unfold before_loop, write_test; cbn [testFactors]. apply lookup_insert_eq.
Qed.

End Frame.

(** ** The debug test, in binary32 *)

Module UintFloat.
Import Binary32.

(** Shifting a positive mantissa right by fewer places than it has
    digits leaves a positive mantissa. *)
Lemma iter_shr_1_pos (k : positive) :
  forall (q : positive) (r s : bool),
  Zpos k < Zpos (digits2_pos q) ->
  exists (q' : positive) (r' s' : bool),
    SpecFloat.iter_pos shr_1 k (Build_shr_record (Zpos q) r s) = Build_shr_record (Zpos q') r' s'
    /\ Zpos (digits2_pos q') = Zpos (digits2_pos q) - Zpos k.
Proof.
  assert (Hone : forall (q : positive) (r s : bool),
             1 < Zpos (digits2_pos q) ->
             exists (q' : positive) (r' s' : bool),
               shr_1 (Build_shr_record (Zpos q) r s) = Build_shr_record (Zpos q') r' s'
               /\ Zpos (digits2_pos q') = Zpos (digits2_pos q) - 1).
  { intros [q | q |] r s Hd; cbn [digits2_pos] in *.
    - exists q, true, (r || s). split; [reflexivity | lia].
    - exists q, false, (r || s). split; [reflexivity | lia].
    - lia. }
  induction k as [k IH | k IH |]; intros q r s Hk; cbn [SpecFloat.iter_pos].
  - destruct (Hone q r s) as (q1 & r1 & s1 & -> & Hd1); [lia |].
    destruct (IH q1 r1 s1) as (q2 & r2 & s2 & -> & Hd2); [lia |].
    destruct (IH q2 r2 s2) as (q3 & r3 & s3 & -> & Hd3); [lia |].
    exists q3, r3, s3. split; [reflexivity | lia].
  - destruct (IH q r s) as (q2 & r2 & s2 & -> & Hd2); [lia |].
    destruct (IH q2 r2 s2) as (q3 & r3 & s3 & -> & Hd3); [lia |].
    exists q3, r3, s3. split; [reflexivity | lia].
  - destruct (Hone q r s) as (q1 & r1 & s1 & -> & Hd1); [lia |].
    exists q1, r1, s1. split; [reflexivity | lia].
Qed.

(** One rounding shift of binary32 on a positive mantissa: the mantissa
    stays positive and the exponent does not go down. *)
Lemma shr_fexp_pos (q : positive) (e : Z) (l : location) :
  -148 <= e ->
  exists (mrs : shr_record) (e' : Z) (q' : positive),
    shr_fexp prec emax (Zpos q) e l = (mrs, e') /\ e <= e' /\ shr_m mrs = Zpos q'.
Proof.
  intros He. unfold shr_fexp, shr.
  set (n := fexp prec emax (Zdigits2 (Zpos q) + e) - e).
  assert (Hn : n < Zpos (digits2_pos q)).
  { subst n. unfold fexp, emin, prec, emax. cbn [Zdigits2]. lia. }
  assert (Hrec : exists r s, shr_record_of_loc (Zpos q) l = Build_shr_record (Zpos q) r s).
  { destruct l as [| []]; cbn; eauto. }
  destruct Hrec as (r & s & ->).
  destruct n as [| k | k].
  - exists (Build_shr_record (Zpos q) r s), e, q. repeat split; lia.
  - destruct (iter_shr_1_pos k q r s Hn) as (q' & r' & s' & -> & _).
    exists (Build_shr_record (Zpos q') r' s'), (e + Zpos k), q'. repeat split; lia.
  - exists (Build_shr_record (Zpos q) r s), e, q. repeat split; lia.
Qed.

Lemma round_nearest_even_pos (q : positive) (l : location) :
  exists q' : positive, round_nearest_even (Zpos q) l = Zpos q'.
Proof.
  destruct l as [| []]; cbn [round_nearest_even].
  - exists q. reflexivity.
  - destruct (Z.even (Zpos q)); [exists q | exists (q + 1)%positive]; reflexivity.
  - exists q. reflexivity.
  - exists (q + 1)%positive. reflexivity.
Qed.

(** Rounding a positive mantissa with an exponent of at least -23
    to binary32 gives a positive finite number with such an exponent, or
    plus infinity. *)
Lemma binary_round_aux_pos (q : positive) (e : Z) (l : location) :
  -23 <= e ->
  (exists (m : positive) (e' : Z),
      binary_round_aux prec emax false (Zpos q) e l = S754_finite false m e' /\ -23 <= e')
  \/ binary_round_aux prec emax false (Zpos q) e l = S754_infinity false.
Proof.
  intros He. unfold binary_round_aux.
  destruct (shr_fexp_pos q e l) as (mrs1 & e1 & q1 & -> & He1 & Hm1); [lia |].
  rewrite Hm1.
  destruct (round_nearest_even_pos q1 (loc_of_shr_record mrs1)) as (q2 & ->).
  destruct (shr_fexp_pos q2 e1 loc_Exact) as (mrs2 & e2 & q3 & -> & He2 & ->); [lia |].
  destruct (e2 <=? emax - prec); [left | right; reflexivity].
  exists q3, e2. split; [reflexivity | lia].
Qed.

(** The conversion of a positive integer. *)
Lemma of_Z_pos (p : positive) :
  (exists (m : positive) (e : Z), of_Z (Zpos p) = S754_finite false m e /\ -23 <= e)
  \/ of_Z (Zpos p) = S754_infinity false.
Proof.
  unfold of_Z, binary_normalize, binary_round, shl_align.
  set (e' := fexp prec emax (Zpos (digits2_pos p) + 0)).
  assert (He' : -23 <= e').
  { subst e'. unfold fexp, emin, prec, emax. lia. }
  destruct (e' - 0) eqn:Hd; apply binary_round_aux_pos; lia.
Qed.

(** [abs(float(n)) < 0.01] holds of the unsigned integer 0 only. *)
Lemma uint_below_001 (n : N) :
  flt (F := spec_float) (fabs (of_uint n)) (flit 0.01) = (n =? 0)%N.
Proof.
  destruct n as [| p]; [vm_compute; reflexivity |].
  change (of_uint (F := spec_float) (N.pos p)) with (of_Z (Zpos p)). cbn [N.eqb].
  destruct (of_Z_pos p) as [(m & e & -> & He) | ->]; [| reflexivity].
  change (flit (F := spec_float) 0.01) with (of_Q 0.01).
  assert (Hc : exists m0 e0, of_Q 0.01 = S754_finite false m0 e0 /\ e0 < -23).
  { eexists _, _. split; [vm_compute; reflexivity | lia]. }
  destruct Hc as (m0 & e0 & -> & He0).
  cbn. unfold SFltb, SFcompare.
  destruct (Z.compare_spec e e0); [lia | lia | reflexivity].
Qed.

Lemma uint_sub_zero (a : N) (b : Z) :
  (a < 2 ^ 32)%N -> 0 <= b < 2 ^ 32 -> (uint_sub a b =? 0)%N = (Z.of_N a =? b).
Proof.
  intros Ha Hb. unfold uint_sub.
  assert (Ha' : 0 <= Z.of_N a < 2 ^ 32) by lia.
  destruct (Z.eqb_spec (Z.of_N a) b) as [-> | Hne].
  - rewrite Z.sub_diag. reflexivity.
  - apply N.eqb_neq. intros Hz.
    assert (Hm : (Z.of_N a - b) mod 2 ^ 32 = 0).
    { pose proof (Z.mod_pos_bound (Z.of_N a - b) (2 ^ 32) ltac:(lia)). lia. }
    apply Z.mod_divide in Hm; [| lia]. destruct Hm as [c Hc]. lia.
Qed.

(** For thread indices that are [uint] values, the debug test singles
    out pixel (233, 250). *)
Lemma debugPixel_spec (tid : uint3) :
  (ux3 tid < 2 ^ 32)%N -> (uy3 tid < 2 ^ 32)%N ->
  debugPixel (F := spec_float) tid = true <-> uxy tid = mku2 233 250.
Proof.
  destruct tid as [x y z]. cbn [ux3 uy3 uxy]. intros Hx Hy.
  unfold debugPixel. cbn [ux3 uy3]. rewrite !uint_below_001.
  rewrite !uint_sub_zero by (assumption || lia).
  rewrite andb_true_iff, !Z.eqb_eq. split.
  - intros [H1 H2]. unfold uxy. cbn [ux3 uy3]. f_equal; lia.
  - unfold uxy. cbn [ux3 uy3]. intros Heq. injection Heq as -> ->. split; reflexivity.
Qed.

End UintFloat.

(** ** Which texture slots an invocation writes, in binary32 *)

Module FrameBinary32.
Import Binary32 UintFloat.

(** C7, as the code has it.  An invocation changes [RWShadowFactors]
    at the invoking pixel's own slot only, by what amounts to one write
    whose value does not depend on the textures' earlier contents, so
    two invocations for different pixels leave the same
    [RWShadowFactors] in either order; the G-buffer is an input, which
    no invocation can change.  The second texture, [testFactors], is
    also written: an invocation that is not rejected as back-facing
    leaves [(0.0, 0.0)] in its own slot, or [(1.0, 0.0)] when it is the
    one for pixel (233, 250); a back-facing one leaves [testFactors] as
    it was; and every invocation other than the one for pixel
    (233, 250) leaves all other slots of [testFactors] as they were.
    A slot is the coordinate of a store the shader issues; the thread
    indices are [uint] values, below [2^32]. *)
Theorem shadow_factors_own_slot_only (env : ShaderEnv spec_float)
    (gid1 tid1 gtid1 gid2 tid2 gtid2 : uint3) (uav : UAVs spec_float) (k : nat) :
  uxy tid1 <> uxy tid2 ->
  (ux3 tid1 < 2 ^ 32)%N ->
  (uy3 tid1 < 2 ^ 32)%N ->
  exists u1 u12 u2 u21,
    Main_CS (enough k) env gid1 tid1 gtid1 uav = Some u1
    /\ Main_CS (enough k) env gid2 tid2 gtid2 u1 = Some u12
    /\ Main_CS (enough k) env gid2 tid2 gtid2 uav = Some u2
    /\ Main_CS (enough k) env gid1 tid1 gtid1 u2 = Some u21
    /\ RWShadowFactors u1 = <[uxy tid1 := final_value env tid1]> (RWShadowFactors uav)
    /\ (forall q : uint2, q <> uxy tid1 ->
                          RWShadowFactors u1 !! q = RWShadowFactors uav !! q)
    /\ RWShadowFactors u12 = RWShadowFactors u21
    /\ (fle (NdotL env tid1) (flit 0) = true -> testFactors u1 = testFactors uav)
    /\ (fle (NdotL env tid1) (flit 0) = false -> uxy tid1 <> mku2 233 250 ->
        testFactors u1 !! uxy tid1 = Some (mk2 (flit 0) (flit 0)))
    /\ (fle (NdotL env tid1) (flit 0) = false -> uxy tid1 = mku2 233 250 ->
        testFactors u1 !! uxy tid1 = Some (mk2 (flit 1) (flit 0)))
    /\ (uxy tid1 <> mku2 233 250 ->
        forall q : uint2, q <> uxy tid1 -> testFactors u1 !! q = testFactors uav !! q).
Proof.
  intros Hne Hx Hy.
  pose proof (debugPixel_spec tid1 Hx Hy) as Hdbg.
  destruct (Main_CS_result env gid1 tid1 gtid1 uav k) as (u1 & H1 & R1).
  destruct (Main_CS_result env gid2 tid2 gtid2 u1 k) as (u12 & H12 & R12).
  destruct (Main_CS_result env gid2 tid2 gtid2 uav k) as (u2 & H2 & R2).
  destruct (Main_CS_result env gid1 tid1 gtid1 u2 k) as (u21 & H21 & R21).
  pose proof (Main_CS_test_own _ _ _ _ _ _ _ H1) as Hown.
  exists u1, u12, u2, u21. repeat (split; [assumption |]).
  split; [intros q Hq; rewrite R1; now apply lookup_insert_ne |].
  split; [rewrite R12, R1, R21, R2; now apply insert_insert_ne |].
  split; [intros Hb; now rewrite Hb in Hown |].
  split.
  { intros Hb Hpx. rewrite Hb in Hown.
    destruct (debugPixel tid1) eqn:Hd; [| exact Hown].
    exfalso. apply Hpx, Hdbg. reflexivity. }
  split.
  { intros Hb Hpx. rewrite Hb in Hown.
    apply Hdbg in Hpx. now rewrite Hpx in Hown. }
  intros Hpx.
  apply (Main_CS_test_quiet _ _ _ _ _ _ _) with (2 := H1).
  destruct (debugPixel tid1) eqn:Hd; [| reflexivity].
  exfalso. apply Hpx, Hdbg. reflexivity.
Qed.

End FrameBinary32.

(** ** The fourth component of the light parameter *)

Section Light.
Context {F : Type} `{HLSLFloat F}.

(** Every value the shader computes is the same for every fourth
    component of the light parameter; one equation per definition, each
    from the equations of the definitions it uses. *)
Create Rewrite HintDb light_w.

Tactic Notation "light_w_eq" reference(D) :=
  intros; unfold D; autorewrite with light_w; reflexivity.

Lemma LightDirection_light_w (env : ShaderEnv F) (w : F) :
  LightDirection (with_light_w env w) = LightDirection env.
Proof. reflexivity. Qed.
Hint Rewrite LightDirection_light_w : light_w.

Lemma TanViewFOV_light_w (env : ShaderEnv F) (w : F) :
  TanViewFOV (with_light_w env w) = TanViewFOV env.
Proof. reflexivity. Qed.
Hint Rewrite TanViewFOV_light_w : light_w.

Lemma ScreenUV_light_w (env : ShaderEnv F) (w : F) (tid : uint3) :
  ScreenUV (with_light_w env w) tid = ScreenUV env tid.
Proof. light_w_eq ScreenUV. Qed.
Hint Rewrite ScreenUV_light_w : light_w.

Lemma ScreenPosition_light_w (env : ShaderEnv F) (w : F) (tid : uint3) :
  ScreenPosition (with_light_w env w) tid = ScreenPosition env tid.
Proof. light_w_eq ScreenPosition. Qed.
Hint Rewrite ScreenPosition_light_w : light_w.

Lemma GBuffer_light_w (env : ShaderEnv F) (w : F) (tid : uint3) :
  GBuffer (with_light_w env w) tid = GBuffer env tid.
Proof. light_w_eq GBuffer. Qed.
Hint Rewrite GBuffer_light_w : light_w.

Lemma N__light_w (env : ShaderEnv F) (w : F) (tid : uint3) :
  N_ (with_light_w env w) tid = N_ env tid.
Proof. light_w_eq N_. Qed.
Hint Rewrite N__light_w : light_w.

Lemma SceneDepth_light_w (env : ShaderEnv F) (w : F) (tid : uint3) :
  SceneDepth (with_light_w env w) tid = SceneDepth env tid.
Proof. light_w_eq SceneDepth. Qed.
Hint Rewrite SceneDepth_light_w : light_w.

Lemma PositionTranslatedWorld_light_w (env : ShaderEnv F) (w : F) (tid : uint3) :
  PositionTranslatedWorld (with_light_w env w) tid = PositionTranslatedWorld env tid.
Proof. light_w_eq PositionTranslatedWorld. Qed.
Hint Rewrite PositionTranslatedWorld_light_w : light_w.

Lemma test_light_w (env : ShaderEnv F) (w : F) (tid : uint3) :
  test (with_light_w env w) tid = test env tid.
Proof. light_w_eq test. Qed.
Hint Rewrite test_light_w : light_w.

Lemma Dither_light_w (env : ShaderEnv F) (w : F) (tid : uint3) :
  Dither (with_light_w env w) tid = Dither env tid.
Proof. light_w_eq Dither. Qed.
Hint Rewrite Dither_light_w : light_w.

Lemma NdotL_light_w (env : ShaderEnv F) (w : F) (tid : uint3) :
  NdotL (with_light_w env w) tid = NdotL env tid.
Proof. light_w_eq NdotL. Qed.
Hint Rewrite NdotL_light_w : light_w.

Lemma contactShadowLengthScreenScale_light_w (env : ShaderEnv F) (w : F) (tid : uint3) :
  contactShadowLengthScreenScale (with_light_w env w) tid = contactShadowLengthScreenScale env tid.
Proof. light_w_eq contactShadowLengthScreenScale. Qed.
Hint Rewrite contactShadowLengthScreenScale_light_w : light_w.

Lemma RayLength_light_w (env : ShaderEnv F) (w : F) (tid : uint3) :
  RayLength (with_light_w env w) tid = RayLength env tid.
Proof. light_w_eq RayLength. Qed.
Hint Rewrite RayLength_light_w : light_w.

Lemma startClip_light_w (env : ShaderEnv F) (w : F) (tid : uint3) :
  startClip (with_light_w env w) tid = startClip env tid.
Proof. light_w_eq startClip. Qed.
Hint Rewrite startClip_light_w : light_w.

Lemma dirClip_light_w (env : ShaderEnv F) (w : F) (tid : uint3) :
  dirClip (with_light_w env w) tid = dirClip env tid.
Proof. light_w_eq dirClip. Qed.
Hint Rewrite dirClip_light_w : light_w.

Lemma endClip_light_w (env : ShaderEnv F) (w : F) (tid : uint3) :
  endClip (with_light_w env w) tid = endClip env tid.
Proof. light_w_eq endClip. Qed.
Hint Rewrite endClip_light_w : light_w.

Lemma startScreen_light_w (env : ShaderEnv F) (w : F) (tid : uint3) :
  startScreen (with_light_w env w) tid = startScreen env tid.
Proof. light_w_eq startScreen. Qed.
Hint Rewrite startScreen_light_w : light_w.

Lemma endScreen_light_w (env : ShaderEnv F) (w : F) (tid : uint3) :
  endScreen (with_light_w env w) tid = endScreen env tid.
Proof. light_w_eq endScreen. Qed.
Hint Rewrite endScreen_light_w : light_w.

Lemma stepScreen_light_w (env : ShaderEnv F) (w : F) (tid : uint3) :
  stepScreen (with_light_w env w) tid = stepScreen env tid.
Proof. light_w_eq stepScreen. Qed.
Hint Rewrite stepScreen_light_w : light_w.

Lemma startUVZ_light_w (env : ShaderEnv F) (w : F) (tid : uint3) :
  startUVZ (with_light_w env w) tid = startUVZ env tid.
Proof. light_w_eq startUVZ. Qed.
Hint Rewrite startUVZ_light_w : light_w.

Lemma stepUVZ_light_w (env : ShaderEnv F) (w : F) (tid : uint3) :
  stepUVZ (with_light_w env w) tid = stepUVZ env tid.
Proof. light_w_eq stepUVZ. Qed.
Hint Rewrite stepUVZ_light_w : light_w.

Lemma depthClip_light_w (env : ShaderEnv F) (w : F) (tid : uint3) :
  depthClip (with_light_w env w) tid = depthClip env tid.
Proof. light_w_eq depthClip. Qed.
Hint Rewrite depthClip_light_w : light_w.

Lemma depthScreen_light_w (env : ShaderEnv F) (w : F) (tid : uint3) :
  depthScreen (with_light_w env w) tid = depthScreen env tid.
Proof. light_w_eq depthScreen. Qed.
Hint Rewrite depthScreen_light_w : light_w.

Lemma stepOffset_light_w (env : ShaderEnv F) (w : F) (tid : uint3) :
  stepOffset (with_light_w env w) tid = stepOffset env tid.
Proof. light_w_eq stepOffset. Qed.
Hint Rewrite stepOffset_light_w : light_w.

Lemma sampleTime0_light_w (env : ShaderEnv F) (w : F) (tid : uint3) :
  sampleTime0 (with_light_w env w) tid = sampleTime0 env tid.
Proof. light_w_eq sampleTime0. Qed.
Hint Rewrite sampleTime0_light_w : light_w.

Lemma CompareTolerance_light_w (env : ShaderEnv F) (w : F) (tid : uint3) :
  CompareTolerance (with_light_w env w) tid = CompareTolerance env tid.
Proof. light_w_eq CompareTolerance. Qed.
Hint Rewrite CompareTolerance_light_w : light_w.

Lemma shadowed_value_light_w (env : ShaderEnv F) (w : F) (tid : uint3) :
  shadowed_value (with_light_w env w) tid = shadowed_value env tid.
Proof. light_w_eq shadowed_value. Qed.
Hint Rewrite shadowed_value_light_w : light_w.

Lemma sampleUVZ_light_w (env : ShaderEnv F) (w : F) (tid : uint3) (t : F) :
  sampleUVZ (with_light_w env w) tid t = sampleUVZ env tid t.
Proof. light_w_eq sampleUVZ. Qed.
Hint Rewrite sampleUVZ_light_w : light_w.

Lemma sampleDepthWorld_light_w (env : ShaderEnv F) (w : F) (tid : uint3) (t : F) :
  sampleDepthWorld (with_light_w env w) tid t = sampleDepthWorld env tid t.
Proof. light_w_eq sampleDepthWorld. Qed.
Hint Rewrite sampleDepthWorld_light_w : light_w.

Lemma sampleDepth_light_w (env : ShaderEnv F) (w : F) (tid : uint3) (t : F) :
  sampleDepth (with_light_w env w) tid t = sampleDepth env tid t.
Proof. light_w_eq sampleDepth. Qed.
Hint Rewrite sampleDepth_light_w : light_w.

Lemma depthDiff_light_w (env : ShaderEnv F) (w : F) (tid : uint3) (t : F) :
  depthDiff (with_light_w env w) tid t = depthDiff env tid t.
Proof. light_w_eq depthDiff. Qed.
Hint Rewrite depthDiff_light_w : light_w.

Lemma selfOcclusion_light_w (env : ShaderEnv F) (w : F) (tid : uint3) (t : F) :
  selfOcclusion (with_light_w env w) tid t = selfOcclusion env tid t.
Proof. light_w_eq selfOcclusion. Qed.
Hint Rewrite selfOcclusion_light_w : light_w.

Lemma Hit_light_w (env : ShaderEnv F) (w : F) (tid : uint3) (t : F) :
  Hit (with_light_w env w) tid t = Hit env tid t.
Proof. light_w_eq Hit. Qed.
Hint Rewrite Hit_light_w : light_w.

Lemma samplePixel_light_w (env : ShaderEnv F) (w : F) (tid : uint3) (t : F) :
  samplePixel (with_light_w env w) tid t = samplePixel env tid t.
Proof. light_w_eq samplePixel. Qed.
Hint Rewrite samplePixel_light_w : light_w.

Lemma samplePixelInt_light_w (env : ShaderEnv F) (w : F) (tid : uint3) (t : F) :
  samplePixelInt (with_light_w env w) tid t = samplePixelInt env tid t.
Proof. light_w_eq samplePixelInt. Qed.
Hint Rewrite samplePixelInt_light_w : light_w.

Lemma debug_block_light_w (env : ShaderEnv F) (w : F) (tid : uint3) (t : F) (uav : UAVs F) :
  debug_block (with_light_w env w) tid t uav = debug_block env tid t uav.
Proof. light_w_eq debug_block. Qed.
Hint Rewrite debug_block_light_w : light_w.

Lemma march_body_light_w (env : ShaderEnv F) (w : F) (tid : uint3) (t : F) (uav : UAVs F) :
  march_body (with_light_w env w) tid t uav = march_body env tid t uav.
Proof. light_w_eq march_body. Qed.

Lemma before_loop_light_w (env : ShaderEnv F) (w : F) (tid : uint3) (uav : UAVs F) :
  before_loop (with_light_w env w) tid uav = before_loop env tid uav.
Proof. light_w_eq before_loop. Qed.

Lemma march_light_w (fuel : nat) :
  forall (env : ShaderEnv F) (w : F) (tid : uint3) (i : Z) (t : F) (uav : UAVs F),
  march fuel (with_light_w env w) tid i t uav = march fuel env tid i t uav.
Proof.
  induction fuel as [| fuel IH]; intros env w tid i t uav; [reflexivity |].
  simpl. destruct (i <? NumSteps); [| reflexivity].
  rewrite march_body_light_w.
  destruct (march_body env tid t uav); [reflexivity | apply IH].
Qed.

Lemma Main_CS_light_w (fuel : nat) (env : ShaderEnv F) (w : F) (gid tid gtid : uint3)
    (uav : UAVs F) :
  Main_CS fuel (with_light_w env w) gid tid gtid uav = Main_CS fuel env gid tid gtid uav.
Proof.
  rewrite !Main_CS_unfold.
  rewrite NdotL_light_w, shadowed_value_light_w, test_light_w, march_light_w,
    sampleTime0_light_w, before_loop_light_w.
  reflexivity.
Qed.

End Light.

(** ** The dispatch *)

Lemma to_int32_range (z : Z) : - 2 ^ 31 <= to_int32 z < 2 ^ 31.
Proof. unfold to_int32. pose proof (Z.mod_pos_bound (z + 2 ^ 31) (2 ^ 32)). lia. Qed.

Lemma to_int32_small (z : Z) : - 2 ^ 31 <= z < 2 ^ 31 -> to_int32 z = z.
Proof. intros Hz. unfold to_int32. rewrite Z.mod_small; lia. Qed.

Lemma to_int32_idem (z : Z) : to_int32 (to_int32 z) = to_int32 z.
Proof. apply to_int32_small, to_int32_range. Qed.

Lemma to_uint32_range (z : Z) : 0 <= to_uint32 z < 2 ^ 32.
Proof. unfold to_uint32. apply Z.mod_pos_bound. lia. Qed.

(** A non-zero [uint32] stays non-zero when it is passed as an [int32]. *)
Lemma to_int32_nonzero (g : Z) : 0 <= g < 2 ^ 32 -> g <> 0 -> to_int32 g <> 0.
Proof.
  intros Hg Hnz. unfold to_int32.
  destruct (Z_lt_ge_dec g (2 ^ 31)) as [Hlt | Hge].
  - rewrite Z.mod_small; lia.
  - replace (g + 2 ^ 31) with (g - 2 ^ 31 + 1 * 2 ^ 32) by lia.
    rewrite Z.mod_add by lia. rewrite Z.mod_small; lia.
Qed.

(** On the widths a view can have, [DivideAndRoundUp] by 8 is the
    ceiling of the quotient. *)
Lemma DivideAndRoundUp_ceiling (w : Z) :
  0 <= w <= 2 ^ 31 - 8 ->
  DivideAndRoundUp w 8 = (w + 7) / 8
  /\ 8 * (DivideAndRoundUp w 8 - 1) < w <= 8 * DivideAndRoundUp w 8.
Proof.
  intros Hw. unfold DivideAndRoundUp.
  rewrite (to_int32_small (w + 8 - 1)) by lia.
  rewrite Z.quot_div_nonneg by lia.
  replace (w + 8 - 1) with (w + 7) by lia.
  assert (Hq : 0 <= (w + 7) / 8 <= w + 7).
  { split; [apply Z.div_pos; lia | apply Z.div_le_upper_bound; lia]. }
  rewrite to_int32_small by lia.
  split; [reflexivity |].
  pose proof (Z.div_mod (w + 7) 8 ltac:(lia)).
  pose proof (Z.mod_pos_bound (w + 7) 8 ltac:(lia)). lia.
Qed.

Section HostFacts.
Context {F : Type} `{HLSLFloat F}.

Lemma shadow_body_unfold (View : FViewInfo F) (psi : FProjectedShadowInfo F)
    (passes : list (ComputePass F)) :
  shadow_body View psi passes =
  if bAllocated psi then
    if (GroupSizeX View =? 0) || (GroupSizeY View =? 0) then (ReturnFalse, passes)
    else (Continue, passes ++ [the_pass View psi])
  else (Continue, passes).
Proof. reflexivity. Qed.

Lemma GroupSizeX_eq (View : FViewInfo F) :
  GroupSizeX View = to_uint32 (DivideAndRoundUp (Width (ViewRect View)) 8).
Proof.
  unfold GroupSizeX, ShadowsTextureViewRect. unfold Width at 1. simpl.
  rewrite Z.sub_0_r. unfold Width. now rewrite to_int32_idem.
Qed.

Lemma GroupSizeY_eq (View : FViewInfo F) :
  GroupSizeY View = to_uint32 (DivideAndRoundUp (Height (ViewRect View)) 8).
Proof.
  unfold GroupSizeY, ShadowsTextureViewRect. unfold Height at 1. simpl.
  rewrite Z.sub_0_r. unfold Height. now rewrite to_int32_idem.
Qed.

(** Whatever holds of the passes added so far and of every pass the
    body can add, holds of the passes after the loops. *)
Lemma shadow_loop_passes (Q : ComputePass F -> Prop) (View : FViewInfo F)
    (NormalShadows : list (FProjectedShadowInfo F)) :
  (forall psi, In psi NormalShadows -> bAllocated psi = true ->
               GroupSizeX View <> 0 -> GroupSizeY View <> 0 -> Q (the_pass View psi)) ->
  forall passes fl passes',
  List.Forall Q passes ->
  shadow_loop View NormalShadows passes = (fl, passes') ->
  List.Forall Q passes'.
Proof.
  induction NormalShadows as [| psi rest IH]; intros HQ passes fl passes' Hacc Hloop.
  - injection Hloop as <- <-. exact Hacc.
  - simpl in Hloop. rewrite shadow_body_unfold in Hloop.
    destruct (bAllocated psi) eqn:Halloc.
    + destruct ((GroupSizeX View =? 0) || (GroupSizeY View =? 0)) eqn:Hzero.
      * injection Hloop as <- <-. exact Hacc.
      * apply orb_false_iff in Hzero. destruct Hzero as [Hx Hy].
        apply Z.eqb_neq in Hx, Hy.
        apply (IH (fun psi' Hin => HQ psi' (or_intror Hin))) in Hloop; [exact Hloop |].
        apply List.Forall_app. split; [exact Hacc |].
        constructor; [| constructor]. apply HQ; [now left | assumption ..].
    + apply (IH (fun psi' Hin => HQ psi' (or_intror Hin))) in Hloop; assumption.
Qed.

Lemma view_loop_passes (Q : ComputePass F -> Prop)
    (NormalShadows : list (FProjectedShadowInfo F)) (Views : list (FViewInfo F)) :
  (forall View psi, In View Views -> In psi NormalShadows -> bAllocated psi = true ->
                    GroupSizeX View <> 0 -> GroupSizeY View <> 0 ->
                    Q (the_pass View psi)) ->
  forall passes fl passes',
  List.Forall Q passes ->
  view_loop Views NormalShadows passes = (fl, passes') ->
  List.Forall Q passes'.
Proof.
  induction Views as [| View rest IH]; intros HQ passes fl passes' Hacc Hloop.
  - injection Hloop as <- <-. exact Hacc.
  - simpl in Hloop.
    destruct (shadow_loop View NormalShadows passes) as [fl1 passes1] eqn:Hs.
    assert (H1 : List.Forall Q passes1).
    { apply (shadow_loop_passes Q View NormalShadows) with passes fl1; [| assumption ..].
      intros psi Hin. apply HQ; [now left | exact Hin]. }
    destruct fl1.
    + injection Hloop as <- <-. exact H1.
    + apply (IH (fun V psi HV => HQ V psi (or_intror HV))) in Hloop; assumption.
Qed.

Lemma RenderScreenSpaceShadows_passes (Q : ComputePass F -> Prop)
    (Views : list (FViewInfo F)) (ShadowsToProject : list (FProjectedShadowInfo F)) :
  (forall View psi, In View Views -> In psi ShadowsToProject ->
                    bRayTracedDistanceField psi = false -> bAllocated psi = true ->
                    GroupSizeX View <> 0 -> GroupSizeY View <> 0 ->
                    Q (the_pass View psi)) ->
  List.Forall Q (snd (RenderScreenSpaceShadows Views ShadowsToProject)).
Proof.
  intros HQ. unfold RenderScreenSpaceShadows.
  destruct (0 <? Z.of_nat (length (NormalShadows_of ShadowsToProject))); [| constructor].
  destruct (view_loop Views (NormalShadows_of ShadowsToProject) []) as [fl passes] eqn:Hv.
  assert (Hall : List.Forall Q passes).
  { apply (view_loop_passes Q (NormalShadows_of ShadowsToProject) Views) with [] fl;
      [| constructor | exact Hv].
    intros View psi HV Hpsi. unfold NormalShadows_of in Hpsi.
    apply filter_In in Hpsi. destruct Hpsi as [Hin Hrt].
    apply negb_true_iff in Hrt. now apply HQ. }
  destruct fl; exact Hall.
Qed.

(** C8.  The group counts are [DivideAndRoundUp] of the scissor
    rectangle's width and height by 8 (zero for a rectangle of no width
    or no height); when either count is zero the body returns [false]
    with the list of passes as it was; no pass the function adds has a
    zero group count in x or y; and the function returns [false]
    whenever the loops were left by that [return]. *)
Theorem zero_group_count_skips_dispatch (Views : list (FViewInfo F))
    (ShadowsToProject : list (FProjectedShadowInfo F))
    (View : FViewInfo F) (psi : FProjectedShadowInfo F) (passes : list (ComputePass F)) :
  (GroupSizeX View = to_uint32 (DivideAndRoundUp (Width (ViewRect View)) 8)
   /\ GroupSizeY View = to_uint32 (DivideAndRoundUp (Height (ViewRect View)) 8))
  /\ ((Width (ViewRect View) = 0 -> GroupSizeX View = 0)
      /\ (Height (ViewRect View) = 0 -> GroupSizeY View = 0))
  /\ (bAllocated psi = true -> GroupSizeX View = 0 \/ GroupSizeY View = 0 ->
      shadow_body View psi passes = (ReturnFalse, passes))
  /\ List.Forall (fun p => fst (fst (pass_GroupCount p)) <> 0
                           /\ snd (fst (pass_GroupCount p)) <> 0)
                 (snd (RenderScreenSpaceShadows Views ShadowsToProject))
  /\ (forall passes',
        view_loop Views (NormalShadows_of ShadowsToProject) [] = (ReturnFalse, passes') ->
        NormalShadows_of ShadowsToProject <> [] ->
        RenderScreenSpaceShadows Views ShadowsToProject = (false, passes')).
Proof.
  split; [split; [apply GroupSizeX_eq | apply GroupSizeY_eq] |].
  split.
  { split; intros Hz; [rewrite GroupSizeX_eq | rewrite GroupSizeY_eq];
      rewrite Hz; reflexivity. }
  split.
  { intros Halloc Hzero. rewrite shadow_body_unfold, Halloc.
    destruct Hzero as [-> | ->]; [reflexivity | now rewrite orb_true_r]. }
  split.
  { apply RenderScreenSpaceShadows_passes.
    intros V s _ _ _ _ Hx Hy. unfold the_pass; simpl.
    split; apply to_int32_nonzero; try assumption.
    - rewrite GroupSizeX_eq. apply to_uint32_range.
    - rewrite GroupSizeY_eq. apply to_uint32_range. }
  intros passes' Hloop Hne. unfold RenderScreenSpaceShadows. rewrite Hloop.
  destruct (NormalShadows_of ShadowsToProject); [congruence | reflexivity].
Qed.


End HostFacts.

(** ** The claims on concrete scenes, in binary32 *)

Module Binary32Facts.
Import Binary32 Scenes.

(** In binary32 a sample at the ray's own (finite) starting depth is a
    self-intersection. *)
Lemma own_depth_self_occludes_binary32 (z : spec_float) :
  is_finite z = true -> selfOcclusion_test z z = true.
Proof.
  intros Hfin. unfold selfOcclusion_test.
  assert (Hz : fsub z z = S754_zero false).
  { destruct z as [s | s | | s m e]; try discriminate.
    - destruct s; reflexivity.
    - simpl. unfold SFsub. rewrite Z.sub_diag. reflexivity. }
  rewrite Hz. vm_compute. reflexivity.
Qed.

(** C1 fails as stated.  A difference of half the tolerance lies within
    the band around zero, and is not a hit.  In the scene [behind] the
    first sample of pixel (234, 250) is on screen, is not a
    self-intersection and differs from the ray's depth by less than the
    tolerance; the shader declares no hit there, and the pixel ends
    unshadowed. *)
Lemma hit_test_not_symmetric :
  Hit_symmetric (f 0.5) (f 1) false = true
  /\ Hit_test (f 0.5) (f 1) false = false
  /\ (let px := pixel 234 250 in
      let t := sampleTime0 behind px in
      Hit_symmetric (depthDiff behind px t) (CompareTolerance behind px)
                    (selfOcclusion behind px t) = true
      /\ inside01 (xy3 (sampleUVZ behind px t)) = true
      /\ Hit behind px t = false
      /\ run behind px blank ≫= (fun u => RWShadowFactors u !! uxy px)
         = Some (mk2 (f 1) (f 1))).
Proof. vm_compute. repeat split. Qed.

(** C7 fails as stated.  The invocation for pixel (233, 250) writes the
    slot of pixel (237, 250) in [testFactors]; and what that slot holds
    after the invocations for the two pixels depends on which ran
    last. *)
Lemma debug_pixel_writes_other_slot :
  mku2 237 250 <> uxy (pixel 233 250)
  /\ testFactors blank !! mku2 237 250 = None
  /\ run occluder (pixel 233 250) blank ≫= (fun u => testFactors u !! mku2 237 250)
     = Some (mk2 (f 1) (f 0))
  /\ (run occluder (pixel 233 250) blank ≫= run occluder (pixel 237 250))
       ≫= (fun u => testFactors u !! mku2 237 250)
     = Some (mk2 (f 0) (f 0))
  /\ (run occluder (pixel 237 250) blank ≫= run occluder (pixel 233 250))
       ≫= (fun u => testFactors u !! mku2 237 250)
     = Some (mk2 (f 1) (f 0)).
Proof.
  split; [discriminate |]. split; [reflexivity |].
  split; [vm_compute; reflexivity |].
  split; vm_compute; reflexivity.
Qed.

(** The backlit pixel (233, 250): shadowed without entering the loop,
    and the same over the G-buffer of the flat scene. *)
Lemma backface_early_return_witness :
  fle (NdotL backlit (pixel 233 250)) (flit 0) = true
  /\ exists uav',
       Main_CS 0 backlit no_group (pixel 233 250) no_group blank = Some uav'
       /\ Main_CS 65 backlit no_group (pixel 233 250) no_group blank = Some uav'
       /\ Main_CS 65 (with_GBuffer backlit (wall 0.46 1))
                  no_group (pixel 233 250) no_group blank = Some uav'
       /\ RWShadowFactors uav' !! uxy (pixel 233 250)
          = Some (mk2 (flit 0) (SceneDepth backlit (pixel 233 250)))
       /\ testFactors uav' = testFactors blank.
Proof.
  split; [vm_compute; reflexivity |].
  apply (backface_early_return backlit no_group (pixel 233 250) no_group blank 65
                               (wall 0.46 1));
    vm_compute; reflexivity.
Defined.

(** Step 2 of pixel (500, 250) in the scene [offscreen]: the depth
    comparison is a hit, the sample is beyond the right edge, and the
    step does not return. *)
Lemma offscreen_step_never_shadows_witness :
  let px := pixel 500 250 in
  Hit offscreen px (sampleTime_at offscreen px 2) = true
  /\ inside01 (xy3 (sampleUVZ offscreen px (sampleTime_at offscreen px 2))) = false
  /\ (forall uav : UAVs spec_float,
         exists uav', march_body offscreen px (sampleTime_at offscreen px 2) uav
                      = Next (sampleTime_at offscreen px 3) uav'
                      /\ RWShadowFactors uav' = RWShadowFactors uav)
  /\ (forall (fuel : nat) (uav : UAVs spec_float) j uav',
         march fuel offscreen px 0 (sampleTime0 offscreen px) uav = Some (j, uav') ->
         j < NumSteps -> j <> Z.of_nat 2).
Proof.
  split; [vm_compute; reflexivity |]. split; [vm_compute; reflexivity |].
  apply (offscreen_step_never_shadows offscreen (pixel 500 250) 2).
  vm_compute; reflexivity.
Defined.

(** The first sample of pixel (233, 250) in the flat scene has the
    pixel's own depth. *)
Lemma self_intersection_never_hits_witness :
  let px := pixel 233 250 in
  let t := sampleTime0 flat px in
  sampleDepth flat px t = z3 (startUVZ flat px)
  /\ Hit flat px t = false
  /\ (forall depthDiff CompareTolerance : spec_float,
         Hit_test depthDiff CompareTolerance
                  (selfOcclusion_test (z3 (startUVZ flat px)) (sampleDepth flat px t))
         = false)
  /\ (forall uav : UAVs spec_float,
         exists uav', march_body flat px t uav
                      = Next (fadd t (fdiv (flit 1) (of_int NumSteps))) uav'
                      /\ RWShadowFactors uav' = RWShadowFactors uav).
Proof.
  split; [vm_compute; reflexivity |].
  apply (self_intersection_never_hits flat (pixel 233 250) (sampleTime0 flat (pixel 233 250))).
  vm_compute; reflexivity.
Defined.

(** Pixels (10, 250) and (237, 250) of the scene [occluder], in both
    orders; pixel (10, 250) faces the light and is not pixel
    (233, 250). *)
Lemma shadow_factors_own_slot_only_witness :
  uxy (pixel 10 250) <> uxy (pixel 237 250)
  /\ (ux3 (pixel 10 250) < 2 ^ 32)%N
  /\ (uy3 (pixel 10 250) < 2 ^ 32)%N
  /\ fle (NdotL occluder (pixel 10 250)) (flit 0) = false
  /\ uxy (pixel 10 250) <> mku2 233 250
  /\ exists u1 u12 u2 u21,
       Main_CS (enough 0) occluder no_group (pixel 10 250) no_group blank = Some u1
       /\ Main_CS (enough 0) occluder no_group (pixel 237 250) no_group u1 = Some u12
       /\ Main_CS (enough 0) occluder no_group (pixel 237 250) no_group blank = Some u2
       /\ Main_CS (enough 0) occluder no_group (pixel 10 250) no_group u2 = Some u21
       /\ RWShadowFactors u1
          = <[uxy (pixel 10 250) := final_value occluder (pixel 10 250)]>
              (RWShadowFactors blank)
       /\ (forall q : uint2, q <> uxy (pixel 10 250) ->
                             RWShadowFactors u1 !! q = RWShadowFactors blank !! q)
       /\ RWShadowFactors u12 = RWShadowFactors u21
       /\ testFactors u1 !! uxy (pixel 10 250) = Some (mk2 (flit 0) (flit 0))
       /\ (forall q : uint2, q <> uxy (pixel 10 250) ->
                             testFactors u1 !! q = testFactors blank !! q).
Proof.
  assert (Hne : uxy (pixel 10 250) <> uxy (pixel 237 250)) by discriminate.
  assert (Hx : (ux3 (pixel 10 250) < 2 ^ 32)%N) by reflexivity.
  assert (Hy : (uy3 (pixel 10 250) < 2 ^ 32)%N) by reflexivity.
  assert (Hf : fle (NdotL occluder (pixel 10 250)) (flit 0) = false)
    by (vm_compute; reflexivity).
  assert (Hpx : uxy (pixel 10 250) <> mku2 233 250) by discriminate.
  repeat (split; [assumption |]).
  destruct (FrameBinary32.shadow_factors_own_slot_only occluder no_group (pixel 10 250)
              no_group no_group (pixel 237 250) no_group blank 0 Hne Hx Hy)
    as (u1 & u12 & u2 & u21 & H1 & H12 & H2 & H21 & R1 & Rf & Rc & _ & Hown & _ & Hframe).
  exists u1, u12, u2, u21.
  repeat (split; [assumption |]).
  split; [exact (Hown Hf Hpx) | exact (Hframe Hpx)].
Defined.


(** What that means for pixel (233, 250) of the flat wall, whose normal
    is +x: the light at (3, 4, 5) is on the side the surface faces
    (the vector from the surface point to the light has a positive dot
    product with the normal), but the shader's [NdotL] is that of the
    negated position, -3, and the pixel is rejected as facing away. *)
Example local_light_facing_surface_is_rejected :
  let p := the_pass view_full point_light in
  let env := bind_pass p (wall 0.46 1) (fun _ _ => f 0.5) (mk2 (f 1) (f 1)) (fun z => z) in
  let px := pixel 233 250 in
  flt (flit 0) (dot (N_ env px)
                    (sub3 (GetPosition (Proxy point_light))
                          (xyz4 (PositionTranslatedWorld env px)))) = true
  /\ NdotL env px = f (-3)
  /\ fle (NdotL env px) (flit 0) = true
  /\ Main_CS 0 env no_group px no_group blank ≫= (fun u => RWShadowFactors u !! uxy px)
     = Some (mk2 (f 0) (f 1)).
Proof.
  split; [vm_compute; reflexivity |]. split; [vm_compute; reflexivity |].
  split; vm_compute; reflexivity.
Qed.

(** Binary16 numbers among the binary32 numbers. *)
Example is_binary16_examples :
  Binary16.is_binary16 (f 0) = true /\ Binary16.is_binary16 (f 1) = true
  /\ Binary16.is_binary16 (f 0.5) = true
  /\ Binary16.is_binary16 (f 65504) = true /\ Binary16.is_binary16 (f 65536) = false
  /\ Binary16.is_binary16 (f (1 # 2048)) = true
  /\ Binary16.is_binary16 (f 1.03) = false
  /\ Binary16.round_to_nearest (f 1.03) = f (1055 # 1024)
  /\ Binary16.is_binary16 (Binary16.round_to_nearest (f 1.03)) = true
  /\ Binary16.round_to_nearest (f 0) = f 0 /\ Binary16.round_to_nearest (f 1) = f 1.
Proof. vm_compute. repeat split. Qed.

(** C3 fails as stated.  Pixel (237, 250) of the scene [backlit] has
    scene depth 1.03 (as a binary32 number), which is not a binary16
    number: whatever the conversion, the texel cannot hold it, and with
    rounding to nearest it holds 1055/1024.  And in a view 510 pixels
    wide the dispatch of 64 groups runs the thread for x = 511, which
    has no texel. *)
Lemma stored_depth_is_converted :
  let px := pixel 237 250 in
  let Desc := ScreenSpaceShadowTextureDesc view_full in
  in_extent Desc (uxy px) = true
  /\ SceneDepth backlit px = f 1.03
  /\ Binary16.is_binary16 (SceneDepth backlit px) = false
  /\ run backlit px blank
       ≫= (fun u => texture_of Binary16.convert_nearest Desc (RWShadowFactors u)
                      !! uxy px)
     = Some (mk2 (f 0) (f (1055 # 1024)))
  /\ f (1055 # 1024) <> SceneDepth backlit px
  /\ (forall (convert : EPixelFormat -> spec_float -> spec_float) (u : UAVs spec_float)
             (c0 c1 : spec_float),
        Binary16.is_binary16 (convert PF_G16R16F (SceneDepth backlit px)) = true ->
        run backlit px blank = Some u ->
        texture_of convert Desc (RWShadowFactors u) !! uxy px = Some (mk2 c0 c1) ->
        c1 <> SceneDepth backlit px)
  /\ (let px' := pixel 511 250 in
      let Desc' := ScreenSpaceShadowTextureDesc TextureScenes.view_510 in
      GroupSizeX TextureScenes.view_510 = 64
      /\ in_extent Desc' (uxy px') = false
      /\ run backlit px' blank
           ≫= (fun u => texture_of Binary16.convert_nearest Desc' (RWShadowFactors u)
                          !! uxy px')
         = None).
Proof.
  intros px Desc.
  assert (Hin : in_extent Desc (uxy px) = true) by (vm_compute; reflexivity).
  assert (Hd : SceneDepth backlit px = f 1.03) by (vm_compute; reflexivity).
  assert (Hnot : Binary16.is_binary16 (SceneDepth backlit px) = false)
    by (vm_compute; reflexivity).
  split; [exact Hin |]. split; [exact Hd |]. split; [exact Hnot |].
  split; [vm_compute; reflexivity |].
  split; [vm_compute; discriminate |].
  split.
  - intros convert u c0 c1 H16 Hrun Htex.
    assert (Hs : run backlit px blank ≫= (fun u => RWShadowFactors u !! uxy px)
                 = Some (mk2 (f 0) (SceneDepth backlit px))) by (vm_compute; reflexivity).
    rewrite Hrun in Hs. cbn [mbind option_bind] in Hs.
    exact (converted_channel_differs convert Binary16.is_binary16 Desc
             (RWShadowFactors u) (uxy px) (f 0) (SceneDepth backlit px) c0 c1
             Hin Hs Hnot H16 Htex).
  - split; [vm_compute; reflexivity |]. split; vm_compute; reflexivity.
Qed.

(** The pixel (237, 250) of the scene [backlit], inside the 512 x 512
    extent, with conversion by rounding to nearest. *)
Lemma Main_CS_final_value_witness :
  let px := pixel 237 250 in
  let Desc := ScreenSpaceShadowTextureDesc view_full in
  Binary16.convert_nearest PF_G16R16F (flit 0) = flit 0
  /\ Binary16.convert_nearest PF_G16R16F (flit 1) = flit 1
  /\ in_extent Desc (uxy px) = true
  /\ exists uav', Main_CS (enough 0) backlit no_group px no_group blank = Some uav'
       /\ texture_of Binary16.convert_nearest Desc (RWShadowFactors uav') !! uxy px
          = Some (mk2 (if fle (NdotL backlit px) (flit 0) || some_step_stops backlit px
                       then flit 0 else flit 1)
                      (Binary16.convert_nearest PF_G16R16F (SceneDepth backlit px))).
Proof.
  intros px Desc.
  assert (H0 : Binary16.convert_nearest PF_G16R16F (flit 0) = flit 0)
    by (vm_compute; reflexivity).
  assert (H1 : Binary16.convert_nearest PF_G16R16F (flit 1) = flit 1)
    by (vm_compute; reflexivity).
  assert (Hin : in_extent Desc (uxy px) = true) by (vm_compute; reflexivity).
  split; [exact H0 |]. split; [exact H1 |]. split; [exact Hin |].
  destruct (Main_CS_final_value Binary16.convert_nearest view_full backlit no_group px
              no_group blank 0 H0 H1) as (_ & _ & uav' & Hm & _ & Hown & _).
  exists uav'. split; [exact Hm | exact (Hown Hin)].
Defined.

(** The dispatch on concrete views: a view of no width stops the
    function with [false], after the passes of the views before it. *)
Example dispatch_examples :
  GroupSizeX view_full = 64 /\ GroupSizeX view_empty = 0
  /\ fst (RenderScreenSpaceShadows [view_full] [point_light; sun_light]) = true
  /\ length (snd (RenderScreenSpaceShadows [view_full] [point_light; sun_light])) = 2%nat
  /\ fst (RenderScreenSpaceShadows [view_full; view_empty; view_full]
                                   [point_light; sun_light]) = false
  /\ length (snd (RenderScreenSpaceShadows [view_full; view_empty; view_full]
                                           [point_light; sun_light])) = 2%nat
  /\ RenderScreenSpaceShadows [view_empty] [point_light] = (false, []).
Proof. vm_compute. repeat split. Qed.

(** The three ways an invocation ends, on pixel (234, 250); in the flat
    scene the loop runs all 64 iterations and leaves the slot as it
    was on entry, and fuel for 64 loop tests is one short. *)
Example final_value_examples :
  let px := pixel 234 250 in
  run backlit px blank ≫= (fun u => RWShadowFactors u !! uxy px) = Some (mk2 (f 0) (f 1))
  /\ run occluder px blank ≫= (fun u => RWShadowFactors u !! uxy px)
     = Some (mk2 (f 0) (f 1))
  /\ fst <$> march 65 occluder px 0 (sampleTime0 occluder px) blank = Some 0
  /\ (fun r => (fst r, RWShadowFactors (snd r) !! uxy px))
       <$> march 65 flat px 0 (sampleTime0 flat px) blank = Some (64, None)
  /\ march 64 flat px 0 (sampleTime0 flat px) blank = None.
Proof. vm_compute. repeat split. Qed.

End Binary32Facts.

(** * More of the code *)

(** ** The pixel shader [Main] *)

Module PSFacts.
Import PS.

Section PixelShaderFacts.
Context {F : Type} `{HLSLFloat F}.

Lemma Main_march_total (fuel : nat) :
  forall (env : PixelEnv F) (i : Z) (pos c : float4 F),
  Z.max 0 (NumSteps - i) < Z.of_nat fuel ->
  exists j c', march fuel env i pos c = Some (j, c') /\ i <= j <= Z.max i NumSteps.
Proof.
  induction fuel as [| fuel IH]; intros env i pos c Hfuel.
  - simpl in Hfuel. lia.
  - simpl. destruct (Z.ltb_spec i NumSteps) as [Hlt | Hge].
    + destruct (march_body env i pos c) as [c' | pos'].
      * exists i, c'. split; [reflexivity | lia].
      * destruct (IH env (i + 1) pos' c) as (j & c' & Hm & Hj); [lia |].
        exists j, c'. split; [exact Hm | lia].
    + exists i, c. split; [reflexivity | lia].
Qed.

Lemma pos_at_entry (env : PixelEnv F) (sv : float4 F) (n : nat) :
  add4 (entry_pos env sv n) (rayStep env) = pos_at env sv n.
Proof. destruct n; reflexivity. Qed.

Lemma forallb_onscreen_prefix (env : PixelEnv F) (sv : float4 F) (n : nat) :
  (forall m : nat, (m < n)%nat -> onscreen_at env sv m = true) ->
  forallb (onscreen_at env sv) (seq 0 n) = true.
Proof.
  intros Hall. apply forallb_forall. intros m Hin. apply in_seq in Hin.
  apply Hall. lia.
Qed.

(** Once a sample is off the screen, no later iteration counts as
    reaching an occluder. *)
Lemma no_occluder_past_offscreen (env : PixelEnv F) (sv : float4 F) (n count : nat) :
  onscreen_at env sv n = false ->
  existsb (fun m => occluded_at env sv m && forallb (onscreen_at env sv) (seq 0 (S m)))
          (seq n count) = false.
Proof.
  intros Hoff. destruct (existsb _ _) eqn:He; [| reflexivity].
  apply existsb_exists in He. destruct He as (m & Hin & Hm).
  apply in_seq in Hin. apply andb_true_iff in Hm. destruct Hm as [_ Hall].
  rewrite forallb_forall in Hall.
  rewrite (Hall n) in Hoff; [discriminate |]. apply in_seq. lia.
Qed.

(** The colour the loop ends with, entered at iteration [n] after
    samples that were all on the screen. *)
Lemma Main_march_color (fuel : nat) :
  forall (env : PixelEnv F) (sv : float4 F) (n : nat) (c : float4 F) j c',
  (forall m : nat, (m < n)%nat -> onscreen_at env sv m = true) ->
  (n <= Z.to_nat NumSteps)%nat ->
  march fuel env (Z.of_nat n) (entry_pos env sv n) c = Some (j, c') ->
  c' = if existsb (fun m => occluded_at env sv m
                            && forallb (onscreen_at env sv) (seq 0 (S m)))
                  (seq n (Z.to_nat NumSteps - n))
       then black else c.
Proof.
  induction fuel as [| fuel IH]; intros env sv n c j c' Hpre Hn Hm; [discriminate |].
  simpl in Hm. destruct (Z.ltb_spec (Z.of_nat n) NumSteps) as [Hlt | Hge].
  - assert (Hseq : (Z.to_nat NumSteps - n = S (Z.to_nat NumSteps - S n))%nat)
      by (unfold NumSteps in *; lia).
    rewrite Hseq. unfold march_body in Hm. rewrite pos_at_entry in Hm.
    destruct (outside01 (currentUV env (pos_at env sv n))) eqn:Hout.
    + injection Hm as <- <-.
      rewrite <- Hseq, no_occluder_past_offscreen; [reflexivity |].
      unfold onscreen_at. now rewrite Hout.
    + assert (Hon : onscreen_at env sv n = true) by (unfold onscreen_at; now rewrite Hout).
      assert (Hpre' : forall m : nat, (m < S n)%nat -> onscreen_at env sv m = true).
      { intros m Hm'. destruct (Nat.eq_dec m n) as [-> | Hne]; [exact Hon |].
        apply Hpre. lia. }
      simpl existsb. fold (occluded_at env sv n) in Hm.
      change (onscreen_at env sv 0 && forallb (onscreen_at env sv) (seq 1 n))
        with (forallb (onscreen_at env sv) (seq 0 (S n))).
      rewrite (forallb_onscreen_prefix env sv (S n) Hpre'), andb_true_r.
      destruct (occluded_at env sv n).
      * injection Hm as <- <-. reflexivity.
      * replace (Z.of_nat n + 1) with (Z.of_nat (S n)) in Hm by lia.
        apply (IH env sv (S n) c j c' Hpre') in Hm; [exact Hm |].
        unfold NumSteps in *. lia.
  - injection Hm as <- <-.
    replace (Z.to_nat NumSteps - n)%nat with 0%nat by (unfold NumSteps in *; lia).
    reflexivity.
Qed.

(** The value [Main] returns. *)
Lemma Main_value (env : PixelEnv F) (SvPosition OutColor0 : float4 F) (k : nat) :
  Main (enough k) env SvPosition OutColor0
  = Some (if fle (NdotL env SvPosition) (flit 0) || reaches_occluder env SvPosition
          then black else white).
Proof.
  unfold Main. destruct (fle (NdotL env SvPosition) (flit 0)); [reflexivity |].
  destruct (Main_march_total (enough k) env 0 (startPos env SvPosition)
              (mk4 (flit 1) (flit 1) (flit 1) (flit 1))) as (j & c' & Hm & _).
  { unfold enough, NumSteps. lia. }
  rewrite Hm. simpl. f_equal.
  apply (Main_march_color (enough k) env SvPosition 0) in Hm.
  - rewrite Hm. unfold reaches_occluder. rewrite Nat.sub_0_r. reflexivity.
  - intros m Hm'. lia.
  - lia.
Qed.

(** X1.  [Main] returns: with fuel for its 100 iterations and the last
    loop test the loop ends, at an index between 0 and 100, and so does
    the shader. *)
Theorem Main_terminates (env : PixelEnv F) (SvPosition OutColor0 : float4 F) (k : nat) :
  (exists c, Main (enough k) env SvPosition OutColor0 = Some c)
  /\ (forall pos c : float4 F,
        exists j c', march (enough k) env 0 pos c = Some (j, c') /\ 0 <= j <= 100).
Proof.
  split.
  - rewrite Main_value. eexists. reflexivity.
  - intros pos c.
    destruct (Main_march_total (enough k) env 0 pos c) as (j & c' & Hm & Hj).
    { unfold enough, NumSteps. lia. }
    exists j, c'. split; [exact Hm | unfold NumSteps in Hj; lia].
Qed.

(** X2.  Whatever [OutColor] holds on entry, [Main] returns black
    [(0,0,0,1)] when the surface faces away from the light or when some
    iteration's depth test succeeds with every sample up to it on the
    screen, and white [(1,1,1,1)] otherwise; the colour
    [(currentSceneDepth, sampleSceneDepth, i, 0.5)] is never returned. *)
Theorem Main_output (env : PixelEnv F) (SvPosition OutColor0 OutColor0' : float4 F)
    (k : nat) :
  Main (enough k) env SvPosition OutColor0
  = Some (if fle (NdotL env SvPosition) (flit 0) || reaches_occluder env SvPosition
          then mk4 (flit 0) (flit 0) (flit 0) (flit 1)
          else mk4 (flit 1) (flit 1) (flit 1) (flit 1))
  /\ Main (enough k) env SvPosition OutColor0' = Main (enough k) env SvPosition OutColor0.
Proof.
  split; [apply Main_value |]. now rewrite !Main_value.
Qed.

(** X3.  When the surface faces the light and the sample of iteration
    [n] is off the screen, with no successful depth test before it, the
    pixel is returned white, whatever the depth buffer holds further
    along the ray. *)
Theorem Main_offscreen_is_lit (env : PixelEnv F) (SvPosition OutColor0 : float4 F)
    (n k : nat) :
  fle (NdotL env SvPosition) (flit 0) = false ->
  onscreen_at env SvPosition n = false ->
  (forall m : nat, (m < n)%nat -> occluded_at env SvPosition m = false) ->
  Main (enough k) env SvPosition OutColor0 = Some (mk4 (flit 1) (flit 1) (flit 1) (flit 1)).
Proof.
  intros Hfront Hoff Hnone. rewrite Main_value, Hfront. cbn [orb].
  assert (Hr : reaches_occluder env SvPosition = false); [| now rewrite Hr].
  unfold reaches_occluder.
  destruct (existsb _ _) eqn:He; [| reflexivity].
  apply existsb_exists in He. destruct He as (m & _ & Hm).
  apply andb_true_iff in Hm. destruct Hm as [Hocc Hall].
  destruct (Nat.lt_ge_cases m n) as [Hlt | Hge].
  - rewrite (Hnone m Hlt) in Hocc. discriminate.
  - rewrite forallb_forall in Hall.
    rewrite (Hall n) in Hoff; [discriminate |]. apply in_seq. lia.
Qed.

End PixelShaderFacts.
End PSFacts.

Section TwoVariants.
Context {F : Type} `{HLSLFloat F}.

(** X4.  On the centre of a compute thread's pixel the pixel shader and
    the compute shader see the same [dot(N, LightDirection)]: a pixel
    that one rejects as facing away from the light, the other rejects
    too, [Main] with black and [Main_CS] with [(0.0, SceneDepth)]. *)
Theorem Main_and_Main_CS_reject_together (env : PS.PixelEnv F) (gid tid gtid : uint3)
    (z w : F) (OutColor0 : float4 F) (uav : UAVs F) (fuel fuel' : nat) :
  fle (NdotL (PS.shared env) tid) (flit 0) = true ->
  PS.NdotL env (PS.SvPosition_of env tid z w) = NdotL (PS.shared env) tid
  /\ PS.Main fuel env (PS.SvPosition_of env tid z w) OutColor0
     = Some (mk4 (flit 0) (flit 0) (flit 0) (flit 1))
  /\ exists uav', Main_CS fuel' (PS.shared env) gid tid gtid uav = Some uav'
       /\ RWShadowFactors uav' !! uxy tid
          = Some (mk2 (flit 0) (SceneDepth (PS.shared env) tid)).
Proof.
  intros Hback.
  assert (HN : PS.NdotL env (PS.SvPosition_of env tid z w) = NdotL (PS.shared env) tid)
    by reflexivity.
  split; [exact HN |]. split.
  - unfold PS.Main. now rewrite HN, Hback.
  - rewrite Main_CS_unfold, Hback. eexists. split; [reflexivity |].
    unfold write_shadow, shadowed_value; simpl. now rewrite lookup_insert_eq.
Qed.

End TwoVariants.

(** ** [CheckForProjectedShadows] *)

Module VisibilityFacts.
Import Visibility.

Lemma views_loop_spec (Id s : nat) (dv : FDependentView) (Views : list FViewVisibility) :
  forall (i : nat) (b : bool),
  views_loop Id s dv Views i b = true
  <-> b = true
      \/ exists (v : nat) (View : FViewVisibility),
           Views !! v = Some View
           /\ (dv = None \/ dv = Some (i + v)%nat)
           /\ View Id s = true.
Proof.
  induction Views as [| View rest IH]; intros i b; simpl.
  - split; [now left |]. intros [Hb | (v & V & Hv & _)]; [exact Hb | discriminate].
  - destruct (skips_view dv i) eqn:Hskip.
    + rewrite IH. split.
      * intros [Hb | (v & V & Hv & Hdv & Hbit)]; [now left |].
        right. exists (S v), V. split; [exact Hv |]. split; [| exact Hbit].
        destruct Hdv as [-> | ->]; [now left | right; f_equal; lia].
      * intros [Hb | (v & V & Hv & Hdv & Hbit)]; [now left |].
        destruct v as [| v].
        -- exfalso. unfold skips_view in Hskip.
           destruct Hdv as [-> | ->]; [discriminate |].
           rewrite Nat.add_0_r, Nat.eqb_refl in Hskip. discriminate.
        -- right. exists v, V. split; [exact Hv |]. split; [| exact Hbit].
           destruct Hdv as [-> | ->]; [now left | right; f_equal; lia].
    + rewrite IH. split.
      * intros [Hb | (v & V & Hv & Hdv & Hbit)].
        -- apply orb_true_iff in Hb. destruct Hb as [Hb | Hbit]; [now left |].
           right. exists 0%nat, View. split; [reflexivity |]. split; [| exact Hbit].
           unfold skips_view in Hskip. destruct dv as [d |]; [| now left].
           right. apply negb_false_iff, Nat.eqb_eq in Hskip. subst d.
           f_equal. lia.
        -- right. exists (S v), V. split; [exact Hv |]. split; [| exact Hbit].
           destruct Hdv as [-> | ->]; [now left | right; f_equal; lia].
      * intros [Hb | (v & V & Hv & Hdv & Hbit)].
        -- left. now rewrite Hb.
        -- destruct v as [| v].
           ++ left. injection Hv as <-. rewrite Hbit. apply orb_true_r.
           ++ right. exists v, V. split; [exact Hv |]. split; [| exact Hbit].
              destruct Hdv as [-> | ->]; [now left | right; f_equal; lia].
Qed.

Lemma shadows_loop_spec (Id : nat) (Views : list FViewVisibility)
    (All : list FDependentView) :
  forall s0 : nat,
  shadows_loop Id All s0 Views = true
  <-> exists (s : nat) (dv : FDependentView) (v : nat) (View : FViewVisibility),
        All !! s = Some dv /\ Views !! v = Some View
        /\ (dv = None \/ dv = Some v) /\ View Id (s0 + s)%nat = true.
Proof.
  induction All as [| dv rest IH]; intros s0; simpl.
  - split; [discriminate |]. intros (s & d & _ & _ & Hs & _). discriminate.
  - destruct (views_loop Id s0 dv Views 0 false) eqn:Hv.
    + split; [intros _ | reflexivity].
      apply views_loop_spec in Hv. destruct Hv as [Hf | (v & V & Hv & Hdv & Hbit)];
        [discriminate |].
      exists 0%nat, dv, v, V. rewrite Nat.add_0_r. repeat split; assumption.
    + rewrite IH. split.
      * intros (s & d & v & V & Hs & Hv' & Hdv & Hbit).
        exists (S s), d, v, V. split; [exact Hs |]. split; [exact Hv' |].
        split; [exact Hdv |]. now rewrite <- Nat.add_succ_comm.
      * intros (s & d & v & V & Hs & Hv' & Hdv & Hbit).
        destruct s as [| s].
        -- exfalso. injection Hs as <-. rewrite Nat.add_0_r in Hbit.
           assert (Ht : views_loop Id s0 dv Views 0 false = true).
           { apply views_loop_spec. right. exists v, V. repeat split; assumption. }
           rewrite Ht in Hv. discriminate.
        -- exists s, d, v, V. split; [exact Hs |]. split; [exact Hv' |].
           split; [exact Hdv |]. now rewrite Nat.add_succ_comm.
Qed.

(** X5.  [CheckForProjectedShadows] answers true exactly when the
    light's occlusion is ray traced, or some projected shadow of the
    light has its visibility bit set in a view of the renderer that is
    its dependent view or, for a shadow without a dependent view, in any
    view.  A shadow that depends on a view outside [Views] never
    counts, and with no shadows or no views the answer is false. *)
Theorem CheckForProjectedShadows_spec (LightOcclusionType : FLightOcclusionType)
    (Id : nat) (AllProjectedShadows : list FDependentView)
    (Views : list FViewVisibility) :
  CheckForProjectedShadows LightOcclusionType Id AllProjectedShadows Views = true
  <-> LightOcclusionType = Raytraced
      \/ exists (ShadowIndex : nat) (DependentView : FDependentView)
                (ViewIndex : nat) (View : FViewVisibility),
           AllProjectedShadows !! ShadowIndex = Some DependentView
           /\ Views !! ViewIndex = Some View
           /\ (DependentView = None \/ DependentView = Some ViewIndex)
           /\ View Id ShadowIndex = true.
Proof.
  unfold CheckForProjectedShadows. destruct LightOcclusionType.
  - rewrite shadows_loop_spec. split.
    + intros Hex. right. exact Hex.
    + intros [Hr | Hex]; [discriminate | exact Hex].
  - split; [now left | reflexivity].
Qed.

End VisibilityFacts.

(** ** [SetBlendStateForProjection] *)

Module BlendFacts.
Import Blend.

(** X6.  Projecting for forward shading, the blend state writes exactly
    the one channel that the light's shadow-map channel 0..3 names (red,
    green, blue, alpha), adding with the source alpha when a fade plane
    is used and taking the minimum otherwise; for any other channel
    index the state is the null pointer that [checkf] rejects. *)
Theorem forward_shading_writes_own_channel (ShadowMapChannel : Z)
    (bIsWholeSceneDirectionalShadow bUseFadePlane bMobileModulatedProjections
     bEncodedHDR : bool) :
  match channel_of ShadowMapChannel with
  | Some c =>
      exists s,
        SetBlendStateForProjection ShadowMapChannel bIsWholeSceneDirectionalShadow
          bUseFadePlane true bMobileModulatedProjections bEncodedHDR = Some s
        /\ written s = Some [c]
        /\ color_op s = Some (if bUseFadePlane then BO_Add else BO_Min)
  | None =>
      SetBlendStateForProjection ShadowMapChannel bIsWholeSceneDirectionalShadow
        bUseFadePlane true bMobileModulatedProjections bEncodedHDR = None
  end.
Proof.
  unfold channel_of, SetBlendStateForProjection.
  destruct bUseFadePlane;
    destruct (ShadowMapChannel =? 0); [eexists; repeat split | | eexists; repeat split |];
    (destruct (ShadowMapChannel =? 1); [eexists; repeat split |]);
    (destruct (ShadowMapChannel =? 2); [eexists; repeat split |]);
    (destruct (ShadowMapChannel =? 3); [eexists; repeat split | reflexivity]).
Qed.

(** X7.  Projecting for deferred shading, a whole-scene directional
    shadow writes the red and green channels and every other shadow
    that is not a mobile modulated projection writes blue and alpha, so
    the two kinds never write a common channel; the shadow-map channel
    plays no part; and a ray-traced distance-field shadow, whatever its
    fade plane length, is blended with the minimum. *)
Theorem deferred_shading_channels {F : Type} `{HLSLFloat F} (ShadowMapChannel : Z)
    (bIsWholeSceneDirectionalShadow bUseFadePlane bEncodedHDR : bool)
    (FadePlaneLength : F) :
  SetBlendStateForProjection ShadowMapChannel true bUseFadePlane false false bEncodedHDR
  ≫= written = Some [R; G]
  /\ SetBlendStateForProjection ShadowMapChannel false bUseFadePlane false false bEncodedHDR
     ≫= written = Some [B; A]
  /\ SetBlendStateForProjection ShadowMapChannel bIsWholeSceneDirectionalShadow
       bUseFadePlane false false bEncodedHDR
     = SetBlendStateForProjection 0 bIsWholeSceneDirectionalShadow
         bUseFadePlane false false bEncodedHDR
  /\ SetBlendStateForProjection_of ShadowMapChannel bIsWholeSceneDirectionalShadow
       FadePlaneLength true false false bEncodedHDR
     ≫= color_op = Some BO_Min.
Proof.
  unfold SetBlendStateForProjection_of, SetBlendStateForProjection.
  rewrite andb_false_r.
  destruct bUseFadePlane, bIsWholeSceneDirectionalShadow; repeat split.
Qed.

End BlendFacts.

(** ** [RenderScreenSpaceShadows], pass by pass *)

Section DispatchFacts.
Context {F : Type} `{HLSLFloat F}.

(* The group counts are used as they are, never unfolded. *)
#[local] Opaque GroupSizeX GroupSizeY.

(** Within one view the group counts are the same for every shadow:
    either the first allocated shadow makes the function return, or
    every allocated shadow gets its pass. *)
Lemma shadow_loop_all (View : FViewInfo F) (NormalShadows : list (FProjectedShadowInfo F)) :
  forall passes : list (ComputePass F),
  shadow_loop View NormalShadows passes
  = if dispatchable View || forallb (fun s => negb (bAllocated s)) NormalShadows
    then (Continue, passes ++ map (the_pass View) (List.filter bAllocated NormalShadows))
    else (ReturnFalse, passes).
Proof.
  induction NormalShadows as [| psi rest IH]; intros passes;
    cbn [shadow_loop forallb List.filter map].
  - rewrite orb_true_r, app_nil_r. reflexivity.
  - rewrite shadow_body_unfold. unfold dispatchable in *.
    destruct (bAllocated psi); cbn [negb andb map].
    + destruct ((GroupSizeX View =? 0) || (GroupSizeY View =? 0)); cbn [negb orb].
      * reflexivity.
      * rewrite IH. cbn [negb orb]. now rewrite <- app_assoc.
    + rewrite IH. reflexivity.
Qed.

Lemma all_passes_cons (View : FViewInfo F) (Views : list (FViewInfo F))
    (Shadows : list (FProjectedShadowInfo F)) :
  all_passes (View :: Views) Shadows
  = map (the_pass View) (List.filter bAllocated (NormalShadows_of Shadows))
    ++ all_passes Views Shadows.
Proof. reflexivity. Qed.

Lemma no_allocated_shadow (NormalShadows : list (FProjectedShadowInfo F)) :
  forallb (fun s => negb (bAllocated s)) NormalShadows = negb (existsb bAllocated NormalShadows).
Proof.
  induction NormalShadows as [| s rest IH]; [reflexivity |].
  simpl. rewrite IH. now destruct (bAllocated s).
Qed.

Lemma view_loop_all (Shadows : list (FProjectedShadowInfo F)) (Views : list (FViewInfo F)) :
  forall passes : list (ComputePass F),
  match view_loop Views (NormalShadows_of Shadows) passes with
  | (Continue, passes') =>
      passes' = passes ++ all_passes Views Shadows
      /\ (existsb bAllocated (NormalShadows_of Shadows) = true ->
          forallb dispatchable Views = true)
  | (ReturnFalse, passes') =>
      exists Before View After,
        Views = Before ++ View :: After
        /\ passes' = passes ++ all_passes Before Shadows
        /\ dispatchable View = false
        /\ forallb dispatchable Before = true
        /\ existsb bAllocated (NormalShadows_of Shadows) = true
  end.
Proof.
  induction Views as [| View rest IH]; intros passes.
  - cbn [view_loop]. split; [now rewrite app_nil_r | reflexivity].
  - cbn [view_loop]. rewrite shadow_loop_all, no_allocated_shadow.
    destruct (dispatchable View) eqn:Hd; cbn [orb].
    + specialize (IH (passes ++ map (the_pass View)
                                    (List.filter bAllocated (NormalShadows_of Shadows)))).
      destruct (view_loop rest (NormalShadows_of Shadows)
                  (passes ++ map (the_pass View)
                                 (List.filter bAllocated (NormalShadows_of Shadows))))
        as [fl passes'].
      destruct fl.
      * destruct IH as (Before & V & After & HV & Hp & HdV & Hall & Ha).
        exists (View :: Before), V, After.
        split; [now rewrite HV |].
        split; [now rewrite Hp, all_passes_cons, app_assoc |].
        split; [exact HdV |]. split; [| exact Ha].
        cbn [forallb]. now rewrite Hd, Hall.
      * destruct IH as [Hp Hall]. split.
        -- now rewrite Hp, all_passes_cons, app_assoc.
        -- intros Ha. cbn [forallb]. now rewrite Hd, (Hall Ha).
    + destruct (existsb bAllocated (NormalShadows_of Shadows)) eqn:Ha; cbn [negb].
      * exists [], View, rest. split; [reflexivity |].
        split; [now rewrite app_nil_r |]. now repeat split.
      * specialize (IH (passes ++ map (the_pass View)
                                      (List.filter bAllocated (NormalShadows_of Shadows)))).
        destruct (view_loop rest (NormalShadows_of Shadows)
                    (passes ++ map (the_pass View)
                                   (List.filter bAllocated (NormalShadows_of Shadows))))
          as [fl passes'].
        destruct fl.
        -- destruct IH as (_ & _ & _ & _ & _ & _ & _ & Hfalse). discriminate.
        -- destruct IH as [Hp _]. split; [| discriminate].
           now rewrite Hp, all_passes_cons, app_assoc.
Qed.

(** X8.  When [RenderScreenSpaceShadows] returns true it has added, for
    every view in order, one pass for every allocated shadow that is not
    a ray-traced distance-field shadow, in order.  When it returns
    false it has added those passes for the views before the first view
    with a zero group count, and none for that view or any view after
    it. *)
Theorem RenderScreenSpaceShadows_passes_in_order (Views : list (FViewInfo F))
    (ShadowsToProject : list (FProjectedShadowInfo F)) :
  match RenderScreenSpaceShadows Views ShadowsToProject with
  | (true, passes) => passes = all_passes Views ShadowsToProject
  | (false, passes) =>
      exists Before View After,
        Views = Before ++ View :: After
        /\ passes = all_passes Before ShadowsToProject
        /\ dispatchable View = false
        /\ forallb dispatchable Before = true
  end.
Proof.
  unfold RenderScreenSpaceShadows.
  destruct (0 <? Z.of_nat (length (NormalShadows_of ShadowsToProject))) eqn:Hlen.
  - pose proof (view_loop_all ShadowsToProject Views []) as Hloop.
    destruct (view_loop Views (NormalShadows_of ShadowsToProject) []) as [fl passes].
    destruct fl.
    + destruct Hloop as (Before & V & After & HV & Hp & Hd & Hall & _).
      exists Before, V, After. repeat split; assumption.
    + exact (proj1 Hloop).
  - assert (HNS : NormalShadows_of ShadowsToProject = []).
    { destruct (NormalShadows_of ShadowsToProject); [reflexivity |].
      apply Z.ltb_ge in Hlen. simpl length in Hlen. lia. }
    unfold all_passes. rewrite HNS. cbn [List.filter map].
    clear. induction Views as [| V rest IHV]; [reflexivity | exact IHV].
Qed.

(** X9.  [RenderScreenSpaceShadows] returns false exactly when some
    allocated shadow is not a ray-traced distance-field shadow and some
    view has a zero group count. *)
Theorem RenderScreenSpaceShadows_false_iff (Views : list (FViewInfo F))
    (ShadowsToProject : list (FProjectedShadowInfo F)) :
  fst (RenderScreenSpaceShadows Views ShadowsToProject)
  = negb (existsb (fun s => negb (bRayTracedDistanceField s) && bAllocated s)
                  ShadowsToProject
          && existsb (fun V => (GroupSizeX V =? 0) || (GroupSizeY V =? 0)) Views).
Proof.
  assert (Hex : existsb (fun s => negb (bRayTracedDistanceField s) && bAllocated s)
                        ShadowsToProject
                = existsb bAllocated (NormalShadows_of ShadowsToProject)).
  { unfold NormalShadows_of.
    induction ShadowsToProject as [| s rest IHs]; [reflexivity |].
    cbn [existsb List.filter]. rewrite IHs.
    destruct (bRayTracedDistanceField s); reflexivity. }
  rewrite Hex. unfold RenderScreenSpaceShadows.
  destruct (0 <? Z.of_nat (length (NormalShadows_of ShadowsToProject))) eqn:Hlen.
  - pose proof (view_loop_all ShadowsToProject Views []) as Hloop.
    destruct (view_loop Views (NormalShadows_of ShadowsToProject) []) as [fl passes].
    destruct fl; cbn [fst].
    + destruct Hloop as (Before & V & After & HV & _ & Hd & _ & Ha).
      rewrite Ha, HV, existsb_app. cbn [existsb andb].
      unfold dispatchable in Hd. apply negb_false_iff in Hd. rewrite Hd.
      now rewrite orb_true_r.
    + (* the loop ran through: no view stops an allocated shadow *)
      destruct Hloop as [_ Hall].
      destruct (existsb bAllocated (NormalShadows_of ShadowsToProject)) eqn:Ha;
        [| reflexivity].
      cbn [andb]. specialize (Hall eq_refl).
      assert (Hnone : existsb (fun V => (GroupSizeX V =? 0) || (GroupSizeY V =? 0)) Views
                      = false).
      { clear -Hall. induction Views as [| V rest IHV]; [reflexivity |].
        cbn [forallb existsb] in *. apply andb_true_iff in Hall.
        destruct Hall as [HV Hrest]. unfold dispatchable in HV.
        apply negb_true_iff in HV. now rewrite HV, (IHV Hrest). }
      now rewrite Hnone.
  - assert (HNS : NormalShadows_of ShadowsToProject = []).
    { destruct (NormalShadows_of ShadowsToProject); [reflexivity |].
      apply Z.ltb_ge in Hlen. simpl length in Hlen. lia. }
    rewrite HNS. reflexivity.
Qed.

End DispatchFacts.

(** ** The dispatch covers the texture *)

Section Coverage.
Context {F : Type} `{HLSLFloat F}.

Lemma group_count_of_extent (w : Z) :
  0 < w <= 2 ^ 31 - 8 ->
  to_int32 (to_uint32 (DivideAndRoundUp w 8)) = (w + 7) / 8
  /\ 8 * ((w + 7) / 8 - 1) < w <= 8 * ((w + 7) / 8).
Proof.
  intros Hw. destruct (DivideAndRoundUp_ceiling w ltac:(lia)) as [Heq Hb].
  rewrite Heq in *.
  assert (Hq : 0 < (w + 7) / 8 <= w) by lia.
  unfold to_uint32. rewrite Z.mod_small by lia.
  rewrite to_int32_small by lia. split; [reflexivity | exact Hb].
Qed.

(** X10.  For a view rectangle of positive width and height (up to
    [2^31 - 8]) the pass has the texture extent of the rectangle and
    group counts that, at 8 x 8 threads a group, cover every pixel of
    the extent with no group entirely outside it. *)
Theorem dispatch_covers_extent (View : FViewInfo F) (psi : FProjectedShadowInfo F) :
  0 < Width (ViewRect View) <= 2 ^ 31 - 8 ->
  0 < Height (ViewRect View) <= 2 ^ 31 - 8 ->
  exists gx gy,
    pass_GroupCount (the_pass View psi) = (gx, gy, 1)
    /\ pass_Extent (the_pass View psi) = (Width (ViewRect View), Height (ViewRect View))
    /\ 8 * (gx - 1) < Width (ViewRect View) <= 8 * gx
    /\ 8 * (gy - 1) < Height (ViewRect View) <= 8 * gy
    /\ (forall x y : Z,
          0 <= x < Width (ViewRect View) -> 0 <= y < Height (ViewRect View) ->
          0 <= x / 8 < gx /\ 0 <= y / 8 < gy).
Proof.
  intros Hw Hh.
  destruct (group_count_of_extent _ Hw) as [Hgx Hbx].
  destruct (group_count_of_extent _ Hh) as [Hgy Hby].
  exists ((Width (ViewRect View) + 7) / 8), ((Height (ViewRect View) + 7) / 8).
  split.
  { unfold the_pass; cbn [pass_GroupCount].
    rewrite GroupSizeX_eq, GroupSizeY_eq, Hgx, Hgy. reflexivity. }
  split; [reflexivity |]. split; [exact Hbx |]. split; [exact Hby |].
  intros x y Hx Hy.
  pose proof (Z.div_mod x 8 ltac:(lia)). pose proof (Z.mod_pos_bound x 8 ltac:(lia)).
  pose proof (Z.div_mod y 8 ltac:(lia)). pose proof (Z.mod_pos_bound y 8 ltac:(lia)).
  lia.
Qed.

End Coverage.

(** ** [GetShadowQuality] *)

(** X11.  [GetShadowQuality] always answers a level from 0 to 5: the
    console variable clamped to that range, or 0 when the build is
    neither shipping nor test and [r.LimitRenderingFeatures] exists
    with a value above 2. *)
Theorem GetShadowQuality_range (bShippingOrTest : bool) (Quality : Z)
    (ICVarLimit : option Z) :
  0 <= GetShadowQuality bShippingOrTest Quality ICVarLimit <= 5
  /\ GetShadowQuality bShippingOrTest Quality ICVarLimit
     = (if negb bShippingOrTest
           && match ICVarLimit with Some Limit => 2 <? Limit | None => false end
        then 0 else Z.max 0 (Z.min Quality 5)).
Proof.
  assert (Hclamp : forall q, to_uint32 (Clamp q 0 5) = Z.max 0 (Z.min q 5)).
  { intros q. unfold Clamp, to_uint32.
    destruct (Z.ltb_spec q 0); [rewrite Z.mod_small; lia |].
    destruct (Z.ltb_spec q 5); rewrite Z.mod_small; lia. }
  unfold GetShadowQuality. split.
  - rewrite Hclamp. lia.
  - destruct bShippingOrTest; cbn [negb andb]; [apply Hclamp |].
    destruct ICVarLimit as [Limit |]; [| apply Hclamp].
    destruct (2 <? Limit); [reflexivity | apply Hclamp].
Qed.

(** ** Depth bias and transition size, in binary32 *)

Module BiasFacts.
Import Binary32 Bias.

Lemma Max_lower (A B : spec_float) : SFleb B B = true -> SFleb B (Max A B) = true.
Proof.
  intros HB. unfold Max. change (fle B A) with (SFleb B A).
  destruct (SFleb B A) eqn:HBA; assumption.
Qed.

(** X12.  [ComputeTransitionSize] never returns less than
    [0.00001], for any values of the console variables and of the
    shadow, NaN and infinities included; for a pre-shadow of a light
    that casts no whole-scene shadow it returns exactly that
    minimum. *)
Theorem ComputeTransitionSize_minimum (cv : CVars spec_float) (s : ShadowSetup spec_float) :
  SFleb (flit 0.00001) (ComputeTransitionSize cv s) = true
  /\ ComputeTransitionSize cv s <> S754_nan
  /\ (IsWholeScenePointLightShadow s = false ->
      IsWholeSceneDirectionalShadow s = false ->
      bPreShadow s = true ->
      ComputeTransitionSize cv s = flit 0.00001).
Proof.
  assert (Hmin : SFleb (flit 0.00001) (ComputeTransitionSize cv s) = true).
  { unfold ComputeTransitionSize, MinTransitionSize. apply Max_lower.
    vm_compute. reflexivity. }
  split; [exact Hmin |]. split.
  - intros Hnan. rewrite Hnan in Hmin. vm_compute in Hmin. discriminate.
  - intros H1 H2 H3. unfold ComputeTransitionSize. rewrite H1, H2, H3.
    vm_compute. reflexivity.
Qed.

(** X13.  The depth biases [UpdateShaderDepthBias] assigns are never
    negative and never NaN, for any values of the console variables and
    of the shadow, and the third member is the console variable as it
    is.  For a shadow that is neither a whole-scene point-light shadow
    nor a whole-scene directional shadow (the two tests come first in
    the code): if it is a pre-shadow both biases are zero, and if it is
    not (a per-object shadow) the depth bias is at most 0.1. *)
Theorem UpdateShaderDepthBias_range (cv : CVars spec_float) (s : ShadowSetup spec_float) :
  SFleb (flit 0) (ShaderDepthBias (UpdateShaderDepthBias cv s)) = true
  /\ SFleb (flit 0) (ShaderSlopeDepthBias (UpdateShaderDepthBias cv s)) = true
  /\ ShaderDepthBias (UpdateShaderDepthBias cv s) <> S754_nan
  /\ ShaderSlopeDepthBias (UpdateShaderDepthBias cv s) <> S754_nan
  /\ ShaderMaxSlopeDepthBias (UpdateShaderDepthBias cv s)
     = CVarShadowMaxSlopeScaleDepthBias cv
  /\ (IsWholeScenePointLightShadow s = false ->
      IsWholeSceneDirectionalShadow s = false ->
      (if bPreShadow s
       then ShaderDepthBias (UpdateShaderDepthBias cv s) = flit 0
            /\ ShaderSlopeDepthBias (UpdateShaderDepthBias cv s) = flit 0
       else SFleb (ShaderDepthBias (UpdateShaderDepthBias cv s)) (flit 0.1) = true)).
Proof.
  unfold UpdateShaderDepthBias.
  destruct (depth_and_slope_bias cv s) as [D S] eqn:HDS.
  cbn [ShaderDepthBias ShaderSlopeDepthBias ShaderMaxSlopeDepthBias].
  assert (HD : SFleb (flit 0) (Max D (flit 0)) = true) by (apply Max_lower; reflexivity).
  assert (HS : SFleb (flit 0) (Max (fmul D S) (flit 0)) = true)
    by (apply Max_lower; reflexivity).
  split; [exact HD |]. split; [exact HS |].
  split; [intros Hnan; rewrite Hnan in HD; vm_compute in HD; discriminate |].
  split; [intros Hnan; rewrite Hnan in HS; vm_compute in HS; discriminate |].
  split; [reflexivity |].
  intros H1 H2. unfold depth_and_slope_bias in HDS. rewrite H1, H2 in HDS.
  destruct (bPreShadow s).
  - injection HDS as <- <-. split; vm_compute; reflexivity.
  - destruct (if bDirectionalLight s then _ else _) as [D0 S0].
    injection HDS as <- <-.
    assert (Hm : SFleb (Min D0 (flit 0.1)) (flit 0.1) = true).
    { unfold Min. change (fle D0 (flit 0.1)) with (SFleb D0 (flit 0.1)).
      destruct (SFleb D0 (flit 0.1)) eqn:HD0; [exact HD0 | vm_compute; reflexivity]. }
    unfold Max.
    match goal with
    | |- context [if ?c then _ else _] => destruct c
    end; [exact Hm | vm_compute; reflexivity].
Qed.

End BiasFacts.

(** ** [RenderShadowProjections] *)

Module ProjectionFacts.
Import Projection.

Section ProjectionProofs.
Context {F : Type} `{HLSLFloat F}.

Lemma run_checks_plain (cmds rest : list (Command F)) (inside : bool) :
  forallb is_plain cmds = true ->
  run_checks inside (cmds ++ rest) = run_checks inside rest.
Proof.
  induction cmds as [| c cmds IH]; intros Hp; [reflexivity |].
  cbn [forallb] in Hp. apply andb_true_iff in Hp. destruct Hp as [Hc Hp].
  destruct c; try discriminate; cbn [app run_checks]; now apply IH.
Qed.

Lemma issued_where_plain (p : Command F -> bool) (want inside : bool)
    (cmds rest : list (Command F)) :
  forallb is_plain cmds = true ->
  issued_where p want inside (cmds ++ rest)
  = forallb (fun c => if p c then Bool.eqb inside want else true) cmds
    && issued_where p want inside rest.
Proof.
  induction cmds as [| c cmds IH]; intros Hp; [reflexivity |].
  cbn [forallb] in Hp. apply andb_true_iff in Hp. destruct Hp as [Hc Hp].
  cbn [app issued_where forallb]. rewrite <- andb_assoc. f_equal.
  destruct c; try discriminate; now apply IH.
Qed.

Lemma project_shadow_plain (f m h : bool) (v : nat) (s : FShadow F) :
  forallb (fun c => is_plain c && negb (is_distance_field_projection c))
          (project_shadow f m h v s) = true.
Proof.
  unfold project_shadow.
  destruct (bAllocated (info s)); [| reflexivity].
  destruct (flt _ _); [| reflexivity].
  destruct (bOnePassPointLightShadow s); reflexivity.
Qed.

Lemma forallb_weaken {A : Type} (p q : A -> bool) (l : list A) :
  (forall x, p x = true -> q x = true) -> forallb p l = true -> forallb q l = true.
Proof.
  intros Hpq Hp. rewrite forallb_forall in *. intros x Hx. apply Hpq, Hp, Hx.
Qed.

Lemma forallb_flat_map {A B : Type} (p : B -> bool) (g : A -> list B) (l : list A) :
  (forall x, forallb p (g x) = true) -> forallb p (flat_map g l) = true.
Proof.
  intros Hg. induction l as [| x l IH]; [reflexivity |].
  cbn [flat_map]. rewrite forallb_app, Hg, IH. reflexivity.
Qed.

(** The mask rendering neither checks nor changes the render-pass
    state, and projects no distance-field shadow. *)
Lemma RenderShadowMask_plain (f m h : bool) (NS : list (FShadow F))
    (Views : list (FViewInfo F)) :
  forall i : nat,
  forallb (fun c => is_plain c && negb (is_distance_field_projection c))
          (RenderShadowMask_from f m h NS Views i) = true.
Proof.
  induction Views as [| V rest IH]; intros i; [reflexivity |].
  cbn [RenderShadowMask_from]. rewrite !forallb_app, IH, andb_true_r.
  cbn [forallb is_plain is_distance_field_projection negb andb].
  apply forallb_flat_map. intros s. apply project_shadow_plain.
Qed.

(** The distance-field rendering neither checks nor changes the
    render-pass state, and projects no other shadow. *)
Lemma DistanceField_plain (f : bool) (LS : nat -> option FIntRect) (DF : list (FShadow F))
    (Views : list (FViewInfo F)) :
  forall i : nat,
  forallb (fun c => is_plain c && negb (is_mask_projection c))
          (DistanceField_from f LS DF Views i) = true.
Proof.
  induction Views as [| V rest IH]; intros i; [reflexivity |].
  cbn [DistanceField_from]. rewrite !forallb_app, IH.
  cbn [forallb is_plain is_mask_projection negb andb]. rewrite !andb_true_r.
  destruct (0 <? Area _); [| reflexivity].
  clear IH. induction DF as [| s DF IHs]; [reflexivity |].
  cbn [map forallb is_plain is_mask_projection negb andb]. exact IHs.
Qed.

Lemma plain_of (p : Command F -> bool) (cmds : list (Command F)) :
  forallb (fun c => is_plain c && p c) cmds = true -> forallb is_plain cmds = true.
Proof.
  apply forallb_weaken. intros c Hc. now apply andb_true_iff in Hc.
Qed.

Lemma never_of (p : Command F -> bool) (inside want : bool) (cmds : list (Command F)) :
  forallb (fun c => is_plain c && negb (p c)) cmds = true ->
  forallb (fun c => if p c then Bool.eqb inside want else true) cmds = true.
Proof.
  apply forallb_weaken. intros c Hc. apply andb_true_iff in Hc.
  destruct Hc as [_ Hc]. now destruct (p c).
Qed.

Lemma always_inside (p : Command F -> bool) (cmds : list (Command F)) :
  forallb (fun c => if p c then Bool.eqb true true else true) cmds = true.
Proof.
  apply forallb_forall. intros c _. now destruct (p c).
Qed.

(** X14.  Called outside a render pass and not for mobile modulated
    projections, [RenderShadowProjections] passes all its [check]s and
    ends outside a render pass; every projection of a shadow mask is
    issued inside one of its render passes and every distance-field
    projection outside them, after all the others.  Called for mobile
    modulated projections it begins and ends no render pass, and passes
    its [check] when it is called inside one. *)
Theorem RenderShadowProjections_render_passes (Views : list (FViewInfo F))
    (ShadowsToProject : list (FShadow F)) (LightScissor : nat -> option FIntRect)
    (bSubPixelTexture bForward bHair : bool) :
  (let cmds := snd (RenderShadowProjections Views ShadowsToProject LightScissor
                      bSubPixelTexture bForward false bHair) in
   run_checks false cmds = Some false
   /\ issued_where is_mask_projection true false cmds = true
   /\ issued_where is_distance_field_projection false false cmds = true)
  /\ (let cmds := snd (RenderShadowProjections Views ShadowsToProject LightScissor
                         bSubPixelTexture bForward true bHair) in
      forallb (fun c => negb (is_pass_boundary c)) cmds = true
      /\ run_checks true cmds = Some true)
  /\ (forall bMobile : bool,
        exists normal distance_field,
          snd (RenderShadowProjections Views ShadowsToProject LightScissor
                 bSubPixelTexture bForward bMobile bHair) = normal ++ distance_field
          /\ forallb (fun c => negb (is_distance_field_projection c)) normal = true
          /\ forallb (fun c => negb (is_mask_projection c)) distance_field = true).
Proof.
  set (NS := List.filter (fun s => negb (bRayTracedDistanceField (info s)))
                         ShadowsToProject).
  set (DF := List.filter (fun s => bRayTracedDistanceField (info s)) ShadowsToProject).
  assert (HDFplain : forallb (fun c => is_plain c && negb (is_mask_projection c))
                             (distance_field_part Views DF LightScissor bForward) = true).
  { unfold distance_field_part. destruct (0 <? _); [apply DistanceField_plain | reflexivity]. }
  pose proof (fun m h => RenderShadowMask_plain bForward m h NS Views 0) as HM.
  assert (Hend : run_checks false (distance_field_part Views DF LightScissor bForward)
                 = Some false
                 /\ issued_where is_mask_projection true false
                      (distance_field_part Views DF LightScissor bForward) = true
                 /\ issued_where is_distance_field_projection false false
                      (distance_field_part Views DF LightScissor bForward) = true).
  { rewrite <- (app_nil_r (distance_field_part _ _ _ _)).
    rewrite run_checks_plain by apply (plain_of _ _ HDFplain).
    rewrite !issued_where_plain by apply (plain_of _ _ HDFplain).
    rewrite (never_of _ _ _ _ HDFplain).
    split; [reflexivity |]. split; [reflexivity |].
    cbn [issued_where]. rewrite andb_true_r.
    apply forallb_forall. intros c _. now destruct (is_distance_field_projection c). }
  assert (Hpass : forall (h : bool) (name : RenderPassName) (rest : list (Command F)),
             run_checks false rest = Some false
             /\ issued_where is_mask_projection true false rest = true
             /\ issued_where is_distance_field_projection false false rest = true ->
             let cmds :=
               ([check_IsOutsideRenderPass; TransitionRenderPassTargets name;
                 BeginRenderPass name]
                ++ RenderShadowMask_from bForward false h NS Views 0
                ++ [SetScissorRect_off; EndRenderPass]) ++ rest in
             run_checks false cmds = Some false
             /\ issued_where is_mask_projection true false cmds = true
             /\ issued_where is_distance_field_projection false false cmds = true).
  { intros h name rest (Hr1 & Hr2 & Hr3) cmds. subst cmds.
    rewrite <- !app_assoc.
    cbn [app run_checks issued_where is_mask_projection
         is_distance_field_projection andb].
    rewrite run_checks_plain by apply (plain_of _ _ (HM false h)).
    rewrite !issued_where_plain by apply (plain_of _ _ (HM false h)).
    rewrite always_inside, (never_of _ _ _ _ (HM false h)).
    cbn [app run_checks issued_where is_mask_projection
         is_distance_field_projection andb].
    now rewrite Hr1, Hr2, Hr3. }
  split; [| split].
  - cbn [snd RenderShadowProjections]. fold NS DF. unfold normal_part.
    cbn [negb andb].
    destruct (0 <? Z.of_nat (length NS)); [| exact Hend].
    rewrite <- app_assoc. apply Hpass.
    destruct (bSubPixelTexture && bHair); [| exact Hend].
    apply Hpass. exact Hend.
  - cbn [snd RenderShadowProjections]. fold NS DF. unfold normal_part.
    cbn [negb andb].
    assert (Hnb : forall cmds : list (Command F),
               forallb is_plain cmds = true ->
               forallb (fun c => negb (is_pass_boundary c)) cmds = true).
    { intros cmds. apply forallb_weaken. intros c Hc. now destruct c. }
    destruct (0 <? Z.of_nat (length NS)).
    + split.
      * rewrite !forallb_app.
        rewrite (Hnb _ (plain_of _ _ (HM true false))),
                (Hnb _ (plain_of _ _ HDFplain)).
        reflexivity.
      * rewrite app_nil_r, <- !app_assoc. cbn [app run_checks].
        rewrite run_checks_plain by apply (plain_of _ _ (HM true false)).
        cbn [app run_checks].
        rewrite <- (app_nil_r (distance_field_part _ _ _ _)).
        now rewrite run_checks_plain by apply (plain_of _ _ HDFplain).
    + cbn [app]. split; [apply Hnb, (plain_of _ _ HDFplain) |].
      rewrite <- (app_nil_r (distance_field_part _ _ _ _)).
      now rewrite run_checks_plain by apply (plain_of _ _ HDFplain).
  - intros bMobile. eexists _, _. split; [reflexivity |]. fold NS DF. split.
    + unfold normal_part.
      assert (Hnd : forall m h,
                 forallb (fun c => negb (is_distance_field_projection c))
                         (RenderShadowMask_from bForward m h NS Views 0) = true).
      { intros m h. generalize (HM m h). apply forallb_weaken.
        intros c Hc. now apply andb_true_iff in Hc. }
      destruct (0 <? Z.of_nat (length NS)); [| reflexivity].
      destruct bMobile; cbn [negb andb].
      * rewrite app_nil_r, !forallb_app, Hnd. reflexivity.
      * rewrite !forallb_app, Hnd.
        destruct (bSubPixelTexture && bHair); [| reflexivity].
        rewrite !forallb_app, Hnd. reflexivity.
    + generalize HDFplain. apply forallb_weaken.
      intros c Hc. now apply andb_true_iff in Hc.
Qed.

Lemma In_project_shadow (f m h : bool) (v : nat) (s : FShadow F) (c : Command F) :
  In c (project_shadow f m h v s)
  <-> bAllocated (info s) = true
      /\ flt (fdiv (flit 1) (flit 256)) (FadeAlphas s v) = true
      /\ c = (if bOnePassPointLightShadow s
              then RenderOnePassPointLightProjection s v f
              else RenderProjection s v f m h).
Proof.
  unfold project_shadow.
  destruct (bAllocated (info s)); [| split; [intros [] | intros [Hf _]; discriminate]].
  destruct (flt _ _);
    [| split; [intros [] | intros (_ & Hf & _); discriminate]].
  destruct (bOnePassPointLightShadow s); cbn [In]; split.
  - intros [<- | []]. now repeat split.
  - intros (_ & _ & ->). now left.
  - intros [<- | []]. now repeat split.
  - intros (_ & _ & ->). now left.
Qed.

(** The projections of the mask rendering: one for each view and each
    allocated shadow whose fade alpha in that view is above 1/256. *)
Lemma In_RenderShadowMask (f m h : bool) (NS : list (FShadow F))
    (Views : list (FViewInfo F)) (s : FShadow F) (v : nat) (f' m' h' : bool) :
  forall i : nat,
  In (RenderProjection s v f' m' h') (RenderShadowMask_from f m h NS Views i)
  <-> (f' = f /\ m' = m /\ h' = h)
      /\ In s NS
      /\ bAllocated (info s) = true
      /\ flt (fdiv (flit 1) (flit 256)) (FadeAlphas s v) = true
      /\ bOnePassPointLightShadow s = false
      /\ (i <= v < i + length Views)%nat.
Proof.
  induction Views as [| V rest IH]; intros i.
  - cbn [RenderShadowMask_from In length]. split; [intros [] | intros (_ & _ & _ & _ & _ & Hv); lia].
  - cbn [RenderShadowMask_from length]. rewrite !in_app_iff, IH, in_flat_map.
    split.
    + intros [Hhead | [(s0 & Hs0 & Hin) | (Hp & Hs & Ha & Hf & Ho & Hv)]].
      * cbn [In] in Hhead.
        destruct Hhead as [Hc | [Hc | [Hc | []]]]; discriminate.
      * apply In_project_shadow in Hin. destruct Hin as (Ha & Hf & Hc).
        destruct (bOnePassPointLightShadow s0) eqn:Ho; [discriminate |].
        injection Hc as E1 E2 E3 E4 E5. subst s0 v f' m' h'.
        repeat split; try assumption; lia.
      * repeat split; try tauto; lia.
    + intros ((-> & -> & ->) & Hs & Ha & Hf & Ho & Hv).
      destruct (Nat.eq_dec v i) as [-> | Hne].
      * right. left. exists s. split; [exact Hs |].
        apply In_project_shadow. rewrite Ho. now repeat split.
      * right. right. repeat split; try assumption; lia.
Qed.

Lemma In_DistanceField (f : bool) (LS : nat -> option FIntRect) (DF : list (FShadow F))
    (Views : list (FViewInfo F)) (s : FShadow F) (v : nat) (r : FIntRect) (f' : bool) :
  forall i : nat,
  In (RenderRayTracedDistanceFieldProjection s v r f') (DistanceField_from f LS DF Views i)
  <-> f' = f /\ In s DF /\ 0 < Area r
      /\ exists (k : nat) (View : FViewInfo F),
           v = (i + k)%nat /\ Views !! k = Some View
           /\ r = match LS v with Some r' => r' | None => ViewRect View end.
Proof.
  induction Views as [| V rest IH]; intros i.
  - cbn [DistanceField_from In]. split; [intros [] |].
    intros (_ & _ & _ & k & V & _ & Hk & _). discriminate.
  - cbn [DistanceField_from]. rewrite !in_app_iff, IH. split.
    + intros [Hhead | [Hmid | [Hoff | (-> & Hs & Ha & k & V' & -> & Hk & ->)]]].
      * cbn [In] in Hhead. destruct Hhead as [Hc | [Hc | []]]; discriminate.
      * destruct (0 <? Area _) eqn:Harea; [| destruct Hmid].
        apply in_map_iff in Hmid. destruct Hmid as (s0 & Hc & Hs0).
        injection Hc as E1 E2 E3 E4. subst s0 v r f'.
        split; [reflexivity |]. split; [exact Hs0 |].
        split; [now apply Z.ltb_lt |].
        exists 0%nat, V. rewrite Nat.add_0_r. now repeat split.
      * cbn [In] in Hoff. destruct Hoff as [Hc | []]. discriminate.
      * split; [reflexivity |]. split; [exact Hs |]. split; [exact Ha |].
        exists (S k), V'. split; [lia |]. split; [exact Hk |].
        replace (i + S k)%nat with (S i + k)%nat by lia. reflexivity.
    + intros (-> & Hs & Ha & k & V' & -> & Hk & ->).
      destruct k as [| k].
      * right. left. injection Hk as <-. rewrite Nat.add_0_r in *.
        apply Z.ltb_lt in Ha. rewrite Ha. apply in_map_iff. now exists s.
      * right. right. right. split; [reflexivity |]. split; [exact Hs |].
        split; [exact Ha |]. exists k, V'. split; [lia |]. split; [exact Hk |].
        replace (S i + k)%nat with (i + S k)%nat by lia. reflexivity.
Qed.

Lemma not_In_of_forallb (p : Command F -> bool) (c : Command F) (cmds : list (Command F)) :
  forallb (fun c => negb (p c)) cmds = true -> p c = true -> ~ In c cmds.
Proof.
  intros Hall Hp Hin. rewrite forallb_forall in Hall.
  specialize (Hall c Hin). rewrite Hp in Hall. discriminate.
Qed.

(** X15.  Which shadows [RenderShadowProjections] projects.  A shadow
    is given to [RenderProjection] for a view (in the first mask
    rendering) exactly when it is in the light's list, is not a
    distance-field shadow, is allocated, is not a one-pass point-light
    shadow and its fade alpha in that view is above 1/256; it is given
    to [RenderRayTracedDistanceFieldProjection] for a view exactly when
    it is a distance-field shadow of the list and the scissor rectangle
    used for the view (the light's, or the view rectangle) has a
    positive area. *)
Theorem RenderShadowProjections_projects (Views : list (FViewInfo F))
    (ShadowsToProject : list (FShadow F)) (LightScissor : nat -> option FIntRect)
    (bSubPixelTexture bForward bMobile bHair : bool) (s : FShadow F) (v : nat)
    (r : FIntRect) :
  let cmds := snd (RenderShadowProjections Views ShadowsToProject LightScissor
                     bSubPixelTexture bForward bMobile bHair) in
  (In (RenderProjection s v bForward bMobile false) cmds
   <-> In s ShadowsToProject
       /\ bRayTracedDistanceField (info s) = false
       /\ bAllocated (info s) = true
       /\ bOnePassPointLightShadow s = false
       /\ flt (fdiv (flit 1) (flit 256)) (FadeAlphas s v) = true
       /\ (v < length Views)%nat)
  /\ (In (RenderRayTracedDistanceFieldProjection s v r bForward) cmds
      <-> In s ShadowsToProject
          /\ bRayTracedDistanceField (info s) = true
          /\ 0 < Area r
          /\ exists View : FViewInfo F,
               Views !! v = Some View
               /\ r = match LightScissor v with Some r' => r' | None => ViewRect View end).
Proof.
  intros cmds. subst cmds. cbn [snd RenderShadowProjections].
  set (NS := List.filter (fun s => negb (bRayTracedDistanceField (info s)))
                         ShadowsToProject).
  set (DF := List.filter (fun s => bRayTracedDistanceField (info s)) ShadowsToProject).
  assert (HDFplain : forallb (fun c => negb (is_mask_projection c))
                             (distance_field_part Views DF LightScissor bForward) = true).
  { unfold distance_field_part. destruct (0 <? _); [| reflexivity].
    generalize (DistanceField_plain bForward LightScissor DF Views 0).
    apply forallb_weaken. intros c Hc. now apply andb_true_iff in Hc. }
  assert (HNS : forall m h,
             forallb (fun c => negb (is_distance_field_projection c))
                     (RenderShadowMask_from bForward m h NS Views 0) = true).
  { intros m h. generalize (RenderShadowMask_plain bForward m h NS Views 0).
    apply forallb_weaken. intros c Hc. now apply andb_true_iff in Hc. }
  assert (Hlen : forall l : list (FShadow F), In s l -> (0 <? Z.of_nat (length l)) = true).
  { intros l Hin. destruct l; [destruct Hin |]. apply Z.ltb_lt. cbn [length]. lia. }
  assert (HinNS : In s NS <-> In s ShadowsToProject
                              /\ bRayTracedDistanceField (info s) = false).
  { unfold NS. rewrite filter_In, negb_true_iff. reflexivity. }
  assert (HinDF : In s DF <-> In s ShadowsToProject
                              /\ bRayTracedDistanceField (info s) = true).
  { unfold DF. rewrite filter_In. reflexivity. }
  split.
  - rewrite in_app_iff. split.
    + intros [Hn | Hd];
        [| exfalso; revert Hd;
           apply (not_In_of_forallb is_mask_projection); [exact HDFplain | reflexivity]].
      unfold normal_part in Hn.
      destruct (0 <? Z.of_nat (length NS)); [| destruct Hn].
      rewrite in_app_iff in Hn. destruct Hn as [Hfirst | Hsecond].
      * assert (Hmask : In (RenderProjection s v bForward bMobile false)
                           (RenderShadowMask_from bForward bMobile false NS Views 0)).
        { destruct bMobile; rewrite !in_app_iff in Hfirst; cbn [In] in Hfirst;
            destruct Hfirst as [Hc | [Hm | Hc]]; try exact Hm;
            repeat (destruct Hc as [Hc | Hc]; try discriminate); destruct Hc. }
        apply In_RenderShadowMask in Hmask.
        destruct Hmask as (_ & Hs & Ha & Hf & Ho & Hv).
        apply HinNS in Hs. destruct Hs as [Hs Hrt].
        repeat split; try assumption. lia.
      * exfalso. destruct (negb bMobile && bSubPixelTexture && bHair); [| destruct Hsecond].
        rewrite !in_app_iff in Hsecond. cbn [In] in Hsecond.
        destruct Hsecond as [Hc | [Hm | Hc]].
        -- repeat (destruct Hc as [Hc | Hc]; try discriminate); destruct Hc.
        -- apply In_RenderShadowMask in Hm. destruct Hm as ((_ & _ & Hh) & _).
           discriminate.
        -- repeat (destruct Hc as [Hc | Hc]; try discriminate); destruct Hc.
    + intros (Hs & Hrt & Ha & Ho & Hf & Hv). left.
      assert (HsNS : In s NS) by (apply HinNS; now split).
      unfold normal_part. rewrite (Hlen NS HsNS). rewrite in_app_iff. left.
      assert (Hmask : In (RenderProjection s v bForward bMobile false)
                         (RenderShadowMask_from bForward bMobile false NS Views 0)).
      { apply In_RenderShadowMask. repeat split; try assumption; lia. }
      destruct bMobile; rewrite !in_app_iff; right; left; exact Hmask.
  - rewrite in_app_iff. split.
    + intros [Hn | Hd].
      * exfalso. unfold normal_part in Hn.
        destruct (0 <? Z.of_nat (length NS)); [| destruct Hn].
        assert (Hnone : forall m h (pre post : list (Command F)),
                   forallb (fun c => negb (is_distance_field_projection c)) pre = true ->
                   forallb (fun c => negb (is_distance_field_projection c)) post = true ->
                   ~ In (RenderRayTracedDistanceFieldProjection s v r bForward)
                        (pre ++ RenderShadowMask_from bForward m h NS Views 0 ++ post)).
        { intros m h pre post Hpre Hpost.
          apply (not_In_of_forallb is_distance_field_projection); [| reflexivity].
          now rewrite !forallb_app, Hpre, Hpost, HNS. }
        rewrite in_app_iff in Hn. destruct Hn as [Hfirst | Hsecond].
        -- destruct bMobile; revert Hfirst; apply Hnone; reflexivity.
        -- destruct (negb bMobile && bSubPixelTexture && bHair); [| destruct Hsecond].
           revert Hsecond. apply Hnone; reflexivity.
      * unfold distance_field_part in Hd.
        destruct (0 <? Z.of_nat (length DF)); [| destruct Hd].
        apply In_DistanceField in Hd.
        destruct Hd as (_ & Hs & Ha & k & V & -> & Hk & ->).
        apply HinDF in Hs. destruct Hs as [Hs Hrt].
        split; [exact Hs |]. split; [exact Hrt |]. split; [exact Ha |].
        exists V. now split.
    + intros (Hs & Hrt & Ha & V & Hk & ->). right.
      assert (HsDF : In s DF) by (apply HinDF; now split).
      unfold distance_field_part. rewrite (Hlen DF HsDF).
      apply In_DistanceField. split; [reflexivity |]. split; [exact HsDF |].
      split; [exact Ha |]. exists v, V. now repeat split.
Qed.

End ProjectionProofs.
End ProjectionFacts.

(** ** [Main_CS] reads the G-buffer only along the ray *)

Section GBufferLocality.
Context {F : Type} `{HLSLFloat F}.
Variable env : ShaderEnv F.
Variable g' : float2 F -> FGBufferData F.
Variable tid : uint3.

(** The other G-buffer agrees with the scene's at the pixel's own UV. *)
Hypothesis Hown :
  g' (ScreenUV env tid) = GetGBufferDataFromSceneTextures env (ScreenUV env tid).

Create Rewrite HintDb gbuffer.

Tactic Notation "gbuffer_eq" reference(D) :=
  intros; unfold D; autorewrite with gbuffer; reflexivity.

Lemma ScreenUV_gbuffer : ScreenUV (with_GBuffer env g') tid = ScreenUV env tid.
Proof. reflexivity. Qed.
Hint Rewrite ScreenUV_gbuffer : gbuffer.

Lemma GBuffer_gbuffer : GBuffer (with_GBuffer env g') tid = GBuffer env tid.
Proof. exact Hown. Qed.
Hint Rewrite GBuffer_gbuffer : gbuffer.

Lemma LightDirection_gbuffer : LightDirection (with_GBuffer env g') = LightDirection env.
Proof. reflexivity. Qed.
Hint Rewrite LightDirection_gbuffer : gbuffer.

Lemma TanViewFOV_gbuffer : TanViewFOV (with_GBuffer env g') = TanViewFOV env.
Proof. reflexivity. Qed.
Hint Rewrite TanViewFOV_gbuffer : gbuffer.

Lemma ScreenPosition_gbuffer : ScreenPosition (with_GBuffer env g') tid = ScreenPosition env tid.
Proof. gbuffer_eq ScreenPosition. Qed.
Hint Rewrite ScreenPosition_gbuffer : gbuffer.

Lemma N__gbuffer : N_ (with_GBuffer env g') tid = N_ env tid.
Proof. gbuffer_eq N_. Qed.
Hint Rewrite N__gbuffer : gbuffer.

Lemma SceneDepth_gbuffer : SceneDepth (with_GBuffer env g') tid = SceneDepth env tid.
Proof. gbuffer_eq SceneDepth. Qed.
Hint Rewrite SceneDepth_gbuffer : gbuffer.

Lemma PositionTranslatedWorld_gbuffer : PositionTranslatedWorld (with_GBuffer env g') tid = PositionTranslatedWorld env tid.
Proof. gbuffer_eq PositionTranslatedWorld. Qed.
Hint Rewrite PositionTranslatedWorld_gbuffer : gbuffer.

Lemma test_gbuffer : test (with_GBuffer env g') tid = test env tid.
Proof. gbuffer_eq test. Qed.
Hint Rewrite test_gbuffer : gbuffer.

Lemma Dither_gbuffer : Dither (with_GBuffer env g') tid = Dither env tid.
Proof. gbuffer_eq Dither. Qed.
Hint Rewrite Dither_gbuffer : gbuffer.

Lemma NdotL_gbuffer : NdotL (with_GBuffer env g') tid = NdotL env tid.
Proof. gbuffer_eq NdotL. Qed.
Hint Rewrite NdotL_gbuffer : gbuffer.

Lemma contactShadowLengthScreenScale_gbuffer : contactShadowLengthScreenScale (with_GBuffer env g') tid = contactShadowLengthScreenScale env tid.
Proof. gbuffer_eq contactShadowLengthScreenScale. Qed.
Hint Rewrite contactShadowLengthScreenScale_gbuffer : gbuffer.

Lemma RayLength_gbuffer : RayLength (with_GBuffer env g') tid = RayLength env tid.
Proof. gbuffer_eq RayLength. Qed.
Hint Rewrite RayLength_gbuffer : gbuffer.

Lemma startClip_gbuffer : startClip (with_GBuffer env g') tid = startClip env tid.
Proof. gbuffer_eq startClip. Qed.
Hint Rewrite startClip_gbuffer : gbuffer.

Lemma dirClip_gbuffer : dirClip (with_GBuffer env g') tid = dirClip env tid.
Proof. gbuffer_eq dirClip. Qed.
Hint Rewrite dirClip_gbuffer : gbuffer.

Lemma endClip_gbuffer : endClip (with_GBuffer env g') tid = endClip env tid.
Proof. gbuffer_eq endClip. Qed.
Hint Rewrite endClip_gbuffer : gbuffer.

Lemma startScreen_gbuffer : startScreen (with_GBuffer env g') tid = startScreen env tid.
Proof. gbuffer_eq startScreen. Qed.
Hint Rewrite startScreen_gbuffer : gbuffer.

Lemma endScreen_gbuffer : endScreen (with_GBuffer env g') tid = endScreen env tid.
Proof. gbuffer_eq endScreen. Qed.
Hint Rewrite endScreen_gbuffer : gbuffer.

Lemma stepScreen_gbuffer : stepScreen (with_GBuffer env g') tid = stepScreen env tid.
Proof. gbuffer_eq stepScreen. Qed.
Hint Rewrite stepScreen_gbuffer : gbuffer.

Lemma startUVZ_gbuffer : startUVZ (with_GBuffer env g') tid = startUVZ env tid.
Proof. gbuffer_eq startUVZ. Qed.
Hint Rewrite startUVZ_gbuffer : gbuffer.

Lemma stepUVZ_gbuffer : stepUVZ (with_GBuffer env g') tid = stepUVZ env tid.
Proof. gbuffer_eq stepUVZ. Qed.
Hint Rewrite stepUVZ_gbuffer : gbuffer.

Lemma depthClip_gbuffer : depthClip (with_GBuffer env g') tid = depthClip env tid.
Proof. gbuffer_eq depthClip. Qed.
Hint Rewrite depthClip_gbuffer : gbuffer.

Lemma depthScreen_gbuffer : depthScreen (with_GBuffer env g') tid = depthScreen env tid.
Proof. gbuffer_eq depthScreen. Qed.
Hint Rewrite depthScreen_gbuffer : gbuffer.

Lemma stepOffset_gbuffer : stepOffset (with_GBuffer env g') tid = stepOffset env tid.
Proof. gbuffer_eq stepOffset. Qed.
Hint Rewrite stepOffset_gbuffer : gbuffer.

Lemma sampleTime0_gbuffer : sampleTime0 (with_GBuffer env g') tid = sampleTime0 env tid.
Proof. gbuffer_eq sampleTime0. Qed.
Hint Rewrite sampleTime0_gbuffer : gbuffer.

Lemma CompareTolerance_gbuffer : CompareTolerance (with_GBuffer env g') tid = CompareTolerance env tid.
Proof. gbuffer_eq CompareTolerance. Qed.
Hint Rewrite CompareTolerance_gbuffer : gbuffer.

Lemma shadowed_value_gbuffer : shadowed_value (with_GBuffer env g') tid = shadowed_value env tid.
Proof. gbuffer_eq shadowed_value. Qed.
Hint Rewrite shadowed_value_gbuffer : gbuffer.

Lemma sampleUVZ_gbuffer (t : F) : sampleUVZ (with_GBuffer env g') tid t = sampleUVZ env tid t.
Proof. gbuffer_eq sampleUVZ. Qed.
Hint Rewrite sampleUVZ_gbuffer : gbuffer.

Lemma samplePixel_gbuffer (t : F) : samplePixel (with_GBuffer env g') tid t = samplePixel env tid t.
Proof. gbuffer_eq samplePixel. Qed.
Hint Rewrite samplePixel_gbuffer : gbuffer.

Lemma samplePixelInt_gbuffer (t : F) : samplePixelInt (with_GBuffer env g') tid t = samplePixelInt env tid t.
Proof. gbuffer_eq samplePixelInt. Qed.
Hint Rewrite samplePixelInt_gbuffer : gbuffer.

Lemma debug_block_gbuffer (t : F) (uav : UAVs F) :
  debug_block (with_GBuffer env g') tid t uav = debug_block env tid t uav.
Proof. gbuffer_eq debug_block. Qed.
Hint Rewrite debug_block_gbuffer : gbuffer.

Lemma before_loop_gbuffer (uav : UAVs F) :
  before_loop (with_GBuffer env g') tid uav = before_loop env tid uav.
Proof. gbuffer_eq before_loop. Qed.

Lemma sampleTime_at_gbuffer (n : nat) :
  sampleTime_at (with_GBuffer env g') tid n = sampleTime_at env tid n.
Proof.
  induction n as [| n IH]; cbn [sampleTime_at];
    [apply sampleTime0_gbuffer | now rewrite IH].
Qed.

(** One iteration is the same over both G-buffers when they agree at
    its sample. *)
Lemma march_body_gbuffer (t : F) (uav : UAVs F) :
  g' (xy3 (sampleUVZ env tid t))
  = GetGBufferDataFromSceneTextures env (xy3 (sampleUVZ env tid t)) ->
  march_body (with_GBuffer env g') tid t uav = march_body env tid t uav.
Proof.
  intros Ht.
  assert (Hd : sampleDepth (with_GBuffer env g') tid t = sampleDepth env tid t).
  { unfold sampleDepth, sampleDepthWorld. rewrite sampleUVZ_gbuffer.
    change (GetGBufferDataFromSceneTextures (with_GBuffer env g')
              (xy3 (sampleUVZ env tid t)))
      with (g' (xy3 (sampleUVZ env tid t))).
    rewrite Ht. reflexivity. }
  assert (HH : Hit (with_GBuffer env g') tid t = Hit env tid t).
  { unfold Hit, depthDiff, selfOcclusion.
    rewrite Hd. autorewrite with gbuffer. reflexivity. }
  unfold march_body. rewrite HH. autorewrite with gbuffer. reflexivity.
Qed.

Lemma march_gbuffer (fuel : nat) :
  forall (n : nat) (uav : UAVs F),
  (forall m : nat, (m < Z.to_nat NumSteps)%nat ->
     g' (xy3 (sampleUVZ env tid (sampleTime_at env tid m)))
     = GetGBufferDataFromSceneTextures env
         (xy3 (sampleUVZ env tid (sampleTime_at env tid m)))) ->
  march fuel (with_GBuffer env g') tid (Z.of_nat n) (sampleTime_at env tid n) uav
  = march fuel env tid (Z.of_nat n) (sampleTime_at env tid n) uav.
Proof.
  induction fuel as [| fuel IH]; intros n uav Hray; [reflexivity |].
  cbn [march]. destruct (Z.ltb_spec (Z.of_nat n) NumSteps) as [Hlt | Hge];
    [| reflexivity].
  rewrite march_body_gbuffer by (apply Hray; unfold NumSteps in *; lia).
  unfold march_body.
  destruct (Hit env tid (sampleTime_at env tid n)
            && inside01 (xy3 (sampleUVZ env tid (sampleTime_at env tid n))));
    [reflexivity |].
  replace (Z.of_nat n + 1) with (Z.of_nat (S n)) by lia.
  change (fadd (sampleTime_at env tid n) (fdiv (flit 1) (of_int NumSteps)))
    with (sampleTime_at env tid (S n)).
  apply IH, Hray.
Qed.

Lemma Main_CS_gbuffer (fuel : nat) (gid gtid : uint3) (uav : UAVs F) :
  (forall m : nat, (m < Z.to_nat NumSteps)%nat ->
     g' (xy3 (sampleUVZ env tid (sampleTime_at env tid m)))
     = GetGBufferDataFromSceneTextures env
         (xy3 (sampleUVZ env tid (sampleTime_at env tid m)))) ->
  Main_CS fuel (with_GBuffer env g') gid tid gtid uav = Main_CS fuel env gid tid gtid uav.
Proof.
  intros Hray. rewrite !Main_CS_unfold.
  rewrite NdotL_gbuffer, shadowed_value_gbuffer, test_gbuffer, sampleTime0_gbuffer,
    before_loop_gbuffer.
  destruct (fle (NdotL env tid) (flit 0)); [reflexivity |].
  f_equal. exact (march_gbuffer fuel 0 (before_loop env tid uav) Hray).
Qed.

End GBufferLocality.

Section GBufferLocalityClaim.
Context {F : Type} `{HLSLFloat F}.

(** X16.  [Main_CS] reads the G-buffer only at the pixel's own UV and at
    the UVs of its 64 samples: over any other G-buffer that agrees with
    the scene's at those places, an invocation produces the same
    textures. *)
Theorem Main_CS_reads_only_the_ray (env : ShaderEnv F) (g' : float2 F -> FGBufferData F)
    (gid tid gtid : uint3) (uav : UAVs F) (fuel : nat) :
  g' (ScreenUV env tid) = GetGBufferDataFromSceneTextures env (ScreenUV env tid) ->
  (forall n : nat, (n < 64)%nat ->
     g' (xy3 (sampleUVZ env tid (sampleTime_at env tid n)))
     = GetGBufferDataFromSceneTextures env
         (xy3 (sampleUVZ env tid (sampleTime_at env tid n)))) ->
  Main_CS fuel (with_GBuffer env g') gid tid gtid uav = Main_CS fuel env gid tid gtid uav.
Proof.
  intros Hown Hray. apply Main_CS_gbuffer; [exact Hown |].
  intros m Hm. apply Hray. exact Hm.
Qed.

End GBufferLocalityClaim.

(** ** Where the samples are taken, in exact arithmetic *)

Module ExactSamples.
Import Exact.

Lemma sampleTime0_exact (env : ShaderEnv Q) (tid : uint3) :
  (sampleTime0 env tid == (Dither env tid + (1 # 2)) / 64)%Q.
Proof.
  unfold sampleTime0, stepOffset, step, NumSteps.
  change (fadd ?a ?b) with (a + b)%Q. change (fmul ?a ?b) with (a * b)%Q.
  change (fsub ?a ?b) with (a - b)%Q. change (fdiv ?a ?b) with (a / b)%Q.
  change (flit ?q) with q. change (of_int 64) with (inject_Z 64).
  change (inject_Z 64) with 64%Q. field.
Qed.

(** X17.  In exact arithmetic the sample of iteration [n] is taken at
    [sampleTime = (Dither + 1/2 + n) / 64]: the samples are 1/64 apart,
    and the last one, of iteration 63, lies beyond the end of the ray
    ([sampleTime > 1]) exactly when [Dither > 1/2]. *)
Theorem sample_times_exact (env : ShaderEnv Q) (tid : uint3) (n : nat) :
  (sampleTime_at env tid n == (Dither env tid + (1 # 2) + inject_Z (Z.of_nat n)) / 64)%Q
  /\ (sampleTime_at env tid (S n) - sampleTime_at env tid n == 1 / 64)%Q
  /\ ((1 < sampleTime_at env tid 63)%Q <-> ((1 # 2) < Dither env tid)%Q).
Proof.
  assert (Hclosed : forall m : nat,
             (sampleTime_at env tid m
              == (Dither env tid + (1 # 2) + inject_Z (Z.of_nat m)) / 64)%Q).
  { induction m as [| m IH].
    - cbn [sampleTime_at]. rewrite sampleTime0_exact.
      change (inject_Z (Z.of_nat 0)) with 0%Q. field.
    - cbn [sampleTime_at].
      change (fadd ?a ?b) with (a + b)%Q. change (fdiv ?a ?b) with (a / b)%Q.
      change (flit 1) with 1%Q. change (of_int NumSteps) with 64%Q.
      rewrite IH, Nat2Z.inj_succ, <- Z.add_1_r, inject_Z_plus.
      change (inject_Z 1) with 1%Q. field. }
  split; [apply Hclosed |]. split.
  - rewrite (Hclosed (S n)), (Hclosed n), Nat2Z.inj_succ, <- Z.add_1_r, inject_Z_plus.
    change (inject_Z 1) with 1%Q. field.
  - rewrite (Hclosed 63%nat). change (inject_Z (Z.of_nat 63)) with 63%Q.
    assert (Hmul : ((Dither env tid + (1 # 2) + 63) / 64
                    == (Dither env tid + (1 # 2) + 63) * (1 # 64))%Q) by field.
    rewrite Hmul. split; intros Hlt; lra.
Qed.

End ExactSamples.

(** ** [FDeferredShadingSceneRenderer::RenderShadowProjections] *)

Module TranslucencyFacts.
Import Translucency.

Lemma find_view_spec (remaining : nat) :
  forall i d : nat,
  find_view remaining i d
  = if ((i <=? d) && (d <? i + remaining))%nat then Z.of_nat d else -1.
Proof.
  induction remaining as [| r IH]; intros i d; cbn [find_view].
  - destruct (Nat.leb_spec i d), (Nat.ltb_spec d (i + 0)); cbn; try reflexivity; lia.
  - destruct (Nat.eqb_spec d i) as [-> | Hne].
    + destruct (Nat.leb_spec i i), (Nat.ltb_spec i (i + S r)); cbn; try reflexivity; lia.
    + rewrite IH.
      destruct (Nat.leb_spec (S i) d), (Nat.ltb_spec d (S i + r)),
        (Nat.leb_spec i d), (Nat.ltb_spec d (i + S r)); cbn; try reflexivity; lia.
Qed.

Lemma In_inject_all_views (remaining : nat) :
  forall (i si : nat) (c : Call),
  In c (inject_all_views remaining i si)
  <-> exists v : nat, (i <= v < i + remaining)%nat
        /\ c = InjectTranslucentVolumeLighting si v (Z.of_nat v).
Proof.
  induction remaining as [| r IH]; intros i si c; cbn [inject_all_views In].
  - split; [intros [] | intros (v & Hv & _); lia].
  - rewrite IH. split.
    + intros [<- | (v & Hv & ->)]; [exists i | exists v]; split; try reflexivity; lia.
    + intros (v & Hv & ->). destruct (Nat.eq_dec v i) as [-> | Hne]; [now left |].
      right. exists v. split; [lia | reflexivity].
Qed.

(** What one call of the first loop's body passes. *)
Lemma In_inject_shadow (NumViews si : nat) (s : FShadow) (sj v : nat) (idx : Z) :
  In (InjectTranslucentVolumeLighting sj v idx) (inject_shadow NumViews si s) ->
  sj = si
  /\ ((v < NumViews)%nat /\ idx = Z.of_nat v
      \/ (NumViews <= v)%nat /\ idx = -1 /\ DependentView s = Some v).
Proof.
  unfold inject_shadow. destruct (DependentView s) as [d |].
  - intros [Hc | []]. injection Hc as E1 E2 E3. subst sj v idx.
    split; [reflexivity |]. rewrite find_view_spec. cbn [Nat.leb Nat.add andb].
    destruct (Nat.ltb_spec d NumViews); [left | right]; repeat split; trivial.
  - intros Hin. apply In_inject_all_views in Hin. destruct Hin as (w & Hw & Hc).
    injection Hc as E1 E2 E3. subst sj v idx.
    split; [reflexivity |]. left. split; [lia | reflexivity].
Qed.

Lemma inject_loop_spec (NumViews : nat) (Has : bool) (shadows : list FShadow) :
  forall (k : nat) (flag : bool),
  fst (inject_loop NumViews Has k shadows flag) = flag || existsb (injects Has) shadows
  /\ (forall (si v : nat) (idx : Z),
        In (InjectTranslucentVolumeLighting si v idx)
           (snd (inject_loop NumViews Has k shadows flag)) ->
        exists s : FShadow,
          (k <= si)%nat /\ nth_error shadows (si - k) = Some s
          /\ injects Has s = true
          /\ ((v < NumViews)%nat /\ idx = Z.of_nat v
              \/ (NumViews <= v)%nat /\ idx = -1 /\ DependentView s = Some v))
  /\ (forall (vi si : nat),
        ~ In (ComputeShadowMapShadowing vi si)
             (snd (inject_loop NumViews Has k shadows flag))).
Proof.
  induction shadows as [| s rest IH]; intros k flag; cbn [inject_loop existsb].
  - cbn [fst snd]. rewrite orb_false_r. split; [reflexivity |].
    split; intros *; intros [].
  - destruct (injects Has s) eqn:Hs.
    + destruct (IH (S k) true) as (Hflag & Hin & Hnot).
      destruct (inject_loop NumViews Has (S k) rest true) as [flag' calls].
      cbn [fst snd] in *. split; [rewrite Hflag, orb_true_r; reflexivity |]. split.
      * intros si v idx Hc. apply in_app_or in Hc. destruct Hc as [Hc | Hc].
        -- apply In_inject_shadow in Hc. destruct Hc as (-> & Hc).
           exists s. rewrite Nat.sub_diag. repeat split; trivial.
        -- destruct (Hin si v idx Hc) as (s' & Hk & Hnth & Hs' & Hc').
           exists s'. split; [lia |]. split; [| split; assumption].
           replace (si - k)%nat with (S (si - S k)) by lia. exact Hnth.
      * intros vi si Hc. apply in_app_or in Hc. destruct Hc as [Hc | Hc].
        -- unfold inject_shadow in Hc. destruct (DependentView s).
           ++ destruct Hc as [Hc | []]. discriminate Hc.
           ++ apply In_inject_all_views in Hc. destruct Hc as (w & _ & Hc).
              discriminate Hc.
        -- exact (Hnot vi si Hc).
    + destruct (IH (S k) flag) as (Hflag & Hin & Hnot).
      cbn [orb]. split; [exact Hflag |]. split; [| exact Hnot].
      intros si v idx Hc.
      destruct (Hin si v idx Hc) as (s' & Hk & Hnth & Hs' & Hc').
      exists s'. split; [lia |]. split; [| split; assumption].
      replace (si - k)%nat with (S (si - S k)) by lia. exact Hnth.
Qed.

Lemma In_heightfield_shadows (vi : nat) (shadows : list FShadow) :
  forall (k j : nat) (s : FShadow),
  nth_error shadows j = Some s ->
  bAllocated s && bWholeSceneShadow s = true ->
  In (ComputeShadowMapShadowing vi (k + j)) (heightfield_shadows vi k shadows).
Proof.
  induction shadows as [| s0 rest IH]; intros k j s Hnth Hs; [now destruct j |].
  cbn [heightfield_shadows]. apply in_or_app. destruct j as [| j].
  - injection Hnth as ->. rewrite Hs, Nat.add_0_r. left. now left.
  - right. replace (k + S j)%nat with (S k + j)%nat by lia.
    exact (IH (S k) j s Hnth Hs).
Qed.

Lemma In_heightfield_views (remaining : nat) (shadows : list FShadow) :
  forall (i vi : nat) (c : Call),
  (i <= vi < i + remaining)%nat ->
  In c (heightfield_shadows vi 0 shadows) ->
  In c (heightfield_views remaining i shadows).
Proof.
  induction remaining as [| r IH]; intros i vi c Hvi Hc; [lia |].
  cbn [heightfield_views]. apply in_or_app.
  destruct (Nat.eq_dec vi i) as [-> | Hne]; [now left |].
  right. apply (IH (S i) vi c); [lia | exact Hc].
Qed.

Lemma injects_allocated_whole_scene (Has : bool) (s : FShadow) :
  injects Has s = true -> bAllocated s && bWholeSceneShadow s = true.
Proof.
  unfold injects. intros Hs.
  apply andb_prop in Hs. destruct Hs as [Hs _].
  apply andb_prop in Hs. destruct Hs as [Hs _]. exact Hs.
Qed.

(** X18.  The loops of [FDeferredShadingSceneRenderer::RenderShadowProjections]
    that follow the screen-space shadows, over [NumViews] views.
    [bInjectedTranslucentVolume] is never cleared: it ends up set when
    it was set before or some shadow passes the condition of the first
    loop.  Every [InjectTranslucentVolumeLighting] is for such a shadow,
    and its [ViewIndex] is the index of the view it passes, or [-1] for
    a dependent view that is not among [Views].  Every shadow that is
    injected is also handed to [ComputeShadowMapShadowing], once for
    each view. *)
Theorem translucency_injection (NumViews : nat) (HasStaticShadowing : bool)
    (ShadowsToProject : list FShadow) (bInjectedTranslucentVolume : bool) :
  fst (inject_loop NumViews HasStaticShadowing 0 ShadowsToProject
                   bInjectedTranslucentVolume)
  = bInjectedTranslucentVolume || existsb (injects HasStaticShadowing) ShadowsToProject
  /\ (forall (ShadowIndex View : nat) (ViewIndex : Z),
        In (InjectTranslucentVolumeLighting ShadowIndex View ViewIndex)
           (snd (inject_loop NumViews HasStaticShadowing 0 ShadowsToProject
                             bInjectedTranslucentVolume)) ->
        exists s : FShadow,
          nth_error ShadowsToProject ShadowIndex = Some s
          /\ injects HasStaticShadowing s = true
          /\ ((View < NumViews)%nat /\ ViewIndex = Z.of_nat View
              \/ (NumViews <= View)%nat /\ ViewIndex = -1
                 /\ DependentView s = Some View)
          /\ forall v : nat, (v < NumViews)%nat ->
               In (ComputeShadowMapShadowing v ShadowIndex)
                  (heightfield_views NumViews 0 ShadowsToProject)).
Proof.
  destruct (inject_loop_spec NumViews HasStaticShadowing ShadowsToProject 0
              bInjectedTranslucentVolume) as (Hflag & Hin & _).
  split; [exact Hflag |].
  intros si v idx Hc. destruct (Hin si v idx Hc) as (s & _ & Hnth & Hs & Hidx).
  rewrite Nat.sub_0_r in Hnth.
  exists s. repeat split; try assumption.
  intros w Hw. apply (In_heightfield_views NumViews ShadowsToProject 0 w); [lia |].
  apply (In_heightfield_shadows w ShadowsToProject 0 si s Hnth).
  exact (injects_allocated_whole_scene HasStaticShadowing s Hs).
Qed.

End TranslucencyFacts.

(** ** The added properties on concrete inputs, in binary32 *)

Module MoreFacts.
Import Binary32 Scenes PSScenes.

(** With a light vector of length 1 the first sample of pixel
    (233, 250) is off the screen, and the pixel is white although the
    nearer surface lies along the ray. *)
Lemma Main_offscreen_is_lit_witness :
  fle (PS.NdotL near_wall_fast centre) (flit 0) = false
  /\ PS.onscreen_at near_wall_fast centre 0 = false
  /\ PS.Main (PS.enough 0) near_wall_fast centre centre
     = Some (mk4 (flit 1) (flit 1) (flit 1) (flit 1)).
Proof.
  split; [vm_compute; reflexivity |]. split; [vm_compute; reflexivity |].
  apply (PSFacts.Main_offscreen_is_lit near_wall_fast centre centre 0 0).
  - vm_compute; reflexivity.
  - vm_compute; reflexivity.
  - intros m Hm. lia.
Defined.

(** The same pixel with a light vector of length 0.001: the first
    sample is on the screen and on the nearer surface, and the pixel is
    black. *)
Example Main_reaches_occluder :
  PS.onscreen_at near_wall_slow centre 0 = true
  /\ PS.occluded_at near_wall_slow centre 0 = true
  /\ PS.march 101 near_wall_slow 0 (PS.startPos near_wall_slow centre)
               (mk4 (f 1) (f 1) (f 1) (f 1))
     = Some (0, mk4 (f 0) (f 0) (f 0) (f 1)).
Proof. vm_compute. repeat split. Qed.

(** Pixel (233, 250) of the backlit scene, in both shaders. *)
Lemma Main_and_Main_CS_reject_together_witness :
  let env := pixel_env backlit in
  fle (NdotL backlit (pixel 233 250)) (flit 0) = true
  /\ PS.NdotL env (PS.SvPosition_of env (pixel 233 250) (f 0) (f 1))
     = NdotL backlit (pixel 233 250)
  /\ PS.Main 0 env (PS.SvPosition_of env (pixel 233 250) (f 0) (f 1)) centre
     = Some (mk4 (flit 0) (flit 0) (flit 0) (flit 1))
  /\ exists uav', Main_CS 0 backlit no_group (pixel 233 250) no_group blank = Some uav'
       /\ RWShadowFactors uav' !! uxy (pixel 233 250)
          = Some (mk2 (flit 0) (SceneDepth backlit (pixel 233 250))).
Proof.
  split; [vm_compute; reflexivity |].
  apply (Main_and_Main_CS_reject_together (pixel_env backlit) no_group (pixel 233 250)
           no_group (f 0) (f 1) centre blank 0 0).
  vm_compute; reflexivity.
Defined.

(** Pixel (234, 250) marches along the row v = 250.5 / 512, below the
    changed part: both G-buffers give the same textures, although they
    differ elsewhere. *)
Lemma Main_CS_reads_only_the_ray_witness :
  occluder_below (mk2 (f 0.5) (f 0.1)) <> wall 0.46 1.03 (mk2 (f 0.5) (f 0.1))
  /\ Main_CS 65 (with_GBuffer occluder occluder_below) no_group (pixel 234 250) no_group blank
     = Main_CS 65 occluder no_group (pixel 234 250) no_group blank.
Proof.
  split; [vm_compute; discriminate |].
  apply (Main_CS_reads_only_the_ray occluder occluder_below no_group (pixel 234 250)
           no_group blank 65).
  - vm_compute; reflexivity.
  - intros n Hn.
    do 64 (destruct n as [| n]; [vm_compute; reflexivity |]). lia.
Defined.

(** The 512 x 512 view: 64 x 64 groups. *)
Lemma dispatch_covers_extent_witness :
  (0 < Width (ViewRect view_full) <= 2 ^ 31 - 8)
  /\ (0 < Height (ViewRect view_full) <= 2 ^ 31 - 8)
  /\ exists gx gy,
       pass_GroupCount (the_pass view_full point_light) = (gx, gy, 1)
       /\ pass_Extent (the_pass view_full point_light)
          = (Width (ViewRect view_full), Height (ViewRect view_full))
       /\ 8 * (gx - 1) < Width (ViewRect view_full) <= 8 * gx
       /\ 8 * (gy - 1) < Height (ViewRect view_full) <= 8 * gy
       /\ (forall x y : Z,
             0 <= x < Width (ViewRect view_full) ->
             0 <= y < Height (ViewRect view_full) ->
             0 <= x / 8 < gx /\ 0 <= y / 8 < gy).
Proof.
  assert (Hw : 0 < Width (ViewRect view_full) <= 2 ^ 31 - 8)
    by (vm_compute; split; [reflexivity | discriminate]).
  assert (Hh : 0 < Height (ViewRect view_full) <= 2 ^ 31 - 8)
    by (vm_compute; split; [reflexivity | discriminate]).
  split; [exact Hw |]. split; [exact Hh |].
  exact (dispatch_covers_extent view_full point_light Hw Hh).
Defined.

End MoreFacts.
